(** * stepfg: extrusion of planar polygons into a STEP boundary representation

    A shallow embedding of [stepfg.py].  The program keeps three global
    variables ([work_array], [current_index], [part_body_index]) that every
    record builder reads and updates through [new_item]; they are threaded
    here through a state-and-exception monad, [M].  Functions that touch no
    global but can raise return a [result].

    Python numbers are kept abstract behind the class [PyNumber], so that
    every statement about the structure of a run holds whatever the
    arithmetic does; [pynum] instantiates the class with Python's [int] (as
    [Z]) and [float] (as binary64), on which runs can be evaluated and
    statements about exact arithmetic proved.

    The file that a run writes is behind the class [FileSystem]: the
    opening of the file and the writing of each item can be refused, and a
    statement about a run is about the run in every file system.

    The order is: the embedding of the source; Python's numbers; the
    vocabulary of the statements, with the wording of the specification
    where a statement compares the code against it; the properties. *)

From Stdlib Require Import ZArith List String Ascii Bool Lia Floats.
From Stdlib Require Import QArith Qabs Qround.
From Stdlib Require DecimalString DecimalPos DecimalZ.
Import ListNotations.

Open Scope string_scope.
Open Scope Z_scope.

Set Implicit Arguments.

(** ** Exceptions and results *)

(** The ways a run can stop: [sys.exit()] after a printed message, or one of
    the interpreter's own exceptions reaching the top level.  [OSError]
    stands for the errors of opening and writing a file, and
    [UnicodeEncodeError] for text that the file's encoding cannot take. *)
Inductive exn : Type :=
| SystemExit
| ZeroDivisionError
| IndexError
| ValueError
| TypeError
| OverflowError
| OSError
| UnicodeEncodeError.

Inductive result (A : Type) : Type :=
| Ok (a : A)
| Raise (e : exn).

Arguments Ok {A} a.
Arguments Raise {A} e.

Definition bindR {A B : Type} (r : result A) (k : A -> result B) : result B :=
  match r with
  | Ok a => k a
  | Raise e => Raise e
  end.

Notation "x <~ r ;; k" := (bindR r (fun x => k))
  (at level 61, r at next level, right associativity).

(** A list comprehension whose body may raise: elements are evaluated from
    left to right and the first exception wins. *)
Fixpoint mapR {A B : Type} (f : A -> result B) (l : list A) : result (list B) :=
  match l with
  | [] => Ok []
  | a :: l' => b <~ f a ;; bs <~ mapR f l' ;; Ok (b :: bs)
  end.

(** [l[i]] for a non-negative literal index. *)
Definition index {A : Type} (l : list A) (i : nat) : result A :=
  match nth_error l i with
  | Some a => Ok a
  | None => Raise IndexError
  end.

(** [l[-1]]. *)
Definition index_last {A : Type} (l : list A) : result A :=
  index (rev l) 0.

(** [map(f, l1, l2)]: stops at the end of the shorter argument. *)
Fixpoint map2 {A B C : Type} (f : A -> B -> C) (l1 : list A) (l2 : list B) : list C :=
  match l1, l2 with
  | a :: l1', b :: l2' => f a b :: map2 f l1' l2'
  | _, _ => []
  end.

(** Slices [l[a:]] and [l[:a]] with Python's treatment of negative and
    out-of-range bounds. *)
Definition slice_bound {A : Type} (l : list A) (a : Z) : nat :=
  let n := Z.of_nat (List.length l) in
  Z.to_nat (if a <? 0 then Z.max (n + a) 0 else Z.min a n).

Definition slice_from {A : Type} (l : list A) (a : Z) : list A :=
  skipn (slice_bound l a) l.

Definition slice_to {A : Type} (l : list A) (a : Z) : list A :=
  firstn (slice_bound l a) l.

Definition rotate {A : Type} (list_in : list A) (x : Z) : list A :=
  slice_from list_in (- x) ++ slice_to list_in (- x).

(** ** Text *)

Definition nl : string := String (ascii_of_nat 10) EmptyString.

(** [str(n)] for an int. *)
Definition str_int (n : Z) : string :=
  DecimalString.NilZero.string_of_int (Z.to_int n).

(** [s.startswith(p)]. *)
Fixpoint starts_with (p s : string) : bool :=
  match p, s with
  | EmptyString, _ => true
  | String a p', String b s' => Ascii.eqb a b && starts_with p' s'
  | String _ _, EmptyString => false
  end.

(** [s.endswith(t)]: some tail of [s] is [t]. *)
Fixpoint ends_with (t s : string) : bool :=
  if String.eqb s t then true
  else match s with
       | EmptyString => false
       | String _ s' => ends_with t s'
       end.

(** The regular expression [#(.+?)=] of [line_index].  After the [#] the
    group takes one character other than a newline, then as few more as
    possible up to the next [=]; a newline in between ends the attempt. *)
Fixpoint lazy_to_equals (s : string) : option string :=
  match s with
  | EmptyString => None
  | String c s' =>
      if Ascii.eqb c "=" then Some EmptyString
      else if Ascii.eqb c (ascii_of_nat 10) then None
      else option_map (String c) (lazy_to_equals s')
  end.

Definition group_after_hash (s : string) : option string :=
  match s with
  | EmptyString => None
  | String c s' =>
      if Ascii.eqb c (ascii_of_nat 10) then None
      else option_map (String c) (lazy_to_equals s')
  end.

(** [re.search('#(.+?)=', line)]: the leftmost [#] at which the pattern
    matches; the result is group 1. *)
Fixpoint re_search_hash (line : string) : option string :=
  match line with
  | EmptyString => None
  | String c s' =>
      if Ascii.eqb c "#" then
        match group_after_hash s' with
        | Some g => Some g
        | None => re_search_hash s'
        end
      else re_search_hash s'
  end.

(** [int(s)] on ASCII text: white space on both sides (the space and the
    characters 9 to 13), an optional sign, and decimal digits in which
    single underscores may separate digits.  The interpreter's limit on the
    length of a numeral (4300 digits from CPython 3.11 on, where it is set)
    is not part of it: statements about ids of any size bound them. *)
Definition is_space (c : ascii) : bool :=
  let n := nat_of_ascii c in
  ((9 <=? n) && (n <=? 13) || (n =? 32))%nat.

Definition digit_of (c : ascii) : option Z :=
  let n := nat_of_ascii c in
  if ((48 <=? n) && (n <=? 57))%nat then Some (Z.of_nat (n - 48)) else None.

Fixpoint skip_spaces (s : string) : string :=
  match s with
  | String c s' => if is_space c then skip_spaces s' else s
  | EmptyString => s
  end.

Definition only_spaces (s : string) : bool :=
  match skip_spaces s with
  | EmptyString => true
  | _ => false
  end.

(** [digits_from acc s]: [s] follows a digit; [acc] is the value read so far. *)
Fixpoint digits_from (acc : Z) (s : string) : option Z :=
  match s with
  | EmptyString => Some acc
  | String c s' =>
      match digit_of c with
      | Some d => digits_from (10 * acc + d) s'
      | None =>
          if Ascii.eqb c "_" then
            match s' with
            | String c' s'' =>
                match digit_of c' with
                | Some d => digits_from (10 * acc + d) s''
                | None => None
                end
            | EmptyString => None
            end
          else if only_spaces s then Some acc else None
      end
  end.

Definition unsigned_int (s : string) : option Z :=
  match s with
  | String c s' =>
      match digit_of c with
      | Some d => digits_from d s'
      | None => None
      end
  | EmptyString => None
  end.

Definition py_int (s : string) : result Z :=
  let v :=
    match skip_spaces s with
    | String "-" s' => option_map Z.opp (unsigned_int s')
    | String "+" s' => unsigned_int s'
    | s' => unsigned_int s'
    end in
  match v with
  | Some z => Ok z
  | None => Raise ValueError
  end.

Definition line_index (line : string) : result Z :=
  match re_search_hash line with
  | None => Ok 0
  | Some g => py_int g
  end.

(** ** Numbers *)

(** What the program asks of a number.  [num_sq] is [x ** 2] and [num_sqrt]
    is [math.sqrt(x)]; both can raise.  [num_div] is the quotient for a
    divisor that is not zero: the test for zero is in [truediv].
    [converts x] says that [x] can be made a float, which an int beyond the
    range of the floats cannot, and [is_float x] that [x] is a float: an
    operation on a float and an int makes the int a float first. *)
Class PyNumber (num : Type) : Type := {
  of_int : Z -> num;
  float_one : num;
  converts : num -> bool;
  is_float : num -> bool;
  num_add : num -> num -> num;
  num_sub : num -> num -> num;
  num_mul : num -> num -> num;
  num_neg : num -> num;
  num_div : num -> num -> num;
  num_sq : num -> result num;
  num_sqrt : num -> result num;
  num_eqb : num -> num -> bool;
  num_gtb : num -> num -> bool;
  num_str : num -> string
}.

#[local] Unset Elimination Schemes.

(** Values that [ast.literal_eval] hands to the program: [None], text,
    numbers, lists and tuples.  (It can also produce bools, complex
    numbers, bytes, sets and dicts, which are left out.) *)
Inductive pyval (num : Type) : Type :=
| VNone
| VStr (s : string)
| VNum (n : num)
| VList (l : list (pyval num))
| VTuple (l : list (pyval num)).

#[local] Set Elimination Schemes.

Arguments VNone {num}.
Arguments VStr {num} s.

(** The argument of [fort_bool]: a bool, or text. *)
Inductive sense : Type :=
| SBool (b : bool)
| SText (s : string).

(** The argument of [to_step_list]: one id, or a list of ids. *)
Inductive ids : Type :=
| OneId (i : Z)
| IdList (l : list Z).

(** What [convert_to_clockwise] takes and returns: a list, or the iterator
    [reversed(l)] over a list [l].  Both can be walked, the iterator from
    the last element of [l] to the first; only the list can be sliced. *)
Inductive sequence (A : Type) : Type :=
| AList (l : list A)
| Reversed (l : list A).

Arguments AList {A} l.
Arguments Reversed {A} l.

Coercion AList : list >-> sequence.

(** The elements that [for x in w] visits. *)
Definition elements {A : Type} (w : sequence A) : list A :=
  match w with
  | AList l => l
  | Reversed l => rev l
  end.

(** ** The output file *)

(** What the operating system answers to the run: to
    [open(file_out_name, 'w+')], and to the [write] of one item after the
    items that the file already holds.  Either can raise. *)
Class FileSystem : Type := {
  fs_open : result unit;
  fs_write : list string -> string -> result unit
}.

(** ** Global state *)

(** [file_array] and [index1] are set once, before generation starts;
    [file_out] is the content of the output file from the moment it has
    been opened, and [None] before. *)
Record state : Type := mkState {
  file_array : list string;
  index1 : nat;
  work_array : list string;
  current_index : Z;
  part_body_index : Z;
  file_out : option (list string)
}.

Definition M (A : Type) : Type := state -> result A * state.

Definition ret {A : Type} (a : A) : M A := fun s => (Ok a, s).

Definition bind {A B : Type} (m : M A) (k : A -> M B) : M B :=
  fun s =>
    match m s with
    | (Ok a, s') => k a s'
    | (Raise e, s') => (Raise e, s')
    end.

Definition lift {A : Type} (r : result A) : M A := fun s => (r, s).

Notation "x <- m ;; k" := (bind m (fun x => k))
  (at level 61, m at next level, right associativity).

Fixpoint mapM {A B : Type} (f : A -> M B) (l : list A) : M (list B) :=
  match l with
  | [] => ret []
  | a :: l' => b <- f a ;; bs <- mapM f l' ;; ret (b :: bs)
  end.

(** ** The registry *)

Definition matches (string_in : string) (w : list string) : list string :=
  filter (ends_with string_in) w.

Definition item_exists_q (string_in : string) : M bool :=
  fun s =>
    match work_array s with
    | [] => (Ok false, s)
    | _ =>
        match matches string_in (work_array s) with
        | [] => (Ok false, s)
        | _ => (Ok true, s)
        end
    end.

(** The two early [return False] are written as the int [0], which is what
    [False] is as a number; [new_item] never reaches them. *)
Definition existing_item_ln (string_in : string) : M Z :=
  fun s =>
    match work_array s with
    | [] => (Ok 0, s)
    | _ =>
        match item_exists_q string_in s with
        | (Ok false, s') => (Ok 0, s')
        | (Ok true, s') =>
            (first <~ index (matches string_in (work_array s')) 0 ;;
             line_index first, s')
        | (Raise e, s') => (Raise e, s')
        end
    end.

Definition append_item (item : string) : M unit :=
  fun s =>
    (Ok tt, mkState (file_array s) (index1 s) (work_array s ++ [item])%list
                    (current_index s) (part_body_index s) (file_out s)).

Definition get_current_index : M Z := fun s => (Ok (current_index s), s).

Definition set_current_index (i : Z) : M unit :=
  fun s =>
    (Ok tt, mkState (file_array s) (index1 s) (work_array s) i
                    (part_body_index s) (file_out s)).

Definition get_part_body_index : M Z := fun s => (Ok (part_body_index s), s).

Definition set_part_body_index (i : Z) : M unit :=
  fun s =>
    (Ok tt, mkState (file_array s) (index1 s) (work_array s)
                    (current_index s) i (file_out s)).

Definition new_item (string_in : string) : M Z :=
  found <- item_exists_q string_in ;;
  if found : bool then existing_item_ln string_in
  else
    ci <- get_current_index ;;
    _ <- append_item ("#" ++ str_int ci ++ "=" ++ string_in) ;;
    _ <- set_current_index (ci + 1) ;;
    ret ci.

(** ** Geometry and record builders *)

Section Builders.

Context {num : Type} `{PyNumber num} `{FileSystem}.

Definition vec : Type := list num.

(** [x / y]. *)
Definition truediv (x y : num) : result num :=
  if num_eqb y (of_int 0) then Raise ZeroDivisionError else Ok (num_div x y).

(** [mixes a b]: [a] and [b] can be the operands of one operation.  When
    one of them is a float the other is made one, which raises
    [OverflowError] on an int beyond the range of the floats. *)
Definition mixes (a b : num) : bool :=
  (negb (is_float a) || converts b) && (negb (is_float b) || converts a).

(** [a + b], [a - b] or [a * b] on numbers that come from the input. *)
Definition checked (op : num -> num -> num) (a b : num) : result num :=
  if mixes a b then Ok (op a b) else Raise OverflowError.

(** [sum(l)]: starts from the int [0] and adds from the left. *)
Fixpoint sum_from (start : num) (l : list num) : result num :=
  match l with
  | [] => Ok start
  | x :: rest => s <~ checked num_add start x ;; sum_from s rest
  end.

Definition py_sum (l : list num) : result num := sum_from (of_int 0) l.

(** [l1 == l2] on lists of numbers. *)
Fixpoint py_list_eqb (l1 l2 : list num) : bool :=
  match l1, l2 with
  | [], [] => true
  | a :: l1', b :: l2' => num_eqb a b && py_list_eqb l1' l2'
  | _, _ => false
  end.

Definition to_coord (clist : vec) : result string :=
  if negb (Nat.eqb (List.length clist) 3) then Raise SystemExit
  else
    c0 <~ index clist 0 ;;
    c1 <~ index clist 1 ;;
    c2 <~ index clist 2 ;;
    Ok (num_str c0 ++ "," ++ num_str c1 ++ "," ++ num_str c2).

Definition to_step_list (slist : ids) : result string :=
  match slist with
  | OneId i => Ok ("#" ++ str_int i)
  | IdList l =>
      let slist1 :=
        fold_left (fun acc j => acc ++ "#" ++ str_int j ++ ",")
                  (removelast l) "" in
      last_id <~ index_last l ;;
      Ok (slist1 ++ "#" ++ str_int last_id)
  end.

Definition fort_bool (bool_in : sense) : string :=
  match bool_in with
  | SBool true => ".T."
  | SBool false => ".F."
  | SText s => if String.eqb s ".T." then ".T." else ".F."
  end.

Definition magnitude (vector_in : vec) : result num :=
  squares <~ mapR num_sq vector_in ;;
  total <~ py_sum squares ;;
  num_sqrt total.

Definition normalize (vector_in : vec) : result vec :=
  if negb (Nat.eqb (List.length vector_in) 3) then Raise SystemExit
  else
    m <~ magnitude vector_in ;;
    mapR (fun x => truediv x m) vector_in.

Definition cross_product (x y : vec) : result vec :=
  x2 <~ index x 2 ;; y1 <~ index y 1 ;;
  x1 <~ index x 1 ;; y2 <~ index y 2 ;;
  let c0 := num_add (num_mul (num_neg x2) y1) (num_mul x1 y2) in
  x2 <~ index x 2 ;; y0 <~ index y 0 ;;
  x0 <~ index x 0 ;; y2 <~ index y 2 ;;
  let c1 := num_sub (num_mul x2 y0) (num_mul x0 y2) in
  x1 <~ index x 1 ;; y0 <~ index y 0 ;;
  x0 <~ index x 0 ;; y1 <~ index y 1 ;;
  let c2 := num_add (num_mul (num_neg x1) y0) (num_mul x0 y1) in
  Ok [c0; c1; c2].

Definition vadd (a b : vec) : vec := map2 num_add a b.
Definition vsub (a b : vec) : vec := map2 num_sub a b.

Definition point (coord_in : vec) : M Z :=
  c <- lift (to_coord coord_in) ;;
  new_item ("CARTESIAN_POINT('',(" ++ c ++ ")) ;" ++ nl).

Definition line (origin direction : vec) : M Z :=
  c <- lift (to_coord origin) ;;
  coord_ln <- new_item ("CARTESIAN_POINT('Origin Line',(" ++ c ++ ")) ;" ++ nl) ;;
  d <- lift (n <~ normalize direction ;; to_coord n) ;;
  dir_ln <- new_item ("DIRECTION('Vector Direction',(" ++ d ++ ")) ;" ++ nl) ;;
  vec_ln <- new_item ("VECTOR('Line Direction',#" ++ str_int dir_ln ++ ",1.) ;" ++ nl) ;;
  new_item ("LINE('Line',#" ++ str_int coord_ln ++ ",#" ++ str_int vec_ln ++ ") ;" ++ nl).

Definition vertex (coord_in : vec) : M Z :=
  c <- lift (to_coord coord_in) ;;
  coord_ln <- new_item ("CARTESIAN_POINT('Vertex',(" ++ c ++ ")) ;" ++ nl) ;;
  new_item ("VERTEX_POINT('',#" ++ str_int coord_ln ++ ") ;" ++ nl).

Definition edge_curve (vertex1_ln vertex2_ln line_coord_ln : Z) (same_sense : sense) : M Z :=
  new_item ("EDGE_CURVE('',#" ++ str_int vertex1_ln ++ ",#" ++ str_int vertex2_ln
            ++ ",#" ++ str_int line_coord_ln ++ "," ++ fort_bool same_sense
            ++ ") ;" ++ nl).

Definition edge_curve_0 (vertex1 vertex2 : vec) (same_sense : sense) : M Z :=
  v1 <- vertex vertex1 ;;
  v2 <- vertex vertex2 ;;
  mid <- lift (mapR (fun x => truediv x (of_int 2)) (vadd vertex1 vertex2)) ;;
  l <- line mid (vsub vertex2 vertex1) ;;
  edge_curve v1 v2 l (SText (fort_bool same_sense)).

Definition oriented_edge (edge_curve_ln : Z) (same_sense : sense) : M Z :=
  new_item ("ORIENTED_EDGE('',*,*,#" ++ str_int edge_curve_ln ++ ","
            ++ fort_bool same_sense ++ ") ;" ++ nl).

Definition edge_loop (lines : list Z) : M Z :=
  l <- lift (to_step_list (IdList lines)) ;;
  new_item ("EDGE_LOOP('',(" ++ l ++ ")) ;" ++ nl).

Definition edge_loop_0 (vertices : list vec) : M Z :=
  lines <- mapM (fun p => e <- edge_curve_0 (fst p) (snd p) (SBool true) ;;
                          oriented_edge e (SBool true))
                (combine vertices (rotate vertices (-1))) ;;
  edge_loop lines.

Definition face_outer_bound (edge_loop_ln : Z) (same_sense : sense) : M Z :=
  new_item ("FACE_OUTER_BOUND('',#" ++ str_int edge_loop_ln ++ ","
            ++ fort_bool same_sense ++ ") ;" ++ nl).

Definition edge_loop_1 (vertices : list vec) (same_sense : sense) : M Z :=
  l <- edge_loop_0 vertices ;;
  face_outer_bound l same_sense.

Definition axis2_placement_3d (origin_coord direction1 direction2 : vec) : M Z :=
  c <- lift (to_coord origin_coord) ;;
  origin_ln <- new_item ("CARTESIAN_POINT('Axis2P3D Location',(" ++ c ++ ")) ;" ++ nl) ;;
  d1 <- lift (to_coord direction1) ;;
  direction1_ln <- new_item ("DIRECTION('Axis2P3D ZDirection',(" ++ d1 ++ ")) ;" ++ nl) ;;
  d2 <- lift (to_coord direction2) ;;
  direction2_ln <- new_item ("DIRECTION('Axis2P3D XDirection',(" ++ d2 ++ ")) ;" ++ nl) ;;
  new_item ("AXIS2_PLACEMENT_3D('Plane Axis2P3D',#" ++ str_int origin_ln ++ ",#"
            ++ str_int direction1_ln ++ ",#" ++ str_int direction2_ln ++ ") ;" ++ nl).

Definition plane (axis2_placement_3d_ln : Z) : M Z :=
  new_item ("PLANE('',#" ++ str_int axis2_placement_3d_ln ++ ") ;" ++ nl).

Definition plane_0 (origin_coord direction1 direction2 : vec) : M Z :=
  a <- axis2_placement_3d origin_coord direction1 direction2 ;;
  plane a.

Definition advanced_face (face_outer_bound_ln : ids) (plane_ln : Z)
    (same_sense_plane : sense) : M Z :=
  l <- lift (to_step_list face_outer_bound_ln) ;;
  new_item ("ADVANCED_FACE('PartBody',(" ++ l ++ "),#" ++ str_int plane_ln ++ ","
            ++ fort_bool same_sense_plane ++ ") ;" ++ nl).

(** The condition of the [if] in [advanced_face_0]. *)
Definition face_test (vertices : list vec) (zaxis : vec) : result bool :=
  nz <~ normalize zaxis ;;
  v2 <~ index vertices 2 ;; v1 <~ index vertices 1 ;;
  v2' <~ index vertices 2 ;; v0 <~ index vertices 0 ;;
  c <~ cross_product (vsub v2 v1) (vsub v2' v0) ;;
  n <~ normalize c ;;
  Ok (py_list_eqb (vadd nz n) [of_int 0; of_int 0; of_int 0]).

Definition advanced_face_0 (vertices : list vec) (zaxis : vec)
    (same_sense_1 same_sense_2 : sense) : M Z :=
  t <- lift (face_test vertices zaxis) ;;
  if t : bool then
    fob <- edge_loop_1 vertices same_sense_1 ;;
    frame <- lift (v0 <~ index vertices 0 ;;
                   nz <~ normalize zaxis ;;
                   v1 <~ index vertices 1 ;;
                   v0' <~ index vertices 0 ;;
                   nx <~ normalize (vsub v1 v0') ;;
                   Ok (v0, nz, nx)) ;;
    a <- axis2_placement_3d (fst (fst frame)) (snd (fst frame)) (snd frame) ;;
    pl <- plane a ;;
    advanced_face (OneId fob) pl same_sense_2
  else
    fob <- edge_loop_1 (rev vertices) same_sense_1 ;;
    frame <- lift (v0 <~ index vertices 0 ;;
                   nz <~ normalize zaxis ;;
                   r1 <~ index (rev vertices) 1 ;;
                   r0 <~ index (rev vertices) 0 ;;
                   nx <~ normalize (vsub r1 r0) ;;
                   Ok (v0, nz, nx)) ;;
    a <- axis2_placement_3d (fst (fst frame)) (snd (fst frame)) (snd frame) ;;
    pl <- plane a ;;
    advanced_face (OneId fob) pl same_sense_2.

Definition advanced_face_1 (vertices : list vec)
    (same_sense_1 same_sense_2 : sense) : M Z :=
  fob <- edge_loop_1 vertices same_sense_1 ;;
  frame <- lift (v0 <~ index vertices 0 ;;
                 v2 <~ index vertices 2 ;; v1 <~ index vertices 1 ;;
                 v1' <~ index vertices 1 ;; v0' <~ index vertices 0 ;;
                 c <~ cross_product (vsub v2 v1) (vsub v1' v0') ;;
                 nz <~ normalize c ;;
                 v1'' <~ index vertices 1 ;; v0'' <~ index vertices 0 ;;
                 nx <~ normalize (vsub v1'' v0'') ;;
                 Ok (v0, nz, nx)) ;;
  a <- axis2_placement_3d (fst (fst frame)) (snd (fst frame)) (snd frame) ;;
  pl <- plane a ;;
  advanced_face (OneId fob) pl same_sense_1.

Definition closed_shell (advanced_face_ln_list : list Z) : M Z :=
  l <- lift (to_step_list (IdList advanced_face_ln_list)) ;;
  new_item ("CLOSED_SHELL('Closed Shell',(" ++ l ++ ")) ;" ++ nl).

Definition manifold_solid_brep (closed_shell_ln : Z) : M Z :=
  pbi <- get_part_body_index ;;
  msb <- new_item ("MANIFOLD_SOLID_BREP('PartBody." ++ str_int pbi ++ "',#"
                   ++ str_int closed_shell_ln ++ ") ;" ++ nl) ;;
  pbi' <- get_part_body_index ;;
  _ <- set_part_body_index (pbi' + 1) ;;
  ret msb.

Definition advanced_brep_shape_representation (manifold_solid_brep_list : list Z)
    (init_ln : Z) : M Z :=
  l <- lift (to_step_list (IdList manifold_solid_brep_list)) ;;
  new_item ("ADVANCED_BREP_SHAPE_REPRESENTATION('NONE',(" ++ l ++ "),#"
            ++ str_int init_ln ++ ") ;" ++ nl).

Definition shape_representation_relationship
    (advanced_brep_shape_representation_ln shape_representation_ln : Z) : M Z :=
  new_item ("SHAPE_REPRESENTATION_RELATIONSHIP(' ',' ',#"
            ++ str_int shape_representation_ln ++ ",#"
            ++ str_int advanced_brep_shape_representation_ln ++ ") ;" ++ nl).

Definition zface (vertex1 vertex2 : vec) (geom_depth_list : list num) : M Z :=
  z_neg <- lift (index geom_depth_list 0) ;;
  z_pos <- lift (index geom_depth_list 1) ;;
  let corners :=
    [vadd vertex1 [of_int 0; of_int 0; z_neg];
     vadd vertex2 [of_int 0; of_int 0; z_neg];
     vadd vertex2 [of_int 0; of_int 0; z_pos];
     vadd vertex1 [of_int 0; of_int 0; z_pos]] in
  hint <- lift (c <~ cross_product (vsub vertex2 vertex1)
                       [of_int 0; of_int 0; num_neg (num_sub z_pos z_neg)] ;;
                normalize c) ;;
  advanced_face_0 corners hint (SBool true) (SBool true).

Definition xyface (vertex_list : list vec) (depth : num) (zdir : vec) : M Z :=
  advanced_face_0
    (map (fun x => vadd x [of_int 0; of_int 0; depth]) vertex_list)
    zdir (SBool true) (SBool true).

Definition af2d3d (vertex_list : list vec) (geom_depth_list : list num) : M (list Z) :=
  z_neg <- lift (index geom_depth_list 0) ;;
  z_pos <- lift (index geom_depth_list 1) ;;
  top <- xyface vertex_list z_pos [of_int 0; of_int 0; of_int 1] ;;
  bottom <- xyface vertex_list z_neg [of_int 0; of_int 0; of_int (-1)] ;;
  sides <- mapM (fun p => zface (fst p) (snd p) geom_depth_list)
                (combine vertex_list (rotate vertex_list (-1))) ;;
  ret (top :: bottom :: sides).

Definition af_list_2_assembly (af_list : list Z) : M Z :=
  c <- closed_shell af_list ;;
  m <- manifold_solid_brep c ;;
  shape_representation_relationship m 48.

Definition af_list_2_part (af_list : list Z) : M Z :=
  c <- closed_shell af_list ;;
  manifold_solid_brep c.

Definition part_2_assembly (part_list : list Z) : M Z :=
  a <- advanced_brep_shape_representation part_list 45 ;;
  shape_representation_relationship a 48.

(** [generate_part] is only ever called with [clockwise_p] left at its
    default [True]; the other arm is not modelled. *)
Definition generate_part (vert_list : list vec) (geom_depth : list num) : M Z :=
  faces <- af2d3d vert_list geom_depth ;;
  af_list_2_part faces.

Definition convert_3d (element_in : pyval num) : pyval num :=
  match element_in with
  | VList [VNum a; VNum b] => VList [VNum a; VNum b; VNum (of_int 0)]
  | _ => element_in
  end.

(** The summand of [convert_to_clockwise]: [(x2[0] - x1[0]) * (x2[1] + x1[1])]. *)
Definition winding_term (x1 x2 : vec) : result num :=
  a <~ index x2 0 ;; b <~ index x1 0 ;;
  dx <~ checked num_sub a b ;;
  c <~ index x2 1 ;; d <~ index x1 1 ;;
  sy <~ checked num_add c d ;;
  checked num_mul dx sy.

Definition pol_sum (part_list : list vec) : result num :=
  terms <~ mapR (fun p => winding_term (fst p) (snd p))
                (combine part_list (rotate part_list 1)) ;;
  py_sum terms.

(** [rotate] slices its argument, which raises [TypeError] on an iterator;
    the result is the list itself, or the iterator [reversed(part_list)]. *)
Definition convert_to_clockwise (part_list : sequence vec) : result (sequence vec) :=
  match part_list with
  | Reversed _ => Raise TypeError
  | AList l =>
      s <~ pol_sum l ;;
      if num_eqb s (of_int 0) then Raise SystemExit
      else if num_gtb s (of_int 0) then Ok (Reversed l)
      else Ok (AList l)
  end.

(** *** Input checks of [generate_assembly] *)

Definition exit {A : Type} : result A := Raise SystemExit.

(** [not v]. *)
Definition falsy (v : pyval num) : bool :=
  match v with
  | VNone => true
  | VStr s => String.eqb s ""
  | VNum n => num_eqb n (of_int 0)
  | VList l | VTuple l => match l with [] => true | _ => false end
  end.

(** [len(v)]. *)
Definition py_len (v : pyval num) : result nat :=
  match v with
  | VStr s => Ok (String.length s)
  | VList l | VTuple l => Ok (List.length l)
  | VNone | VNum _ => Raise TypeError
  end.

(** The elements that [for x in v] visits. *)
Definition py_iter (v : pyval num) : result (list (pyval num)) :=
  match v with
  | VStr s => Ok (map (fun c => VStr (String c EmptyString)) (list_ascii_of_string s))
  | VList l | VTuple l => Ok l
  | VNone | VNum _ => Raise TypeError
  end.

Definition expect_number (v : pyval num) : result num :=
  match v with
  | VNum n => Ok n
  | _ => exit
  end.

Definition check_coefficient (p_coeff : pyval num) : result num :=
  k <~ expect_number p_coeff ;;
  if num_eqb k (of_int 0) then exit else Ok k.

(** The interval after the checks, with its first two entries exchanged
    when the first is the larger. *)
Definition check_interval (geom_depth_list : pyval num) : result (list num) :=
  match geom_depth_list with
  | VList [] => exit
  | VList l =>
      depths <~ mapR expect_number l ;;
      z1 <~ index depths 0 ;;
      z2 <~ index depths 1 ;;
      if num_eqb z1 z2 then exit
      else if num_gtb z1 z2 then Ok (z2 :: z1 :: skipn 2 depths)
      else Ok depths
  | _ => exit
  end.

Definition check_vertex (vertex_element : pyval num) : result unit :=
  if falsy vertex_element then exit
  else
    n <~ py_len vertex_element ;;
    if ((n <? 2) || (3 <? n))%nat then exit
    else
      cs <~ py_iter vertex_element ;;
      _ <~ mapR expect_number cs ;;
      Ok tt.

Definition check_polygon (part_element : pyval num) : result (list (pyval num)) :=
  if falsy part_element then exit
  else
    match part_element with
    | VList vs => _ <~ mapR check_vertex vs ;; Ok vs
    | _ => exit
    end.

Definition check_polygons (list_vert_list : pyval num)
    : result (list (list (pyval num))) :=
  match list_vert_list with
  | VList [] => exit
  | VList ps => mapR check_polygon ps
  | _ => exit
  end.

(** The coordinates of a vertex that passed [check_vertex]. *)
Definition coords_of (v : pyval num) : result vec :=
  match v with
  | VList l | VTuple l =>
      mapR (fun c => match c with VNum n => Ok n | _ => Raise TypeError end) l
  | _ => Raise TypeError
  end.

(** [p_coeff * 1.0 * c]: the first product makes [p_coeff] a float and the
    second makes [c] one, and either raises [OverflowError] on an int that
    is beyond the range of the floats. *)
Definition scale (p_coeff c : num) : result num :=
  if converts p_coeff && converts c
  then Ok (num_mul (num_mul p_coeff float_one) c)
  else Raise OverflowError.

(** The loop over [resulting_array] in the open file: the items are
    written one after the other until one is refused. *)
Fixpoint write_items (written items : list string) : result unit * list string :=
  match items with
  | [] => (Ok tt, written)
  | item :: rest =>
      match fs_write written item with
      | Ok _ => write_items (written ++ [item])%list rest
      | Raise e => (Raise e, written)
      end
  end.

Definition write_output : M unit :=
  fun s =>
    let resulting_array :=
      (firstn (index1 s) (file_array s) ++ work_array s
       ++ skipn (index1 s + 1) (file_array s))%list in
    match fs_open with
    | Raise e => (Raise e, s)
    | Ok _ =>
        (fst (write_items [] resulting_array),
         mkState (file_array s) (index1 s) (work_array s) (current_index s)
                 (part_body_index s)
                 (Some (snd (write_items [] resulting_array))))
    end.

Definition generate_assembly (list_vert_list geom_depth_list p_coeff : pyval num)
    : M unit :=
  k <- lift (check_coefficient p_coeff) ;;
  depths <- lift (check_interval geom_depth_list) ;;
  polys <- lift (check_polygons list_vert_list) ;;
  polys3 <- lift (mapR (mapR (fun v => coords_of (convert_3d v))) polys) ;;
  cw <- lift (mapR (fun x : list vec => convert_to_clockwise x) polys3) ;;
  scaled <- lift (mapR (fun part => mapR (mapR (scale k)) (elements part)) cw) ;;
  depths' <- lift (mapR (scale k) depths) ;;
  part_list <- mapM (fun x => generate_part x depths') scaled ;;
  _ <- part_2_assembly part_list ;;
  write_output.

End Builders.

(** ** The document scaffold and the start of a run *)

(** The fields of [datetime.datetime.now()] that the scaffold prints. *)
Record datetime : Type := mkDatetime {
  year : Z;
  month : Z;
  day : Z;
  hour : Z;
  minute : Z;
  second : Z
}.

Definition scaffold_lines (file_out_name : string) (d : datetime) : list string :=
  ["ISO-10303-21;";
   "HEADER;";
   "FILE_DESCRIPTION(('none'),'2;1');";
   "";
   "FILE_NAME('" ++ file_out_name ++ "','none',('none'),('none'),"
     ++ "'none','none','none');";
   "";
   "FILE_SCHEMA(('CONFIG_CONTROL_DESIGN'));";
   "";
   "ENDSEC;";
   "DATA;";
   "#1=APPLICATION_CONTEXT('configuration controlled 3D design of"
     ++ " mechanical parts and assemblies') ;";
   "#2=MECHANICAL_CONTEXT(' ',#1,'mechanical') ;";
   "#3=DESIGN_CONTEXT(' ',#1,'design') ;";
   "#4=APPLICATION_PROTOCOL_DEFINITION('international standard',"
     ++ "'config_control_design',1994,#1) ;";
   "#5=PRODUCT('Part1','','',(#2)) ;";
   "#6=PRODUCT_DEFINITION_FORMATION_WITH_SPECIFIED_SOURCE('',' '"
     ++ ",#5,.NOT_KNOWN.) ;";
   "#7=PRODUCT_CATEGORY('part',$) ;";
   "#8=PRODUCT_RELATED_PRODUCT_CATEGORY('detail',$,(#5)) ;";
   "#9=PRODUCT_CATEGORY_RELATIONSHIP(' ',' ',#7,#8) ;";
   "#10=COORDINATED_UNIVERSAL_TIME_OFFSET(0,0,.AHEAD.) ;";
   "#11=CALENDAR_DATE(" ++ str_int (year d) ++ "," ++ str_int (month d) ++ ","
     ++ str_int (day d) ++ ") ;";
   "#12=LOCAL_TIME(" ++ str_int (hour d) ++ "," ++ str_int (minute d) ++ ","
     ++ str_int (second d) ++ ".,#10) ;";
   "#13=DATE_AND_TIME(#11,#12) ;";
   "#14=PRODUCT_DEFINITION('',' ',#6,#3) ;";
   "#15=SECURITY_CLASSIFICATION_LEVEL('unclassified') ;";
   "#16=SECURITY_CLASSIFICATION(' ',' ',#15) ;";
   "#17=DATE_TIME_ROLE('classification_date') ;";
   "#18=CC_DESIGN_DATE_AND_TIME_ASSIGNMENT(#13,#17,(#16)) ;";
   "#19=APPROVAL_ROLE('APPROVER') ;";
   "#20=APPROVAL_STATUS('not_yet_approved') ;";
   "#21=APPROVAL(#20,' ') ;";
   "#22=PERSON(' ',' ',' ',$,$,$) ;";
   "#23=ORGANIZATION(' ',' ',' ') ;";
   "#24=PERSONAL_ADDRESS(' ',' ',' ',' ',' ',' ',' ',' ',' ',"
     ++ "' ',' ',' ',(#22),' ') ;";
   "#25=PERSON_AND_ORGANIZATION(#22,#23) ;";
   "#26=PERSON_AND_ORGANIZATION_ROLE('classification_officer') ;";
   "#27=CC_DESIGN_PERSON_AND_ORGANIZATION_ASSIGNMENT(#25,#26,"
     ++ "(#16)) ;";
   "#28=DATE_TIME_ROLE('creation_date') ;";
   "#29=CC_DESIGN_DATE_AND_TIME_ASSIGNMENT(#13,#28,(#14)) ;";
   "#30=CC_DESIGN_APPROVAL(#21,(#16,#6,#14)) ;";
   "#31=APPROVAL_PERSON_ORGANIZATION(#25,#21,#19) ;";
   "#32=APPROVAL_DATE_TIME(#13,#21) ;";
   "#33=CC_DESIGN_PERSON_AND_ORGANIZATION_ASSIGNMENT(#25,#34,"
     ++ "(#6)) ;";
   "#34=PERSON_AND_ORGANIZATION_ROLE('design_supplier') ;";
   "#35=CC_DESIGN_PERSON_AND_ORGANIZATION_ASSIGNMENT(#25,#36,"
     ++ "(#6,#14)) ;";
   "#36=PERSON_AND_ORGANIZATION_ROLE('creator') ;";
   "#37=CC_DESIGN_PERSON_AND_ORGANIZATION_ASSIGNMENT(#25,#38,"
     ++ "(#5)) ;";
   "#38=PERSON_AND_ORGANIZATION_ROLE('design_owner') ;";
   "#39=CC_DESIGN_SECURITY_CLASSIFICATION(#16,(#6)) ;";
   "";
   "#40=PRODUCT_DEFINITION_SHAPE(' ',' ',#14) ;";
   "#41=(LENGTH_UNIT()NAMED_UNIT(*)SI_UNIT(.MILLI.,.METRE.)) ;";
   "#42=(NAMED_UNIT(*)PLANE_ANGLE_UNIT()SI_UNIT($,.RADIAN.)) ;";
   "#43=(NAMED_UNIT(*)SI_UNIT($,.STERADIAN.)SOLID_ANGLE_UNIT()) ;";
   "#44=UNCERTAINTY_MEASURE_WITH_UNIT(LENGTH_MEASURE(0.005),#41,"
     ++ "'distance_accuracy_value','CONFUSED CURVE"
     ++ " UNCERTAINTY') ;";
   "#45=(GEOMETRIC_REPRESENTATION_CONTEXT(3)"
     ++ "GLOBAL_UNCERTAINTY_ASSIGNED_CONTEXT((#44))"
     ++ "GLOBAL_UNIT_ASSIGNED_CONTEXT((#41,#42,#43))"
     ++ "REPRESENTATION_CONTEXT(' ',' ')) ;";
   "";
   "#46=CARTESIAN_POINT(' ',(0.,0.,0.)) ;";
   "#47=AXIS2_PLACEMENT_3D(' ',#46,$,$) ;";
   "#48=SHAPE_REPRESENTATION(' ',(#47),#45) ;";
   "#49=SHAPE_DEFINITION_REPRESENTATION(#40,#48) ;";
   "";
   "/* Part Specification */";
   "";
   "ENDSEC;";
   "END-ISO-10303-21;"].

Definition scaffold (file_out_name : string) (d : datetime) : list string :=
  map (fun i => i ++ nl) (scaffold_lines file_out_name d).

(** [l.index(x)]. *)
Fixpoint list_index (x : string) (l : list string) : result nat :=
  match l with
  | [] => Raise ValueError
  | y :: l' => if String.eqb y x then Ok O else n <~ list_index x l' ;; Ok (S n)
  end.

(** [sorted(l, key=line_index)]: the keys are computed first, and lines with
    equal keys keep their order. *)
Fixpoint insert_by_key (x : Z * string) (l : list (Z * string)) : list (Z * string) :=
  match l with
  | [] => [x]
  | y :: l' => if fst x <? fst y then x :: l else y :: insert_by_key x l'
  end.

Definition sorted_by_line_index (l : list string) : result (list string) :=
  keys <~ mapR line_index l ;;
  Ok (map snd (fold_left (fun acc x => insert_by_key x acc) (combine keys l) [])).

Definition highest_index (files : list string) : result Z :=
  let initial_work_array := filter (starts_with "#") files in
  sorted <~ sorted_by_line_index initial_work_array ;;
  top <~ index_last sorted ;;
  line_index top.

(** The interpreter state before the module body has run. *)
Definition blank : state := mkState [] O [] 0 0 None.

(** "Initializing STEP file data": the assignments between the reading of
    the input and the call of [generate_assembly]. *)
Definition initialize (file_out_name : string) (d : datetime) : M unit :=
  fun s =>
    let files := scaffold file_out_name d in
    match list_index ("/* Part Specification */" ++ nl) files with
    | Raise e => (Raise e, s)
    | Ok i =>
        match highest_index files with
        | Raise e => (Raise e, s)
        | Ok h => (Ok tt, mkState files i [] (h + 1) 1 (file_out s))
        end
    end.

(** The module body from the point where [data] has been read. *)
Definition main {num : Type} `{PyNumber num} `{FileSystem} (file_out_name : string)
    (d : datetime) (data : pyval num) : M unit :=
  match data with
  | VList [in_array; in_depth; in_coeff] =>
      _ <- initialize file_out_name d ;;
      generate_assembly in_array in_depth in_coeff
  | _ => lift exit
  end.

(** ** Python's [int] and [float] *)

(** An [int] is an integer of any size; a [float] is an IEEE 754 binary64
    value.  Arithmetic between two ints stays in the integers; any other
    pair is computed in binary64 after converting the int, which raises
    [OverflowError] when the int is beyond the binary64 range.  Where the
    numbers come from the input (the winding sum, [sum], the scaling and
    the square root) the conversion is tested, with [mixes] and
    [converts]; the vector operations of the builders, which the program
    applies to scaled coordinates, that is floats, and to the ints 0, 1
    and -1, compute with the infinity that the conversion gives here.
    Not covered: the quotient of two ints beyond 2 ^ 53, which Python
    rounds from the exact value; the last bit of [x ** 2] on a float, which
    is the C library's [pow] and is taken here to be the correctly rounded
    product; the compensated summation that [sum] applies to floats from
    Python 3.12 on; and the limit of 4300 digits that [str] and [int] put
    on an int from Python 3.11 on. *)
Inductive pynum : Type :=
| PyInt (z : Z)
| PyFloat (f : float).

Definition float_of_int (z : Z) : float :=
  SF2Prim (binary_normalize prec emax z 0 false).

Definition to_float (a : pynum) : float :=
  match a with
  | PyInt z => float_of_int z
  | PyFloat f => f
  end.

Definition py_arith (on_int : Z -> Z -> Z) (on_float : float -> float -> float)
    (a b : pynum) : pynum :=
  match a, b with
  | PyInt x, PyInt y => PyInt (on_int x y)
  | _, _ => PyFloat (on_float (to_float a) (to_float b))
  end.

Definition py_neg (a : pynum) : pynum :=
  match a with
  | PyInt x => PyInt (- x)
  | PyFloat f => PyFloat (PrimFloat.opp f)
  end.

Definition py_div (a b : pynum) : pynum :=
  PyFloat (PrimFloat.div (to_float a) (to_float b)).

Definition py_sq (a : pynum) : result pynum :=
  match a with
  | PyInt x => Ok (PyInt (x * x))
  | PyFloat f =>
      let r := PrimFloat.mul f f in
      if PrimFloat.is_finite f && PrimFloat.is_infinity r
      then Raise OverflowError else Ok (PyFloat r)
  end.

(** [float(a)] succeeds: an int beyond the range of the floats, one that
    the rounding takes to an infinity, raises [OverflowError]. *)
Definition py_converts (a : pynum) : bool :=
  match a with
  | PyInt z => negb (PrimFloat.is_infinity (float_of_int z))
  | PyFloat _ => true
  end.

Definition py_is_float (a : pynum) : bool :=
  match a with
  | PyInt _ => false
  | PyFloat _ => true
  end.

Definition py_sqrt (a : pynum) : result pynum :=
  if negb (py_converts a) then Raise OverflowError
  else
    let f := to_float a in
    if PrimFloat.ltb f PrimFloat.zero then Raise ValueError
    else Ok (PyFloat (PrimFloat.sqrt f)).

(** The order between an int and a float is that of their exact values;
    [None] when the float is a NaN. *)
Definition compare_int_float (z : Z) (f : float) : option comparison :=
  match Prim2SF f with
  | S754_zero _ => Some (z ?= 0)
  | S754_infinity false => Some Lt
  | S754_infinity true => Some Gt
  | S754_nan => None
  | S754_finite sg m e =>
      let v := if sg then Z.neg m else Z.pos m in
      if 0 <=? e then Some (z ?= v * 2 ^ e) else Some (z * 2 ^ (- e) ?= v)
  end.

Definition py_compare (a b : pynum) : option comparison :=
  match a, b with
  | PyInt x, PyInt y => Some (x ?= y)
  | PyInt x, PyFloat g => compare_int_float x g
  | PyFloat f, PyInt y => option_map CompOpp (compare_int_float y f)
  | PyFloat f, PyFloat g =>
      if PrimFloat.eqb f g then Some Eq
      else if PrimFloat.ltb f g then Some Lt
      else if PrimFloat.ltb g f then Some Gt
      else None
  end.

Definition py_eqb (a b : pynum) : bool :=
  match py_compare a b with
  | Some Eq => true
  | _ => false
  end.

Definition py_gtb (a b : pynum) : bool :=
  match py_compare a b with
  | Some Gt => true
  | _ => false
  end.

(** *** [str] of a float

    [repr] writes the shortest decimal numeral that reads back as the same
    binary64 value, the nearest to it when several are that short, in
    positional notation while the decimal point falls within the first
    sixteen places and in exponent notation otherwise. *)

(** The exact value [m * 2 ^ e]. *)
Definition dyadic (m e : Z) : Q :=
  if 0 <=? e then inject_Z (m * 2 ^ e) else Qmake m (Z.to_pos (2 ^ (- e))).

Definition pow10 (k : Z) : Q :=
  if 0 <=? k then inject_Z (10 ^ k) else Qmake 1 (Z.to_pos (10 ^ (- k))).

Fixpoint raise_exponent (fuel : nat) (v : Q) (k : Z) : Z :=
  match fuel with
  | O => k
  | S fuel' => if Qle_bool (pow10 (k + 1)) v then raise_exponent fuel' v (k + 1) else k
  end.

(** The [k] with [10 ^ k <= m * 2 ^ e < 10 ^ (k + 1)]. *)
Definition decimal_exponent (m e : Z) : Z :=
  raise_exponent 4 (dyadic m e) ((Z.log2 m + e) * 30103 / 100000 - 1).

Definition Qltb (a b : Q) : bool := negb (Qle_bool b a).

(** Does the numeral [c] read back as [m * 2 ^ e]?  The bounds are the
    midpoints to the neighbouring floats, included when [m] is even. *)
Definition rounds_back (m e : Z) (c : Q) : bool :=
  let v := dyadic m e in
  let up := dyadic 1 (e - 1) in
  let down := if (m =? 2 ^ 52) && negb (e =? -1074) then dyadic 1 (e - 2) else up in
  let lo := Qminus v down in
  let hi := Qplus v up in
  if Z.even m then Qle_bool lo c && Qle_bool c hi else Qltb lo c && Qltb c hi.

Definition Qdist (a b : Q) : Q := Qabs (Qminus a b).

(** The digits [d] and exponent [k] of the numeral [d * 10 ^ k], trying
    one significant digit, then two, up to seventeen. *)
Fixpoint shortest_digits (fuel : nat) (n : Z) (m e k0 : Z) : Z * Z :=
  let v := dyadic m e in
  let k := k0 - n + 1 in
  let low := Qfloor (Qdiv v (pow10 k)) in
  let high := low + 1 in
  let lowc := Qmult (inject_Z low) (pow10 k) in
  let highc := Qmult (inject_Z high) (pow10 k) in
  match fuel with
  | O => (low, k)
  | S fuel' =>
      match rounds_back m e lowc, rounds_back m e highc with
      | true, true =>
          if Qltb (Qdist lowc v) (Qdist highc v) then (low, k)
          else if Qltb (Qdist highc v) (Qdist lowc v) then (high, k)
          else if Z.even low then (low, k) else (high, k)
      | true, false => (low, k)
      | false, true => (high, k)
      | false, false => shortest_digits fuel' (n + 1) m e k0
      end
  end.

Fixpoint strip_zeros (fuel : nat) (d k : Z) : Z * Z :=
  match fuel with
  | O => (d, k)
  | S fuel' => if (d mod 10 =? 0) && negb (d =? 0) then strip_zeros fuel' (d / 10) (k + 1) else (d, k)
  end.

Fixpoint zeros (n : nat) : string :=
  match n with
  | O => ""
  | S n' => "0" ++ zeros n'
  end.

Definition format_digits (digits : string) (decpt : Z) : string :=
  let n := Z.of_nat (String.length digits) in
  if (decpt <=? -4) || (16 <? decpt) then
    let x := decpt - 1 in
    let mant := match digits with
                | String c EmptyString => digits
                | String c rest => String c ("." ++ rest)
                | EmptyString => digits
                end in
    let ex := str_int (Z.abs x) in
    mant ++ "e" ++ (if x <? 0 then "-" else "+")
         ++ (if Z.abs x <? 10 then "0" ++ ex else ex)
  else if decpt <=? 0 then "0." ++ zeros (Z.to_nat (- decpt)) ++ digits
  else if n <=? decpt then digits ++ zeros (Z.to_nat (decpt - n)) ++ ".0"
  else substring 0 (Z.to_nat decpt) digits ++ "."
       ++ substring (Z.to_nat decpt) (Z.to_nat (n - decpt)) digits.

Definition float_repr (f : float) : string :=
  match Prim2SF f with
  | S754_zero false => "0.0"
  | S754_zero true => "-0.0"
  | S754_infinity false => "inf"
  | S754_infinity true => "-inf"
  | S754_nan => "nan"
  | S754_finite sg m e =>
      let k0 := decimal_exponent (Z.pos m) e in
      let dk := shortest_digits 17 1 (Z.pos m) e k0 in
      let dk' := strip_zeros 400 (fst dk) (snd dk) in
      let digits := str_int (fst dk') in
      (if sg then "-" else "")
      ++ format_digits digits (snd dk' + Z.of_nat (String.length digits))
  end.

Definition py_str (a : pynum) : string :=
  match a with
  | PyInt z => str_int z
  | PyFloat f => float_repr f
  end.

#[export] Instance pynum_number : PyNumber pynum := {
  of_int := PyInt;
  float_one := PyFloat PrimFloat.one;
  converts := py_converts;
  is_float := py_is_float;
  num_add := py_arith Z.add PrimFloat.add;
  num_sub := py_arith Z.sub PrimFloat.sub;
  num_mul := py_arith Z.mul PrimFloat.mul;
  num_neg := py_neg;
  num_div := py_div;
  num_sq := py_sq;
  num_sqrt := py_sqrt;
  num_eqb := py_eqb;
  num_gtb := py_gtb;
  num_str := py_str
}.

(** ** Vocabulary of the statements *)

(** The line that [new_item] stores for a record. *)
Definition record_line (i : Z) (text : string) : string :=
  "#" ++ str_int i ++ "=" ++ text.

(** The state after [new_item] has stored [text] as a new record. *)
Definition stored (text : string) (s : state) : state :=
  mkState (file_array s) (index1 s)
          (work_array s ++ [record_line (current_index s) text])%list
          (current_index s + 1) (part_body_index s) (file_out s).

(** [s2] is [s1] later in the same run: records are only ever appended. *)
Definition later (s1 s2 : state) : Prop :=
  exists more, work_array s2 = (work_array s1 ++ more)%list.

(** [preserves P m]: running [m] keeps [P], whether it returns or raises. *)
Definition preserves {A : Type} (P : state -> Prop) (m : M A) : Prop :=
  forall s, P s -> P (snd (m s)).

(** [first; first + 1; ...], [n] of them. *)
Definition ids_from (first : Z) (n : nat) : list Z :=
  map (fun i => first + Z.of_nat i) (seq 0 n).

(** The records of [s] carry the ids [first, first + 1, ...] in the order
    in which they were stored, and the counter is one past the last. *)
Definition numbered_from (first : Z) (s : state) : Prop :=
  map line_index (work_array s) = map Ok (ids_from first (List.length (work_array s)))
  /\ current_index s = first + Z.of_nat (List.length (work_array s)).

(** The store of [s] has a line that ends with the text [t] and carries
    the id [i]. *)
Definition stored_as (t : string) (i : Z) (s : state) : Prop :=
  exists line, In line (work_array s)
               /\ ends_with t line = true /\ line_index line = Ok i.

(** From [s] to [s'] the store is the same, or has the one line [line]
    more at its end. *)
Definition adds_at_most (line : string) (s s' : state) : Prop :=
  work_array s' = work_array s \/ work_array s' = (work_array s ++ [line])%list.

(** The record texts of a face on the bound [bound] in the plane [plane],
    of the shell around the faces [faces], and of the solid named
    [PartBody.n] over the shell [shell]. *)
Definition face_text (bound plane : Z) : string :=
  "ADVANCED_FACE('PartBody',(#" ++ str_int bound ++ "),#" ++ str_int plane
  ++ ",.T.) ;" ++ nl.

Definition shell_text (faces : list Z) : string :=
  "CLOSED_SHELL('Closed Shell',("
  ++ String.concat "," (map (fun j => "#" ++ str_int j) faces)
  ++ ")) ;" ++ nl.

Definition solid_text (n shell : Z) : string :=
  "MANIFOLD_SOLID_BREP('PartBody." ++ str_int n ++ "',#" ++ str_int shell
  ++ ") ;" ++ nl.

(** A store that was built line by line, each line written in the form of
    [new_item] and for a text that ended none of the lines before it. *)
Inductive fresh_store : list string -> Prop :=
| fresh_nil : fresh_store []
| fresh_snoc (w : list string) (i : Z) (t : string) :
    fresh_store w -> matches t w = [] ->
    fresh_store (w ++ [record_line i t])%list.

(** ** Sample inputs *)

Definition int (z : Z) : pyval pynum := VNum (PyInt z).

Definition xy (x y : Z) : pyval pynum := VList [int x; int y].

(** The polygon [[0,0],[1,0],[1,1],[0,1]]. *)
Definition unit_square : pyval pynum :=
  VList [xy 0 0; xy 1 0; xy 1 1; xy 0 1].

(** The input [[[[0,0],[1,0],[1,1],[0,1]]], [0,2], 10]. *)
Definition square_input : pyval pynum :=
  VList [VList [unit_square]; VList [int 0; int 2]; int 10].

Definition a_date : datetime := mkDatetime 2017 2 3 12 30 0.

(** The state in which [generate_assembly] starts. *)
Definition started : state :=
  mkState (scaffold "part_out.stp" a_date) 62 [] 50 1 None.

(** The store after the first record, a plane on the placement 7. *)
Definition with_plane : state :=
  snd (new_item ("PLANE('',#7) ;" ++ nl) started).

Definition flt (z : Z) : pynum := PyFloat (float_of_int z).

(** Three points of the line y = x + 0.1, as floats: [[0.3, 0.4],
    [1.0, 1.1], [0.8, 0.9]]. *)
Definition near_line : list (list pynum) :=
  [[PyFloat 0x1.3333333333333p-2; PyFloat 0x1.999999999999ap-2];
   [PyFloat 0x1p+0; PyFloat 0x1.199999999999ap+0];
   [PyFloat 0x1.999999999999ap-1; PyFloat 0x1.ccccccccccccdp-1]].

(** Three file systems: one that opens the file and takes every item, one
    whose encoding is ASCII, so that an item with a character beyond 127 is
    refused, and one in which the file cannot be opened. *)
Definition takes_all : FileSystem :=
  {| fs_open := Ok tt; fs_write := fun _ _ => Ok tt |}.

Definition ascii_only : FileSystem :=
  {| fs_open := Ok tt;
     fs_write := fun _ item =>
       if forallb (fun c => (nat_of_ascii c <? 128)%nat) (list_ascii_of_string item)
       then Ok tt else Raise UnicodeEncodeError |}.

Definition no_directory : FileSystem :=
  {| fs_open := Raise OSError; fs_write := fun _ _ => Ok tt |}.

(** A file name with a letter beyond ASCII, an e with an acute accent. *)
Definition accented_name : string := String (ascii_of_nat 233) "tude.stp".

(** The runs on sample inputs are in the first of them, unless another is
    named; a statement about every run names none and is about every file
    system. *)
#[export] Existing Instance takes_all | 100.

(** ** The specification's wording, for comparison *)

Section Wording.

Context {num : Type} `{PyNumber num} `{FileSystem}.

(** A planar face whose loop runs through [loop] and whose frame has the
    first element of [origin_from] for origin, the normalized [zaxis] for
    normal and the normalized step from the first to the second element of
    [loop] for reference direction. *)
Definition face_on (loop origin_from : list vec) (zaxis : vec)
    (same_sense_1 same_sense_2 : sense) : M Z :=
  fob <- edge_loop_1 loop same_sense_1 ;;
  frame <- lift (o <~ index origin_from 0 ;;
                 nz <~ normalize zaxis ;;
                 l1 <~ index loop 1 ;;
                 l0 <~ index loop 0 ;;
                 nx <~ normalize (vsub l1 l0) ;;
                 Ok (o, nz, nx)) ;;
  a <- axis2_placement_3d (fst (fst frame)) (snd (fst frame)) (snd frame) ;;
  pl <- plane a ;;
  advanced_face (OneId fob) pl same_sense_2.

(** The specification's test in [planarFace]: the normal
    [cross(v2 - v1, v3 - v1)] of the first three vertices points opposite to
    the hint. *)
Definition opposite_to_hint (vertices : list vec) (normalHint : vec) : result bool :=
  nz <~ normalize normalHint ;;
  v1 <~ index vertices 0 ;; v2 <~ index vertices 1 ;; v3 <~ index vertices 2 ;;
  c <~ cross_product (vsub v2 v1) (vsub v3 v1) ;;
  n <~ normalize c ;;
  Ok (py_list_eqb (vadd nz n) [of_int 0; of_int 0; of_int 0]).

(** [planarFace] as the specification words it: reversed exactly when the
    normal is opposite to the hint, with the frame taken from the order that
    results. *)
Definition planarFace_spec (vertices : list vec) (normalHint : vec)
    (same_sense_1 same_sense_2 : sense) : M Z :=
  opposite <- lift (opposite_to_hint vertices normalHint) ;;
  let order := if opposite : bool then rev vertices else vertices in
  face_on order order normalHint same_sense_1 same_sense_2.

(** The specification's sum of [ensureClockwise]: each vertex with the one
    that follows it, [(x_{i+1} - x_i) * (y_{i+1} + y_i)]. *)
Definition cyclic_sum_spec (vertices : list vec) : result num :=
  terms <~ mapR (fun p => winding_term (fst p) (snd p))
                (combine vertices (rotate vertices (-1))) ;;
  py_sum terms.

Definition ensureClockwise_spec (vertices : list vec) : result (list vec) :=
  s <~ cyclic_sum_spec vertices ;;
  if num_eqb s (of_int 0) then Raise SystemExit
  else if num_gtb s (of_int 0) then Ok (rev vertices)
  else Ok vertices.

(** The sum as the code takes it, in the words of the statement about it:
    for each place [i] of the list, from the first to the last, the vertex
    at [i] with the vertex at the place before it, the first with the last,
    [(x_{i-1} - x_i) * (y_{i-1} + y_i)], added up from the int 0. *)
Definition predecessor_term (vertices : list vec) (i : nat) : result num :=
  let n := List.length vertices in
  match nth_error vertices i, nth_error vertices ((i + n - 1) mod n) with
  | Some v, Some before => winding_term v before
  | _, _ => Raise IndexError
  end.

Definition predecessor_sum (vertices : list vec) : result num :=
  terms <~ mapR (predecessor_term vertices) (seq 0 (List.length vertices)) ;;
  py_sum terms.

End Wording.

(** The lines of a store in which the text [kind] occurs. *)
Definition records_of (kind : string) (s : state) : list string :=
  filter (fun l => match String.index 0 kind l with
                   | Some _ => true
                   | None => false
                   end)
         (work_array s).

(** A clockwise triangle in the plane z = 0, and two hints. *)
Definition triangle : list (list pynum) :=
  [[flt 0; flt 0; flt 0]; [flt 10; flt 10; flt 0]; [flt 10; flt 0; flt 0]].

Definition upwards : list pynum := [PyInt 0; PyInt 0; PyInt 1].

Definition eastwards : list pynum := [PyInt 1; PyInt 0; PyInt 0].

(** *** Polygons with int coordinates *)

Definition ints (v : list Z) : list pynum := map PyInt v.

Definition int_polygon (p : list (list Z)) : list (list pynum) := map ints p.

Definition vx (v : list Z) : Z := nth 0 v 0.

Definition vy (v : list Z) : Z := nth 1 v 0.

Definition Zsum (l : list Z) : Z := fold_right Z.add 0 l.

(** The sum of [g a b] over the pairs of neighbours of the list [x :: t]. *)
Fixpoint chain {A : Type} (g : A -> A -> Z) (x : A) (t : list A) : Z :=
  match t with
  | [] => 0
  | y :: t' => g x y + chain g y t'
  end.

(** The specification's summand on ints, for a vertex [a] and the next
    vertex [b]. *)
Definition shoelace_term (a b : list Z) : Z := (vx b - vx a) * (vy b + vy a).

(** The specification's sum on ints. *)
Definition cyclic_sum (p : list (list Z)) : Z :=
  Zsum (map (fun ab => shoelace_term (fst ab) (snd ab)) (combine p (rotate p (-1)))).

(** Twice the signed area of the polygon, by the surveyor's formula: the sum
    of [x_i * y_{i+1} - x_{i+1} * y_i] over the edges.  It is positive for a
    counter-clockwise polygon and negative for a clockwise one. *)
Definition area_term (a b : list Z) : Z := vx a * vy b - vx b * vy a.

Definition signed_area2 (p : list (list Z)) : Z :=
  Zsum (map (fun ab => area_term (fst ab) (snd ab)) (combine p (rotate p (-1)))).

(** Every vertex has an x and a y. *)
Definition planar (p : list (list Z)) : Prop :=
  Forall (fun v => (2 <= List.length v)%nat) p.

(** *** Extrusion, interval and rejected inputs *)

Section Pipeline.

Context {num : Type} `{PyNumber num} `{FileSystem}.

(** How [generate_part] builds a solid, and what the store holds when it
    has returned: the top face, the bottom face and one side face for each
    vertex and the vertex after it, each id the id of a stored
    ADVANCED_FACE line; one CLOSED_SHELL line that lists these ids in this
    order; and one MANIFOLD_SOLID_BREP line, under the id returned, that
    names the part and refers to the shell.  The shell and the solid each
    add at most their one line to the store: none when a line with that
    text was there before. *)
Definition extruded (vertex_list : list vec) (geom_depth_list : list num)
    (s : state) (solid : Z) (s' : state) : Prop :=
  exists z_min z_max top bottom sides shell s1 s2 s3 s4,
    index geom_depth_list 0 = Ok z_min
    /\ index geom_depth_list 1 = Ok z_max
    /\ xyface vertex_list z_max [of_int 0; of_int 0; of_int 1] s = (Ok top, s1)
    /\ xyface vertex_list z_min [of_int 0; of_int 0; of_int (-1)] s1 = (Ok bottom, s2)
    /\ mapM (fun p => zface (fst p) (snd p) geom_depth_list)
            (combine vertex_list (rotate vertex_list (-1))) s2 = (Ok sides, s3)
    /\ List.length sides = List.length vertex_list
    /\ List.length (top :: bottom :: sides) = (List.length vertex_list + 2)%nat
    /\ closed_shell (top :: bottom :: sides) s3 = (Ok shell, s4)
    /\ manifold_solid_brep shell s4 = (Ok solid, s')
    /\ Forall (fun f => exists bound plane, stored_as (face_text bound plane) f s')
               (top :: bottom :: sides)
    /\ stored_as (shell_text (top :: bottom :: sides)) shell s'
    /\ stored_as (solid_text (part_body_index s) shell) solid s'
    /\ adds_at_most (record_line shell (shell_text (top :: bottom :: sides))) s3 s4
    /\ adds_at_most (record_line solid (solid_text (part_body_index s) shell)) s4 s'.

(** What the checks of [generate_assembly] rely on when they compare the
    two bounds of the interval. *)
Class PyOrder : Prop := {
  gtb_not_eqb : forall a b : num, num_gtb a b = true -> num_eqb a b = false;
  gtb_not_eqb_sym : forall a b : num, num_gtb a b = true -> num_eqb b a = false;
  gtb_asym : forall a b : num, num_gtb a b = true -> num_gtb b a = false
}.

(** Everything [generate_assembly] does before it builds the first record:
    the result is the scaled polygons and the scaled interval. *)
Definition checks (list_vert_list geom_depth_list p_coeff : pyval num)
    : result (list (list vec) * list num) :=
  k <~ check_coefficient p_coeff ;;
  depths <~ check_interval geom_depth_list ;;
  polys <~ check_polygons list_vert_list ;;
  polys3 <~ mapR (mapR (fun v => coords_of (convert_3d v))) polys ;;
  cw <~ mapR (fun x : list vec => convert_to_clockwise x) polys3 ;;
  scaled <~ mapR (fun part => mapR (mapR (scale k)) (elements part)) cw ;;
  depths' <~ mapR (scale k) depths ;;
  Ok (scaled, depths').

Definition is_number (v : pyval num) : bool :=
  match v with
  | VNum _ => true
  | _ => false
  end.

(** The entries of a list or of a tuple. *)
Definition components (v : pyval num) : option (list (pyval num)) :=
  match v with
  | VList l | VTuple l => Some l
  | _ => None
  end.

(** The inputs that the specification lists as failing a check. *)
Inductive rejected : pyval num -> Prop :=
| rejected_top (data : pyval num) :
    (forall a b c, data <> VList [a; b; c]) -> rejected data
| rejected_polygons_shape (polys interval k : pyval num) :
    (forall l, polys <> VList l) -> rejected (VList [polys; interval; k])
| rejected_polygon_shape (ps : list (pyval num)) (p interval k : pyval num) :
    In p ps -> (forall l, p <> VList l) ->
    rejected (VList [VList ps; interval; k])
| rejected_vertex_shape (ps vs : list (pyval num)) (v interval k : pyval num) :
    In (VList vs) ps -> In v vs -> components v = None ->
    rejected (VList [VList ps; interval; k])
| rejected_interval_shape (polys interval k : pyval num) :
    (forall l, interval <> VList l) -> rejected (VList [polys; interval; k])
| rejected_no_polygon (interval k : pyval num) :
    rejected (VList [VList []; interval; k])
| rejected_empty_polygon (ps : list (pyval num)) (interval k : pyval num) :
    In (VList []) ps -> rejected (VList [VList ps; interval; k])
| rejected_empty_vertex (ps vs : list (pyval num)) (v interval k : pyval num) :
    In (VList vs) ps -> In v vs -> components v = Some [] ->
    rejected (VList [VList ps; interval; k])
| rejected_coordinate (ps vs cs : list (pyval num)) (v c interval k : pyval num) :
    In (VList vs) ps -> In v vs -> components v = Some cs ->
    In c cs -> is_number c = false ->
    rejected (VList [VList ps; interval; k])
| rejected_bound (polys : pyval num) (l : list (pyval num)) (b k : pyval num) :
    In b l -> is_number b = false -> rejected (VList [polys; VList l; k])
| rejected_coefficient (polys interval k : pyval num) :
    is_number k = false -> rejected (VList [polys; interval; k])
| rejected_dimension (ps vs cs : list (pyval num)) (v interval k : pyval num) :
    In (VList vs) ps -> In v vs -> components v = Some cs ->
    (List.length cs < 2 \/ 3 < List.length cs)%nat ->
    rejected (VList [VList ps; interval; k])
| rejected_equal_bounds (polys : pyval num) (z1 z2 : num)
    (more : list (pyval num)) (k : pyval num) :
    num_eqb z1 z2 = true ->
    rejected (VList [polys; VList (VNum z1 :: VNum z2 :: more); k])
| rejected_zero_coefficient (polys interval : pyval num) (k : num) :
    num_eqb k (of_int 0) = true -> rejected (VList [polys; interval; VNum k])
| rejected_zero_area (ps vs : list (pyval num)) (p3 : list vec) (area : num)
    (interval k : pyval num) :
    In (VList vs) ps ->
    mapR (fun v => coords_of (convert_3d v)) vs = Ok p3 ->
    pol_sum p3 = Ok area -> num_eqb area (of_int 0) = true ->
    rejected (VList [VList ps; interval; k]).

End Pipeline.

Arguments PyOrder num {_}.

(** The unit square after [convert_to_clockwise] and the scaling by 10, and
    the interval [[0, 2]] after the scaling. *)
Definition square_scaled : list (list pynum) :=
  [[flt 0; flt 10; flt 0]; [flt 10; flt 10; flt 0];
   [flt 10; flt 0; flt 0]; [flt 0; flt 0; flt 0]].

Definition depths_scaled : list pynum := [flt 0; flt 20].

(** The turn at the vertex [b] on the way from [a] to [c]: negative when the
    way bends to the right. *)
Definition turn (a b c : list Z) : Z :=
  (vx b - vx a) * (vy c - vy b) - (vy b - vy a) * (vx c - vx b).

(** The way around the polygon bends to the right at every vertex, as it
    does around a convex polygon that is listed clockwise and has no three
    successive vertices on a line. *)
Definition turns_right (p : list (list Z)) : bool :=
  forallb (fun abc => turn (fst (fst abc)) (snd (fst abc)) (snd abc) <? 0)
          (combine (combine p (rotate p (-1))) (rotate p (-2))).

(** The input [[[p], [z1, z2], k]] for a polygon and numbers that are ints. *)
Definition polygon_input (p : list (list Z)) (z1 z2 k : Z) : pyval pynum :=
  VList [VList [VList (map (fun v => VList (map int v)) p)];
         VList [int z1; int z2]; int k].

(** The way around the polygon bends to the left at no vertex, as around
    every convex polygon that is listed clockwise. *)
Definition turns_left_nowhere (p : list (list Z)) : bool :=
  forallb (fun abc => turn (fst (fst abc)) (snd (fst abc)) (snd abc) <=? 0)
          (combine (combine p (rotate p (-1))) (rotate p (-2))).

(** The square with the corners (0, 0), (0, 2), (2, 2) and (2, 0), listed
    clockwise with the middle (0, 1) of its first side; a parallelogram
    with the corners (2^53, 0), (2^53 + 1, 1), (2^53 + 1, 0) and
    (2^53, -1); and a triangle that is listed twice. *)
Definition square_with_midpoint : list (list Z) :=
  [[0; 0]; [0; 1]; [0; 2]; [2; 2]; [2; 0]].

Definition far_parallelogram : list (list Z) :=
  [[2 ^ 53; 0]; [2 ^ 53 + 1; 1]; [2 ^ 53 + 1; 0]; [2 ^ 53; -1]].

Definition triangle_twice : list (list Z) :=
  [[0; 0]; [0; 1]; [1; 0]; [0; 0]; [0; 1]; [1; 0]].

(** ** Vocabulary of the further properties *)

(** What follows the first [=] of a line. *)
Fixpoint payload (line : string) : string :=
  match line with
  | EmptyString => EmptyString
  | String c s => if Ascii.eqb c "=" then s else payload s
  end.

(** The scaffold is kept as it was set up. *)
Definition same_scaffold (s s' : state) : Prop :=
  file_array s' = file_array s /\ index1 s' = index1 s.

(** [ends P Q R m]: from a state with [P], a run of [m] that returns ends
    with [Q], and one that raises [e] ends with [R e]. *)
Definition ends {A : Type} (P Q : state -> Prop) (R : exn -> state -> Prop)
    (m : M A) : Prop :=
  forall s, P s ->
    match fst (m s) with
    | Ok _ => Q (snd (m s))
    | Raise e => R e (snd (m s))
    end.

(** The output of [s] over the scaffold [files] with its marker at [i]:
    the lines before the marker, the records, the lines after the marker. *)
Definition output_of (files : list string) (i : nat) (s : state) : list string :=
  (firstn i files ++ work_array s ++ skipn (i + 1) files)%list.

(** The file of a run that raised [e]: none, or, when the file system
    refused an item of the output with [e], the items before that one. *)
Definition cut_short `{FileSystem} (files : list string) (i : nat) (e : exn)
    (s : state) : Prop :=
  file_out s = None
  \/ exists written item rest,
       output_of files i s = (written ++ item :: rest)%list
       /\ file_out s = Some written
       /\ fs_write written item = Raise e.

(** Nothing written so far, over the scaffold [files] with its marker at [i]. *)
Definition unwritten (files : list string) (i : nat) (s : state) : Prop :=
  file_out s = None /\ file_array s = files /\ index1 s = i.

(** [s'] continues [s]: the records of [s] are still there, in place, the
    records after them are as many as the counter has moved, and the
    scaffold is the same. *)
Definition continues (s s' : state) : Prop :=
  (exists more, work_array s' = (work_array s ++ more)%list
                /\ current_index s' = current_index s + Z.of_nat (List.length more))
  /\ same_scaffold s s'.

(** [stable m]: [m] answers from the store.  A call that returned [a] has
    only added records, and from then on a call returns [a] again and
    stores nothing. *)
Definition stable {A : Type} (m : M A) : Prop :=
  forall s s1 a, m s = (Ok a, s1) ->
    later s s1 /\ forall s2, later s1 s2 -> m s2 = (Ok a, s2).

(** A vertex given as a tuple of two numbers. *)
Definition pair_vertex {num : Type} (p : num * num) : pyval num :=
  VTuple [VNum (fst p); VNum (snd p)].

(** A vertex as the checks accept it: a list or a tuple of two or three
    numbers. *)
Definition vertex_shaped {num : Type} `{PyNumber num} (v : pyval num) : Prop :=
  exists cs, components v = Some cs
             /\ (2 <= List.length cs <= 3)%nat
             /\ Forall (fun c => is_number c = true) cs.

(** Every vertex has fewer than three coordinates. *)
Definition flat {num : Type} (vs : list (list num)) : Prop :=
  Forall (fun v => (List.length v < 3)%nat) vs.

(** Keys in ascending order, as [sorted] leaves them. *)
Fixpoint ascending (l : list (Z * string)) : Prop :=
  match l with
  | [] => True
  | x :: l' => (forall y, In y l' -> fst x <= fst y) /\ ascending l'
  end.

(** The vertex [v] is on the line through [(x0, y0)] with the direction
    [(dx, dy)]. *)
Definition on_line (x0 y0 dx dy : Z) (v : list Z) : Prop :=
  (vx v - x0) * dy = (vy v - y0) * dx.

(** The store of [s] has a line that ends with [t]. *)
Definition holds (t : string) (s : state) : Prop :=
  exists line, In line (work_array s) /\ ends_with t line = true.

(** The line of the scaffold that the records replace. *)
Definition marker : string := "/* Part Specification */" ++ nl.

(** Two states with the same records and the same two counters; the
    scaffold and the written file may differ. *)
Definition agree (s1 s2 : state) : Prop :=
  work_array s1 = work_array s2
  /\ current_index s1 = current_index s2
  /\ part_body_index s1 = part_body_index s2.

(** [blind m]: [m] does not look at the scaffold.  From states that agree
    it gives the same result and ends in states that agree. *)
Definition blind {A : Type} (m : M A) : Prop :=
  forall s1 s2, agree s1 s2 ->
    fst (m s1) = fst (m s2) /\ agree (snd (m s1)) (snd (m s2)).

(** [alike R m1 m2]: from states that agree, [m1] and [m2] give results
    that [R] relates and end in states that agree. *)
Definition alike {A : Type} (R : result A -> result A -> Prop) (m1 m2 : M A)
    : Prop :=
  forall s1 s2, agree s1 s2 ->
    R (fst (m1 s1)) (fst (m2 s2)) /\ agree (snd (m1 s1)) (snd (m2 s2)).

(** The run ended with what the file system [F] raised, at the opening of
    the file or at the writing of an item. *)
Definition refused (F : FileSystem) (r : result unit) : Prop :=
  exists e, r = Raise e
            /\ (@fs_open F = Raise e
                \/ exists written item, @fs_write F written item = Raise e).

(** Two results that are the same, unless a file system refused. *)
Definition same_unless_refused (F1 F2 : FileSystem) (r1 r2 : result unit) : Prop :=
  r1 = r2 \/ refused F1 r1 \/ refused F2 r2.

(** The record text that lists the solids [parts] of the assembly, and the
    text of the record that ties the list [a] to the scaffold. *)
Definition assembly_text (parts : list Z) : string :=
  "ADVANCED_BREP_SHAPE_REPRESENTATION('NONE',("
  ++ String.concat "," (map (fun j => "#" ++ str_int j) parts)
  ++ "),#" ++ str_int 45 ++ ") ;" ++ nl.

Definition relationship_text (a : Z) : string :=
  "SHAPE_REPRESENTATION_RELATIONSHIP(' ',' ',#" ++ str_int 48 ++ ",#"
  ++ str_int a ++ ") ;" ++ nl.

(** In the store of [s'] the solid named [PartBody.(n + j)] is a line that
    carries the id at place [j] of [parts]. *)
Definition solid_at (n : Z) (parts : list Z) (s' : state) (j : nat) : Prop :=
  exists shell line,
    In line (work_array s')
    /\ ends_with (solid_text (n + Z.of_nat j) shell) line = true
    /\ line_index line = Ok (nth j parts 0).

Unset Implicit Arguments.

(** * Properties *)

(** ** Text *)

Lemma string_eqb_refl (s : string) : String.eqb s s = true.
Proof. apply String.eqb_eq. reflexivity. Qed.

Lemma ends_with_refl (t : string) : ends_with t t = true.
Proof. destruct t; simpl; rewrite ?Ascii.eqb_refl, ?string_eqb_refl; reflexivity. Qed.

Lemma ends_with_cons (t : string) (c : ascii) (s : string) :
  ends_with t (String c s) = if String.eqb (String c s) t then true else ends_with t s.
Proof. reflexivity. Qed.

Section Numerals.

Import DecimalString.

Ltac digit_step :=
  match goal with
  | |- context [digit_of ?c] =>
      let v := eval vm_compute in (digit_of c) in
      change (digit_of c) with v; cbv iota beta
  end.

Lemma digits_from_acc (d : Decimal.uint) (acc : positive) :
  digits_from (Z.pos acc) (NilEmpty.string_of_uint d)
  = Some (Z.pos (Pos.of_uint_acc d acc)).
Proof.
  revert acc. induction d; intro acc; [reflexivity | ..];
    cbn [NilEmpty.string_of_uint digits_from Pos.of_uint_acc];
    digit_step; rewrite <- IHd; f_equal; lia.
Qed.

Lemma digits_from_zero (d : Decimal.uint) :
  digits_from 0 (NilEmpty.string_of_uint d) = Some (Z.of_N (Pos.of_uint d)).
Proof.
  induction d; [reflexivity | ..];
    cbn [NilEmpty.string_of_uint digits_from Pos.of_uint];
    digit_step; [exact IHd | ..];
    match goal with
    | |- digits_from ?z _ = _ =>
        let p := eval vm_compute in z in change z with p
    end; rewrite digits_from_acc; reflexivity.
Qed.

Lemma unsigned_int_numeral (d : Decimal.uint) :
  d <> Decimal.Nil ->
  unsigned_int (NilEmpty.string_of_uint d) = Some (Z.of_uint d).
Proof.
  intro Hd. unfold Z.of_uint.
  destruct d; [contradiction | ..];
    cbn [NilEmpty.string_of_uint unsigned_int Pos.of_uint];
    digit_step; [apply digits_from_zero | ..];
    match goal with
    | |- digits_from ?z _ = _ =>
        let p := eval vm_compute in z in change z with p
    end; rewrite digits_from_acc; reflexivity.
Qed.

Lemma numeral_head (d : Decimal.uint) :
  d <> Decimal.Nil ->
  exists c s, NilEmpty.string_of_uint d = String c s
              /\ digit_of c <> None.
Proof.
  intro Hd. destruct d; [contradiction | ..];
    cbn [NilEmpty.string_of_uint]; eexists _, _; (split; [reflexivity | ]);
    vm_compute; discriminate.
Qed.

Lemma digit_not_special (c : ascii) :
  digit_of c <> None ->
  is_space c = false /\ Ascii.eqb c "-" = false /\ Ascii.eqb c "+" = false
  /\ Ascii.eqb c "=" = false /\ Ascii.eqb c (ascii_of_nat 10) = false
  /\ Ascii.eqb c "#" = false.
Proof.
  destruct c as [[] [] [] [] [] [] [] []]; vm_compute; intro Hc;
    try (exfalso; apply Hc; reflexivity); repeat split.
Qed.

Lemma to_int_nonnil (n : Z) (d : Decimal.uint) :
  Z.to_int n = Decimal.Pos d \/ Z.to_int n = Decimal.Neg d -> d <> Decimal.Nil.
Proof.
  destruct n; simpl; intros [E|E]; inversion E; try discriminate;
    apply DecimalPos.Unsigned.to_uint_nonnil.
Qed.

Lemma nilzero_numeral (d : Decimal.uint) :
  d <> Decimal.Nil -> NilZero.string_of_uint d = NilEmpty.string_of_uint d.
Proof. destruct d; try reflexivity; contradiction. Qed.

Lemma py_int_str_int (n : Z) : py_int (str_int n) = Ok n.
Proof.
  unfold str_int.
  rewrite <- (DecimalZ.of_to n) at 2.
  destruct (Z.to_int n) as [d|d] eqn:E;
    assert (Hd : d <> Decimal.Nil) by (apply (to_int_nonnil n d); auto);
    cbn [NilZero.string_of_int Z.of_int]; rewrite (nilzero_numeral d Hd);
    pose proof (unsigned_int_numeral d Hd) as Hu.
  - destruct (numeral_head d Hd) as (c & s & Hs & Hc).
    rewrite Hs in *.
    destruct (digit_not_special c Hc) as (Hsp & Hm & Hp & _).
    unfold py_int. cbn [skip_spaces]. rewrite Hsp.
    assert (Hgen : forall (A : Type) (a b : string -> A) (e : string -> A),
               match String c s with
               | String "-" s' => a s' | String "+" s' => b s' | s' => e s' end
               = e (String c s)).
    { intros. destruct c as [[] [] [] [] [] [] [] []]; try reflexivity;
        vm_compute in Hm, Hp; discriminate. }
    rewrite (Hgen _ (fun s' => option_map Z.opp (unsigned_int s'))
                    unsigned_int unsigned_int).
    rewrite Hu. reflexivity.
  - unfold py_int. cbn [skip_spaces]. change (is_space "-") with false.
    cbv iota. rewrite Hu. reflexivity.
Qed.

Lemma lazy_to_equals_numeral (d : Decimal.uint) (t : string) :
  lazy_to_equals (NilEmpty.string_of_uint d ++ String "=" t)
  = Some (NilEmpty.string_of_uint d).
Proof.
  induction d; [reflexivity | ..];
    cbn [NilEmpty.string_of_uint append lazy_to_equals];
    rewrite IHd; reflexivity.
Qed.

Lemma group_after_hash_str_int (n : Z) (t : string) :
  group_after_hash (str_int n ++ String "=" t) = Some (str_int n).
Proof.
  unfold str_int.
  destruct (Z.to_int n) as [d|d] eqn:E;
    assert (Hd : d <> Decimal.Nil) by (apply (to_int_nonnil n d); auto);
    cbn [NilZero.string_of_int]; rewrite (nilzero_numeral d Hd).
  - destruct d; [contradiction | ..];
      cbn [NilEmpty.string_of_uint append group_after_hash];
      rewrite lazy_to_equals_numeral; reflexivity.
  - cbn [append group_after_hash].
    rewrite lazy_to_equals_numeral. reflexivity.
Qed.

(** The id that [new_item] writes in front of a record is the id that
    [line_index] reads back. *)
Lemma line_index_item (n : Z) (t : string) :
  line_index ("#" ++ str_int n ++ "=" ++ t) = Ok n.
Proof.
  unfold line_index.
  change ("#" ++ str_int n ++ "=" ++ t) with (String "#" (str_int n ++ String "=" t)).
  cbn [re_search_hash]. change (Ascii.eqb "#" "#") with true. cbv iota.
  rewrite group_after_hash_str_int. apply py_int_str_int.
Qed.

End Numerals.

(** ** The monad *)

Lemma bind_ok {A B : Type} (m : M A) (k : A -> M B) (s s' : state) (b : B) :
  bind m k s = (Ok b, s') ->
  exists a s1, m s = (Ok a, s1) /\ k a s1 = (Ok b, s').
Proof.
  unfold bind. destruct (m s) as [[a|e] s1]; intro E.
  - exists a, s1. split; [reflexivity | exact E].
  - discriminate.
Qed.

Lemma bind_run {A B : Type} (m : M A) (k : A -> M B) (s s1 : state) (a : A) :
  m s = (Ok a, s1) -> bind m k s = k a s1.
Proof. unfold bind. intros ->. reflexivity. Qed.

Lemma lift_ok {A : Type} (r : result A) (s s' : state) (a : A) :
  lift r s = (Ok a, s') -> r = Ok a /\ s' = s.
Proof. unfold lift. intro E. inversion E. split; reflexivity. Qed.

Lemma mapM_length {A B : Type} (f : A -> M B) (l : list A) (s s' : state)
    (bs : list B) :
  mapM f l s = (Ok bs, s') -> List.length bs = List.length l.
Proof.
  revert s bs. induction l as [|a l IH]; simpl; intros s bs E.
  - inversion E. reflexivity.
  - apply bind_ok in E. destruct E as (b & s1 & _ & E).
    apply bind_ok in E. destruct E as (bs' & s2 & E1 & E).
    inversion E; subst. simpl. f_equal. eapply IH. exact E1.
Qed.

(** ** The registry *)

Lemma matches_app (t : string) (w1 w2 : list string) :
  matches t (w1 ++ w2) = (matches t w1 ++ matches t w2)%list.
Proof. apply filter_app. Qed.

Lemma item_exists_q_hit (t : string) (s : state) (first : string)
    (rest : list string) :
  matches t (work_array s) = first :: rest ->
  item_exists_q t s = (Ok true, s).
Proof.
  intro Hm. unfold item_exists_q. rewrite Hm.
  destruct (work_array s); [discriminate | reflexivity].
Qed.

Lemma item_exists_q_miss (t : string) (s : state) :
  matches t (work_array s) = [] ->
  item_exists_q t s = (Ok false, s).
Proof.
  intro Hm. unfold item_exists_q. rewrite Hm.
  destruct (work_array s); reflexivity.
Qed.

Lemma existing_item_ln_hit (t : string) (s : state) (first : string)
    (rest : list string) :
  matches t (work_array s) = first :: rest ->
  existing_item_ln t s = (line_index first, s).
Proof.
  intro Hm. unfold existing_item_ln.
  rewrite (item_exists_q_hit t s first rest Hm), Hm.
  destruct (work_array s); [discriminate | reflexivity].
Qed.

Lemma new_item_hit (t : string) (s : state) (first : string) (rest : list string) :
  matches t (work_array s) = first :: rest ->
  new_item t s = (line_index first, s).
Proof.
  intro Hm. unfold new_item, bind.
  rewrite (item_exists_q_hit t s first rest Hm).
  apply (existing_item_ln_hit t s first rest Hm).
Qed.

Lemma new_item_miss (t : string) (s : state) :
  matches t (work_array s) = [] ->
  new_item t s = (Ok (current_index s), stored t s).
Proof.
  intro Hm. unfold new_item, bind.
  rewrite (item_exists_q_miss t s Hm). reflexivity.
Qed.

Lemma new_item_cases (t : string) (s : state) :
  (exists first rest, matches t (work_array s) = first :: rest
                      /\ new_item t s = (line_index first, s))
  \/ (matches t (work_array s) = []
      /\ new_item t s = (Ok (current_index s), stored t s)).
Proof.
  destruct (matches t (work_array s)) as [|first rest] eqn:Hm.
  - right. split; [reflexivity | apply new_item_miss; exact Hm].
  - left. exists first, rest. split; [reflexivity | eapply new_item_hit; exact Hm].
Qed.

Lemma later_refl (s : state) : later s s.
Proof. exists []. symmetry. apply app_nil_r. Qed.

Lemma later_trans (s1 s2 s3 : state) : later s1 s2 -> later s2 s3 -> later s1 s3.
Proof.
  intros [m1 E1] [m2 E2]. exists (m1 ++ m2)%list.
  rewrite E2, E1. symmetry. apply app_assoc.
Qed.

Lemma later_stored (t : string) (s : state) : later s (stored t s).
Proof. eexists. reflexivity. Qed.

Lemma ends_with_prepend (p t s : string) :
  ends_with t s = true -> ends_with t (p ++ s) = true.
Proof.
  intro Hs. induction p as [|c p IH]; [exact Hs|].
  change (String c p ++ s) with (String c (p ++ s)).
  rewrite ends_with_cons, IH. destruct (String.eqb _ t); reflexivity.
Qed.

Lemma ends_with_record_line (i : Z) (t : string) :
  ends_with t (record_line i t) = true.
Proof.
  unfold record_line. repeat apply ends_with_prepend. apply ends_with_refl.
Qed.

Lemma line_index_record_line (i : Z) (t : string) :
  line_index (record_line i t) = Ok i.
Proof. apply line_index_item. Qed.

(** Once [new_item] has answered [i] for a text, it answers [i] for that
    text for the rest of the run, and stores nothing. *)
Lemma new_item_stable (t : string) (s s1 : state) (i : Z) :
  new_item t s = (Ok i, s1) ->
  forall s2, later s1 s2 -> new_item t s2 = (Ok i, s2).
Proof.
  intros E s2 [more Hl].
  destruct (new_item_cases t s) as [(first & rest & Hm & E')|[Hm E']];
    rewrite E' in E; inversion E; subst; clear E.
  - apply new_item_hit with (rest := (rest ++ matches t more)%list).
    rewrite Hl, matches_app, Hm. reflexivity.
  - rewrite <- (line_index_record_line (current_index s) t).
    apply new_item_hit with (rest := matches t more).
    rewrite Hl. unfold stored; cbn [work_array].
    rewrite !matches_app, Hm. cbn [matches filter app].
    rewrite ends_with_record_line. reflexivity.
Qed.

Lemma new_item_later (t : string) (s : state) : later s (snd (new_item t s)).
Proof.
  destruct (new_item_cases t s) as [(first & rest & _ & E)|[_ E]]; rewrite E.
  - apply later_refl.
  - apply later_stored.
Qed.

(** ** What every builder preserves *)

Lemma preserves_ret {A : Type} (P : state -> Prop) (a : A) : preserves P (ret a).
Proof. intros s Hs. exact Hs. Qed.

Lemma preserves_lift {A : Type} (P : state -> Prop) (r : result A) :
  preserves P (lift r).
Proof. intros s Hs. exact Hs. Qed.

Lemma preserves_bind {A B : Type} (P : state -> Prop) (m : M A) (k : A -> M B) :
  preserves P m -> (forall a, preserves P (k a)) -> preserves P (bind m k).
Proof.
  intros Hm Hk s Hs. unfold bind. specialize (Hm s Hs).
  destruct (m s) as [[a|e] s1]; simpl in *.
  - apply Hk. exact Hm.
  - exact Hm.
Qed.

Lemma preserves_mapM {A B : Type} (P : state -> Prop) (f : A -> M B) (l : list A) :
  (forall a, preserves P (f a)) -> preserves P (mapM f l).
Proof.
  intro Hf. induction l as [|a l IH]; simpl.
  - apply preserves_ret.
  - apply preserves_bind; [apply Hf|]. intro b.
    apply preserves_bind; [apply IH|]. intro bs. apply preserves_ret.
Qed.

Lemma preserves_get_part_body_index (P : state -> Prop) :
  preserves P get_part_body_index.
Proof. intros s Hs. exact Hs. Qed.

Create HintDb builders discriminated.

#[export] Hint Resolve preserves_ret preserves_lift preserves_bind preserves_mapM
  preserves_get_part_body_index : builders.

(** A property kept by [new_item] and by the part counter is kept by every
    builder, since these are the only writes a builder makes. *)
Section Preservation.

Context {num : Type} `{PyNumber num} `{FileSystem}.
Variable P : state -> Prop.
Hypothesis P_new_item : forall t, preserves P (new_item t).
Hypothesis P_part_body_index : forall i, preserves P (set_part_body_index i).

#[local] Hint Resolve P_new_item P_part_body_index : builders.

Lemma preserves_vertex c : preserves P (vertex c).
Proof. unfold vertex. auto 30 with builders. Qed.

Lemma preserves_line o d : preserves P (line o d).
Proof. unfold line. auto 30 with builders. Qed.

#[local] Hint Resolve preserves_vertex preserves_line : builders.

Lemma preserves_edge_curve_0 a b ss : preserves P (edge_curve_0 a b ss).
Proof. unfold edge_curve_0, edge_curve. auto 30 with builders. Qed.

#[local] Hint Resolve preserves_edge_curve_0 : builders.

Lemma preserves_edge_loop_1 vs ss : preserves P (edge_loop_1 vs ss).
Proof.
  unfold edge_loop_1, edge_loop_0, edge_loop, face_outer_bound, oriented_edge.
  auto 30 with builders.
Qed.

Lemma preserves_plane_0 o d1 d2 : preserves P (plane_0 o d1 d2).
Proof. unfold plane_0, axis2_placement_3d, plane. auto 30 with builders. Qed.

#[local] Hint Resolve preserves_edge_loop_1 preserves_plane_0 : builders.

Lemma preserves_advanced_face_0 vs z s1 s2 : preserves P (advanced_face_0 vs z s1 s2).
Proof.
  unfold advanced_face_0, advanced_face, axis2_placement_3d, plane.
  apply preserves_bind; [auto with builders|]. intros [|]; auto 30 with builders.
Qed.

#[local] Hint Resolve preserves_advanced_face_0 : builders.

Lemma preserves_af2d3d vs gd : preserves P (af2d3d vs gd).
Proof. unfold af2d3d, xyface, zface. auto 40 with builders. Qed.

Lemma preserves_generate_part vs gd : preserves P (generate_part vs gd).
Proof.
  unfold generate_part, af_list_2_part, closed_shell, manifold_solid_brep.
  pose proof preserves_af2d3d. auto 40 with builders.
Qed.

Lemma preserves_part_2_assembly l : preserves P (part_2_assembly l).
Proof.
  unfold part_2_assembly, advanced_brep_shape_representation,
    shape_representation_relationship. auto 30 with builders.
Qed.

End Preservation.

(** ** The scaffold *)

Lemma highest_index_scaffold (name : string) (d : datetime) :
  highest_index (scaffold name d) = Ok 49.
Proof. reflexivity. Qed.

Lemma scaffold_ids_bounded (name : string) (d : datetime) :
  Forall (fun l => exists i, line_index l = Ok i /\ 1 <= i <= 49)
         (filter (starts_with "#") (scaffold name d)).
Proof.
  apply Forall_forall. intros l Hl.
  assert (Hb : forallb (fun l => match line_index l with
                                 | Ok i => (1 <=? i) && (i <=? 49)
                                 | Raise _ => false
                                 end)
                       (filter (starts_with "#") (scaffold name d)) = true)
    by reflexivity.
  rewrite forallb_forall in Hb. specialize (Hb l Hl).
  destruct (line_index l) as [i|]; [|discriminate].
  exists i. split; [reflexivity | lia].
Qed.

Lemma index1_scaffold (name : string) (d : datetime) :
  list_index ("/* Part Specification */" ++ nl) (scaffold name d) = Ok 62%nat.
Proof. reflexivity. Qed.

Lemma initialize_blank (name : string) (d : datetime) :
  initialize name d blank
  = (Ok tt, mkState (scaffold name d) 62 [] 50 1 None).
Proof.
  unfold initialize. rewrite index1_scaffold, highest_index_scaffold. reflexivity.
Qed.

(** ** Numbering *)

Lemma ids_from_succ (first : Z) (n : nat) :
  ids_from first (S n) = (ids_from first n ++ [first + Z.of_nat n])%list.
Proof. unfold ids_from. rewrite seq_S, map_app. reflexivity. Qed.

Lemma numbered_from_new_item (first : Z) (t : string) :
  preserves (numbered_from first) (new_item t).
Proof.
  intros s [Hids Hci].
  destruct (new_item_cases t s) as [(x & rest & _ & E)|[_ E]]; rewrite E.
  - split; assumption.
  - unfold stored, numbered_from; cbn [snd work_array current_index].
    rewrite length_app, map_app, Hids. cbn [List.length map].
    rewrite Nat.add_1_r, ids_from_succ, map_app, line_index_record_line, Hci.
    split; [reflexivity | lia].
Qed.

Lemma numbered_from_part_body_index (first : Z) (i : Z) :
  preserves (numbered_from first) (set_part_body_index i).
Proof. intros s Hs. exact Hs. Qed.

Lemma numbered_from_write_output `{FileSystem} (first : Z) :
  preserves (numbered_from first) write_output.
Proof. intros s Hs. unfold write_output. destruct fs_open; exact Hs. Qed.

Section Runs.

Context {num : Type} `{PyNumber num} `{FileSystem}.

Lemma preserves_generate_assembly (P : state -> Prop) (a b c : pyval num) :
  (forall t, preserves P (new_item t)) ->
  (forall i, preserves P (set_part_body_index i)) ->
  preserves P write_output ->
  preserves P (generate_assembly a b c).
Proof.
  intros Hn Hp Hw. unfold generate_assembly.
  pose proof (preserves_generate_part P Hn Hp).
  pose proof (preserves_part_2_assembly P Hn).
  auto 30 with builders.
Qed.

Lemma main_shape (name : string) (d : datetime) (data : pyval num) :
  (exists a b c, data = VList [a; b; c])
  \/ main name d data = lift exit.
Proof.
  destruct data as [| | |l|];
    try (right; reflexivity).
  destruct l as [|a [|b [|c [|x l]]]];
    first [ left; exists a, b, c; reflexivity | right; reflexivity ].
Qed.

(** A run that gets as far as [generate_assembly] starts it in the state
    that [initialize] leaves. *)
Lemma main_started (name : string) (d : datetime) (data : pyval num) :
  fst (main name d data blank) = Ok tt ->
  exists a b c,
    data = VList [a; b; c]
    /\ main name d data blank
       = generate_assembly a b c (mkState (scaffold name d) 62 [] 50 1 None).
Proof.
  intro Hok.
  destruct (main_shape name d data) as [(a & b & c & ->)|E].
  - exists a, b, c. split; [reflexivity|].
    unfold main, bind. rewrite initialize_blank. reflexivity.
  - rewrite E in Hok. discriminate Hok.
Qed.

Lemma main_numbered (name : string) (d : datetime) (data : pyval num) :
  fst (main name d data blank) = Ok tt ->
  numbered_from 50 (snd (main name d data blank)).
Proof.
  intro Hok. destruct (main_started name d data Hok) as (a & b & c & _ & E).
  rewrite E.
  apply (preserves_generate_assembly (numbered_from 50) a b c
           (numbered_from_new_item 50) (numbered_from_part_body_index 50)
           (numbered_from_write_output 50)).
  split; reflexivity.
Qed.

End Runs.

(** ** Claims about the registry *)

(** C10.  [new_item] takes a stored record for a duplicate of the queried
    text as soon as the record's full line, [#<id>=<text>], ends with the
    queried text; of several such records the earliest one in the store
    gives the id, and nothing is stored. *)
Theorem intern_matches_by_suffix (t : string) (s : state)
    (before after : list string) (i : Z) (text : string) :
  work_array s = (before ++ record_line i text :: after)%list ->
  ends_with t (record_line i text) = true ->
  Forall (fun l => ends_with t l = false) before ->
  new_item t s = (Ok i, s).
Proof.
  intros Hw Ht Hb.
  rewrite <- (line_index_record_line i text).
  apply new_item_hit with (rest := matches t after).
  assert (Hnone : matches t before = []).
  { clear Hw. induction Hb as [|x l Hx _ IH]; [reflexivity|].
    unfold matches in *. cbn [filter]. rewrite Hx. exact IH. }
  rewrite Hw, matches_app, Hnone. unfold matches. cbn [filter app].
  rewrite Ht. reflexivity.
Qed.

(** A store in which the text [(0,0,0)) ;] is the payload of no record but
    ends two lines; the earlier one, [#50], answers. *)
Lemma intern_matches_by_suffix_witness :
  let s := mkState [] 0
             [record_line 50 ("CARTESIAN_POINT('Vertex',(0,0,0)) ;" ++ nl);
              record_line 51 ("VERTEX_POINT('',#50) ;" ++ nl);
              record_line 52 ("CARTESIAN_POINT('Axis2P3D Location',(0,0,0)) ;" ++ nl)]
             53 1 None in
  new_item ("(0,0,0)) ;" ++ nl) s = (Ok 50, s).
Proof.
  intro s.
  apply (intern_matches_by_suffix _ s []
           [record_line 51 ("VERTEX_POINT('',#50) ;" ++ nl);
            record_line 52 ("CARTESIAN_POINT('Axis2P3D Location',(0,0,0)) ;" ++ nl)]
           50 ("CARTESIAN_POINT('Vertex',(0,0,0)) ;" ++ nl)).
  - reflexivity.
  - vm_compute. reflexivity.
  - constructor.
Defined.

Section RegistryClaims.

Context {num : Type} `{PyNumber num} `{FileSystem}.

(** C3, as the code has it.  A vertex at coordinates that an earlier vertex
    of the run already used gets the earlier vertex's id and stores nothing:
    its CARTESIAN_POINT text is found in the registry, and so is the
    VERTEX_POINT text that refers to it. *)
Theorem vertex_record_shared (c : vec) (s s1 : state) (v : Z) :
  vertex c s = (Ok v, s1) ->
  forall s2, later s1 s2 -> vertex c s2 = (Ok v, s2).
Proof.
  intros E s2 Hl. unfold vertex in *.
  apply bind_ok in E. destruct E as (txt & s0 & E0 & E).
  apply lift_ok in E0. destruct E0 as [Et ->].
  apply bind_ok in E. destruct E as (p & sa & Ep & Ev).
  assert (Hsa : later sa s1).
  { replace s1 with (snd (new_item ("VERTEX_POINT('',#" ++ str_int p ++ ") ;" ++ nl) sa))
      by (rewrite Ev; reflexivity).
    apply new_item_later. }
  rewrite (bind_run _ _ s2 s2 txt) by (unfold lift; rewrite Et; reflexivity).
  rewrite (bind_run _ _ s2 s2 p)
    by (apply (new_item_stable _ s sa p Ep); eapply later_trans; eassumption).
  apply (new_item_stable _ sa s1 v Ev). exact Hl.
Qed.

(** C5.  The scaffold's highest id is 49; in a run that succeeds the stored
    records carry the ids 50, 51, ... in the order in which they were
    stored, with the counter one past the last; and a text that was
    answered with an id is answered with the same id from then on, the store
    and the counter staying as they are. *)
Theorem ids_contiguous_from_scaffold (name : string) (d : datetime)
    (data : pyval num) :
  fst (main name d data blank) = Ok tt ->
  highest_index (scaffold name d) = Ok 49
  /\ Forall (fun l => exists i, line_index l = Ok i /\ 1 <= i <= 49)
            (filter (starts_with "#") (scaffold name d))
  /\ numbered_from (49 + 1) (snd (main name d data blank))
  /\ (forall t s i s1, new_item t s = (Ok i, s1) ->
        forall s2, later s1 s2 -> new_item t s2 = (Ok i, s2)).
Proof.
  intro Hok. repeat split.
  - apply scaffold_ids_bounded.
  - apply (main_numbered name d data Hok).
  - apply (main_numbered name d data Hok).
  - intros t s i s1. apply new_item_stable.
Qed.

End RegistryClaims.

Lemma vertex_record_shared_witness :
  let c := [flt 10; flt 0; flt 20] in
  vertex c started = (Ok 51, snd (vertex c started))
  /\ vertex c (snd (vertex c started)) = (Ok 51, snd (vertex c started)).
Proof.
  intro c.
  assert (E : vertex c started = (Ok 51, snd (vertex c started)))
    by (vm_compute; reflexivity).
  split; [exact E|].
  apply (vertex_record_shared c started _ 51 E). apply later_refl.
Defined.

(** C3 as stated fails: the second vertex at (10.0, 0.0, 20.0) is given the
    id 51 of the first, and the store is the same before and after.  In a
    run on two unit squares side by side, which share the corners (1,0) and
    (1,1), the twelve different corners of the two solids get twelve
    VERTEX_POINT records, not sixteen. *)
Lemma vertex_not_allocated_twice :
  let c := [flt 10; flt 0; flt 20] in
  let s1 := snd (vertex c started) in
  let two_squares :=
    VList [VList [unit_square; VList [xy 1 0; xy 2 0; xy 2 1; xy 1 1]];
           VList [int 0; int 2]; int 10] in
  fst (vertex c started) = Ok 51
  /\ fst (vertex c s1) = Ok 51
  /\ snd (vertex c s1) = s1
  /\ work_array s1
     = [record_line 50 ("CARTESIAN_POINT('Vertex',(10.0,0.0,20.0)) ;" ++ nl);
        record_line 51 ("VERTEX_POINT('',#50) ;" ++ nl)]
  /\ fst (main "part_out.stp" a_date two_squares blank) = Ok tt
  /\ List.length (records_of "VERTEX_POINT"
                    (snd (main "part_out.stp" a_date two_squares blank)))
     = 12%nat.
Proof. vm_compute. repeat split. Qed.

Lemma ids_contiguous_from_scaffold_witness :
  fst (main "part_out.stp" a_date square_input blank) = Ok tt
  /\ numbered_from 50 (snd (main "part_out.stp" a_date square_input blank)).
Proof.
  assert (E : fst (main "part_out.stp" a_date square_input blank) = Ok tt)
    by (vm_compute; reflexivity).
  split; [exact E|].
  apply (ids_contiguous_from_scaffold "part_out.stp" a_date square_input E).
Defined.

(** ** Claims about the geometry *)

Lemma bind_cong {A B : Type} (m : M A) (k1 k2 : A -> M B) (s : state) :
  (forall a s', k1 a s' = k2 a s') -> bind m k1 s = bind m k2 s.
Proof.
  intro Hk. unfold bind. destruct (m s) as [[a|e] s']; [apply Hk | reflexivity].
Qed.

Section GeometryClaims.

Context {num : Type} `{PyNumber num} `{FileSystem}.

(** C1, as the code has it.  [advanced_face_0] tests whether the normalized
    hint and the normalized [cross(v3 - v2, v3 - v1)] of the first three
    vertices add up to exactly [[0, 0, 0]].  When they do, the loop and the
    reference direction follow the given vertex order; in every other case
    they follow the reversed order.  In both cases the origin of the frame
    is the first vertex of the given order and its normal is the normalized
    hint. *)
Theorem advanced_face_0_orientation (vertices : list vec) (zaxis : vec)
    (same_sense_1 same_sense_2 : sense) (s : state) :
  advanced_face_0 vertices zaxis same_sense_1 same_sense_2 s
  = (kept <- lift (face_test vertices zaxis) ;;
     face_on (if kept : bool then vertices else rev vertices) vertices zaxis
             same_sense_1 same_sense_2) s.
Proof.
  unfold advanced_face_0. apply bind_cong. intros [|] s'; reflexivity.
Qed.

Lemma mapR_raise_head {A B : Type} (f : A -> result B) (a : A) (l : list A)
    (e : exn) :
  f a = Raise e -> mapR f (a :: l) = Raise e.
Proof. intro E. simpl. rewrite E. reflexivity. Qed.

Lemma mapR_total {A B : Type} (f : A -> result B) (g : A -> B) (l : list A) :
  (forall a, In a l -> f a = Ok (g a)) -> mapR f l = Ok (map g l).
Proof.
  induction l as [|a l IH]; intro Hf; simpl; [reflexivity|].
  rewrite (Hf a (or_introl eq_refl)). simpl.
  rewrite IH by (intros x Hx; apply Hf; right; exact Hx). reflexivity.
Qed.

(** C4, as the code has it.  For a vector of three components whose
    magnitude [m], as computed, is zero, [normalize] fails with the
    [ZeroDivisionError] of its first division; when [m] is not zero it
    returns the components divided by [m]. *)
Theorem normalize_by_magnitude (v : vec) (m : num) :
  List.length v = 3%nat ->
  magnitude v = Ok m ->
  (num_eqb m (of_int 0) = true -> normalize v = Raise ZeroDivisionError)
  /\ (num_eqb m (of_int 0) = false ->
      normalize v = Ok (map (fun x => num_div x m) v)).
Proof.
  intros Hlen Hm. unfold normalize. rewrite Hlen, Hm. cbn [Nat.eqb negb bindR].
  split; intro Hz.
  - destruct v as [|a v]; [discriminate|].
    apply mapR_raise_head. unfold truediv. rewrite Hz. reflexivity.
  - apply mapR_total. intros a _. unfold truediv. rewrite Hz. reflexivity.
Qed.

End GeometryClaims.

(** On int coordinates the vector that [face_test] normalizes is the
    opposite of [cross(v2 - v1, v3 - v1)]. *)
Lemma face_test_vector_ints (x1 y1 z1 x2 y2 z2 x3 y3 z3 : Z) :
  let v1 := ints [x1; y1; z1] in
  let v2 := ints [x2; y2; z2] in
  let v3 := ints [x3; y3; z3] in
  cross_product (vsub v3 v2) (vsub v3 v1)
  = (c <~ cross_product (vsub v2 v1) (vsub v3 v1) ;; Ok (map num_neg c)).
Proof.
  cbn. repeat (f_equal; try ring).
Qed.

(** C1 as stated fails twice.  With the hint (0,0,1) the normal of the
    triangle is opposite to the hint and the loop is reversed, but the
    origin stays at (0,0,0), the first vertex of the given order, where the
    reversed order starts at (10,0,0).  With the hint (1,0,0) the normal is
    not opposite to the hint, and the loop is reversed all the same. *)
Lemma planar_face_not_as_worded :
  let T := SBool true in
  opposite_to_hint triangle upwards = Ok true
  /\ records_of "Axis2P3D Location"
       (snd (advanced_face_0 triangle upwards T T started))
     = [record_line 76 ("CARTESIAN_POINT('Axis2P3D Location',(0.0,0.0,0.0)) ;" ++ nl)]
  /\ records_of "Axis2P3D Location"
       (snd (planarFace_spec triangle upwards T T started))
     = [record_line 76 ("CARTESIAN_POINT('Axis2P3D Location',(10.0,0.0,0.0)) ;" ++ nl)]
  /\ opposite_to_hint triangle eastwards = Ok false
  /\ advanced_face_0 triangle eastwards T T started
     = face_on (rev triangle) triangle eastwards T T started
  /\ advanced_face_0 triangle eastwards T T started
     <> planarFace_spec triangle eastwards T T started.
Proof.
  intro T.
  split; [vm_compute; reflexivity|].
  split; [vm_compute; reflexivity|].
  split; [vm_compute; reflexivity|].
  split; [vm_compute; reflexivity|].
  split; [vm_compute; reflexivity|].
  intro E.
  apply (f_equal (fun r => records_of "'Vertex'" (snd r))) in E.
  vm_compute in E. discriminate E.
Qed.

Lemma normalize_by_magnitude_witness :
  (normalize [flt 0; flt 0; flt 0] = Raise ZeroDivisionError)
  /\ (normalize [flt 3; flt 0; flt 4]
      = Ok (map (fun x => num_div x (flt 5)) [flt 3; flt 0; flt 4])).
Proof.
  split.
  - apply (normalize_by_magnitude [flt 0; flt 0; flt 0] (flt 0));
      vm_compute; reflexivity.
  - apply (normalize_by_magnitude [flt 3; flt 0; flt 4] (flt 5));
      vm_compute; reflexivity.
Defined.

(** C4 as stated fails: the zero vector makes [normalize] stop on the
    division itself, and so does a vector that is not zero but whose squares
    underflow. *)
Lemma normalize_unguarded :
  normalize [flt 0; flt 0; flt 0] = Raise ZeroDivisionError
  /\ normalize [PyInt 0; PyInt 0; PyInt 0] = Raise ZeroDivisionError
  /\ normalize [PyFloat 0x1p-600; flt 0; flt 0] = Raise ZeroDivisionError.
Proof. vm_compute. repeat split. Qed.

(** ** Winding of polygons with int coordinates *)

Lemma rotate_next {A : Type} (x : A) (t : list A) :
  rotate (x :: t) (-1) = (t ++ [x])%list.
Proof.
  unfold rotate, slice_from, slice_to, slice_bound.
  change (- -1) with 1. cbn [Z.ltb Z.compare List.length].
  replace (Z.to_nat (Z.min 1 (Z.of_nat (S (List.length t))))) with 1%nat by lia.
  reflexivity.
Qed.

Lemma skipn_all_but_last {A : Type} (x d : A) (t : list A) :
  skipn (List.length t) (x :: t) = [last (x :: t) d].
Proof.
  revert x. induction t as [|y t IH]; intro x; [reflexivity|].
  cbn [List.length skipn]. rewrite IH. reflexivity.
Qed.

Lemma firstn_all_but_last {A : Type} (x : A) (t : list A) :
  firstn (List.length t) (x :: t) = removelast (x :: t).
Proof.
  revert x. induction t as [|y t IH]; intro x; [reflexivity|].
  cbn [List.length firstn]. rewrite IH. reflexivity.
Qed.

Lemma rotate_prev {A : Type} (x : A) (t : list A) :
  rotate (x :: t) 1 = last (x :: t) x :: removelast (x :: t).
Proof.
  unfold rotate, slice_from, slice_to, slice_bound.
  cbn [Z.opp Z.ltb Z.compare List.length].
  replace (Z.to_nat (Z.max (Z.of_nat (S (List.length t)) + -1) 0))
    with (List.length t) by lia.
  rewrite (skipn_all_but_last x x), firstn_all_but_last. reflexivity.
Qed.

Lemma rotate_map {A B : Type} (f : A -> B) (l : list A) (x : Z) :
  rotate (map f l) x = map f (rotate l x).
Proof.
  unfold rotate, slice_from, slice_to, slice_bound.
  rewrite length_map, map_app, skipn_map, firstn_map. reflexivity.
Qed.

Lemma rotate_length {A : Type} (l : list A) (x : Z) :
  List.length (rotate l x) = List.length l.
Proof.
  unfold rotate, slice_from, slice_to.
  rewrite length_app, length_skipn, length_firstn. lia.
Qed.

Lemma rotate_In {A : Type} (l : list A) (x : Z) (a : A) :
  In a (rotate l x) -> In a l.
Proof.
  unfold rotate, slice_from, slice_to. intro Hin.
  rewrite <- (firstn_skipn (slice_bound l (- x)) l).
  apply in_or_app. apply in_app_or in Hin. tauto.
Qed.

Lemma Zsum_fold_left (l : list Z) (a : Z) : fold_left Z.add l a = a + Zsum l.
Proof.
  revert a. induction l as [|x l IH]; intro a; simpl; [lia|].
  rewrite IH. lia.
Qed.

Lemma py_sum_ints (zs : list Z) : py_sum (map PyInt zs) = Ok (PyInt (Zsum zs)).
Proof.
  unfold py_sum. rewrite <- (Z.add_0_l (Zsum zs)), <- Zsum_fold_left.
  cbn [of_int pynum_number]. generalize 0.
  induction zs as [|z zs IH]; intro a; [reflexivity|].
  cbn [map fold_left sum_from]. apply IH.
Qed.

Lemma winding_term_ints (a b : list Z) :
  (2 <= List.length a)%nat -> (2 <= List.length b)%nat ->
  winding_term (ints a) (ints b) = Ok (PyInt (shoelace_term a b)).
Proof.
  intros Ha Hb.
  destruct a as [|a0 [|a1 a]]; try (simpl in Ha; lia).
  destruct b as [|b0 [|b1 b]]; try (simpl in Hb; lia).
  reflexivity.
Qed.

Lemma combine_map_same {A B : Type} (f : A -> B) (l1 l2 : list A) :
  combine (map f l1) (map f l2)
  = map (fun p => (f (fst p), f (snd p))) (combine l1 l2).
Proof.
  revert l2. induction l1 as [|a l1 IH]; intros [|b l2]; simpl; try reflexivity.
  rewrite IH. reflexivity.
Qed.

Lemma mapR_map_total {A B C : Type} (h : A -> B) (f : B -> result C)
    (g : A -> C) (l : list A) :
  (forall a, In a l -> f (h a) = Ok (g a)) ->
  mapR f (map h l) = Ok (map g l).
Proof.
  induction l as [|a l IH]; intro Hf; simpl; [reflexivity|].
  rewrite (Hf a (or_introl eq_refl)). simpl.
  rewrite IH by (intros x Hx; apply Hf; right; exact Hx). reflexivity.
Qed.

(** The sum of the code's terms over the pairs [(a, b)] of [pairs]. *)
Lemma winding_sum_ints (pairs : list (list Z * list Z)) :
  Forall (fun ab => (2 <= List.length (fst ab))%nat /\ (2 <= List.length (snd ab))%nat)
         pairs ->
  (terms <~ mapR (fun p => winding_term (fst p) (snd p))
                 (map (fun p => (ints (fst p), ints (snd p))) pairs) ;;
   py_sum terms)
  = Ok (PyInt (Zsum (map (fun ab => shoelace_term (fst ab) (snd ab)) pairs))).
Proof.
  intro Hp.
  rewrite (mapR_map_total _ _ (fun p => PyInt (shoelace_term (fst p) (snd p)))).
  - cbn [bindR].
    rewrite <- (map_map (fun ab => shoelace_term (fst ab) (snd ab)) PyInt).
    rewrite py_sum_ints. reflexivity.
  - intros ab Hab. rewrite Forall_forall in Hp. destruct (Hp ab Hab) as [Ha Hb].
    cbn [fst snd]. apply winding_term_ints; assumption.
Qed.

Lemma planar_pairs (p : list (list Z)) (x : Z) :
  planar p ->
  Forall (fun ab => (2 <= List.length (fst ab))%nat /\ (2 <= List.length (snd ab))%nat)
         (combine p (rotate p x)).
Proof.
  unfold planar. rewrite !Forall_forall. intros Hp [a b] Hab. cbn [fst snd].
  split; apply Hp.
  - eapply in_combine_l; eassumption.
  - eapply rotate_In. eapply in_combine_r; eassumption.
Qed.

Lemma pol_sum_ints (p : list (list Z)) :
  planar p ->
  pol_sum (int_polygon p)
  = Ok (PyInt (Zsum (map (fun ab => shoelace_term (fst ab) (snd ab))
                         (combine p (rotate p 1))))).
Proof.
  intro Hp. unfold pol_sum, int_polygon.
  rewrite rotate_map, combine_map_same.
  apply winding_sum_ints. apply planar_pairs. exact Hp.
Qed.

Lemma cyclic_sum_spec_ints (p : list (list Z)) :
  planar p ->
  cyclic_sum_spec (int_polygon p) = Ok (PyInt (cyclic_sum p)).
Proof.
  intro Hp. unfold cyclic_sum_spec, cyclic_sum, int_polygon.
  rewrite rotate_map, combine_map_same.
  apply winding_sum_ints. apply planar_pairs. exact Hp.
Qed.

(** *** Sums around the polygon *)

Lemma last_cons_cons {A : Type} (x y d d' : A) (t : list A) :
  last (x :: y :: t) d = last (y :: t) d'.
Proof.
  cbn [last]. revert y. induction t as [|v t IH]; intro y; [reflexivity|].
  cbn [last] in *. apply IH.
Qed.

Lemma Zsum_cons (z : Z) (l : list Z) : Zsum (z :: l) = z + Zsum l.
Proof. reflexivity. Qed.

Lemma sum_next {A : Type} (g : A -> A -> Z) (x z : A) (t : list A) :
  Zsum (map (fun ab => g (fst ab) (snd ab)) (combine (x :: t) (t ++ [z])))
  = chain g x t + g (last (x :: t) x) z.
Proof.
  revert x. induction t as [|y t IH]; intro x.
  - simpl. lia.
  - change (combine (x :: y :: t) ((y :: t) ++ [z]))
      with ((x, y) :: combine (y :: t) (t ++ [z])).
    cbn [map fst snd chain]. rewrite Zsum_cons, IH.
    rewrite (last_cons_cons x y x y). lia.
Qed.

Lemma sum_prev {A : Type} (g : A -> A -> Z) (x : A) (t : list A) :
  Zsum (map (fun ab => g (fst ab) (snd ab)) (combine t (removelast (x :: t))))
  = chain (fun a b => g b a) x t.
Proof.
  revert x. induction t as [|y t IH]; intro x; [reflexivity|].
  change (removelast (x :: y :: t)) with (x :: removelast (y :: t)).
  cbn [combine map fst snd chain]. rewrite Zsum_cons, IH. reflexivity.
Qed.

Lemma chain_opp {A : Type} (g g' : A -> A -> Z) (x : A) (t : list A) :
  (forall a b, g' a b = - g a b) -> chain g' x t = - chain g x t.
Proof.
  intro Hg. revert x. induction t as [|y t IH]; intro x; simpl; [reflexivity|].
  rewrite IH, Hg. lia.
Qed.

Lemma shoelace_term_swap (a b : list Z) : shoelace_term b a = - shoelace_term a b.
Proof. unfold shoelace_term. ring. Qed.

(** The sum around a polygon [x :: t], each vertex with the next. *)
Lemma cyclic_sum_chain (x : list Z) (t : list (list Z)) :
  cyclic_sum (x :: t)
  = chain shoelace_term x t + shoelace_term (last (x :: t) x) x.
Proof. unfold cyclic_sum. rewrite rotate_next. apply sum_next. Qed.

(** The code pairs each vertex with the one before it, the specification
    with the one after it: the two sums are opposite. *)
Lemma prev_sum_opposite (p : list (list Z)) :
  Zsum (map (fun ab => shoelace_term (fst ab) (snd ab)) (combine p (rotate p 1)))
  = - cyclic_sum p.
Proof.
  destruct p as [|x t]; [reflexivity|].
  rewrite cyclic_sum_chain, rotate_prev.
  change (combine (x :: t) (last (x :: t) x :: removelast (x :: t)))
    with ((x, last (x :: t) x) :: combine t (removelast (x :: t))).
  cbn [map fst snd]. rewrite Zsum_cons, sum_prev.
  rewrite (chain_opp shoelace_term (fun a b => shoelace_term b a))
    by (intros; apply shoelace_term_swap).
  rewrite (shoelace_term_swap (last (x :: t) x) x). lia.
Qed.

Lemma chain_app_single {A : Type} (g : A -> A -> Z) (x z : A) (t : list A) :
  chain g x (t ++ [z]) = chain g x t + g (last (x :: t) x) z.
Proof.
  revert x. induction t as [|y t IH]; intro x.
  - simpl. lia.
  - cbn [app chain]. rewrite IH, (last_cons_cons x y x y). lia.
Qed.

Lemma rev_head_last {A : Type} (l : list A) (y d : A) (u : list A) :
  rev l = y :: u -> last l d = y.
Proof.
  intro E. rewrite <- (rev_involutive l), E. cbn [rev]. apply last_last.
Qed.

Lemma chain_rev {A : Type} (g : A -> A -> Z) (t : list A) :
  forall x y u, rev (x :: t) = y :: u ->
  chain g y u = chain (fun a b => g b a) x t.
Proof.
  induction t as [|x' t IH]; intros x y u E.
  - inversion E. reflexivity.
  - cbn [rev] in E. destruct (rev t ++ [x'])%list as [|y' u'] eqn:E';
      [destruct (rev t); discriminate|].
    cbn [app] in E. inversion E; subst y' u.
    rewrite chain_app_single, (IH x' y u' E').
    replace (last (y :: u') y) with x'.
    + cbn [chain]. lia.
    + rewrite <- E'. symmetry. apply last_last.
Qed.

Lemma cyclic_sum_rev (p : list (list Z)) : cyclic_sum (rev p) = - cyclic_sum p.
Proof.
  destruct p as [|x t]; [reflexivity|].
  destruct (rev (x :: t)) as [|y u] eqn:E.
  - cbn [rev] in E. destruct (rev t); discriminate.
  - rewrite !cyclic_sum_chain, (chain_rev shoelace_term t x y u E).
    rewrite (chain_opp shoelace_term (fun a b => shoelace_term b a))
      by (intros; apply shoelace_term_swap).
    rewrite (rev_head_last (x :: t) y x u E).
    replace (last (y :: u) y) with x.
    + rewrite (shoelace_term_swap y x). lia.
    + rewrite <- E. cbn [rev]. symmetry. apply last_last.
Qed.

Lemma chain_area (x : list Z) (t : list (list Z)) :
  chain shoelace_term x t
  = vx (last (x :: t) x) * vy (last (x :: t) x) - vx x * vy x
    - chain area_term x t.
Proof.
  revert x. induction t as [|y t IH]; intro x.
  - simpl. lia.
  - cbn [chain]. rewrite IH, (last_cons_cons x y x y).
    unfold shoelace_term, area_term. ring.
Qed.

(** The sum of the specification is twice the signed area, negated. *)
Lemma cyclic_sum_area (p : list (list Z)) : cyclic_sum p = - signed_area2 p.
Proof.
  destruct p as [|x t]; [reflexivity|].
  rewrite cyclic_sum_chain. unfold signed_area2.
  rewrite rotate_next, (sum_next area_term), chain_area.
  unfold shoelace_term, area_term. ring.
Qed.

Lemma py_eqb_int (a b : Z) : py_eqb (PyInt a) (PyInt b) = (a =? b).
Proof.
  unfold py_eqb, py_compare.
  destruct (Z.compare_spec a b), (Z.eqb_spec a b); try lia; reflexivity.
Qed.

Lemma py_gtb_int (a b : Z) : py_gtb (PyInt a) (PyInt b) = (b <? a).
Proof.
  unfold py_gtb, py_compare.
  destruct (Z.compare_spec a b), (Z.ltb_spec b a); try lia; reflexivity.
Qed.

Lemma convert_to_clockwise_area (p : list (list Z)) :
  planar p ->
  convert_to_clockwise (int_polygon p)
  = if signed_area2 p =? 0 then Raise SystemExit
    else if 0 <? signed_area2 p then Ok (Reversed (int_polygon p))
    else Ok (AList (int_polygon p)).
Proof.
  intro Hp. unfold convert_to_clockwise.
  rewrite (pol_sum_ints p Hp), prev_sum_opposite, cyclic_sum_area, Z.opp_involutive.
  cbn [bindR num_eqb num_gtb of_int pynum_number].
  rewrite py_eqb_int, py_gtb_int. reflexivity.
Qed.

Lemma planar_rev (p : list (list Z)) : planar p -> planar (rev p).
Proof. unfold planar. apply Forall_rev. Qed.

Lemma int_polygon_rev (p : list (list Z)) : rev (int_polygon p) = int_polygon (rev p).
Proof. unfold int_polygon. symmetry. apply map_rev. Qed.

Lemma signed_area2_rev (p : list (list Z)) : signed_area2 (rev p) = - signed_area2 p.
Proof.
  pose proof (cyclic_sum_area (rev p)). pose proof (cyclic_sum_area p).
  pose proof (cyclic_sum_rev p). lia.
Qed.

(** *** Each vertex with the one before it *)

Lemma mapR_ext_in {A B : Type} (f g : A -> result B) (l : list A) :
  (forall a, In a l -> f a = g a) -> mapR f l = mapR g l.
Proof.
  induction l as [|a l IH]; intro Hfg; [reflexivity|].
  cbn [mapR]. rewrite (Hfg a (or_introl eq_refl)).
  rewrite IH by (intros x Hx; apply Hfg; right; exact Hx). reflexivity.
Qed.

Lemma mapR_map {A B C : Type} (h : A -> B) (f : B -> result C) (l : list A) :
  mapR f (map h l) = mapR (fun a => f (h a)) l.
Proof.
  induction l as [|a l IH]; [reflexivity|].
  cbn [map mapR]. rewrite IH. reflexivity.
Qed.

(** A list comprehension over two lists of one length, by places. *)
Lemma mapR_combine_places {A B C : Type} (f : A * B -> result C)
    (l1 : list A) (l2 : list B) :
  List.length l2 = List.length l1 ->
  mapR f (combine l1 l2)
  = mapR (fun i => match nth_error l1 i, nth_error l2 i with
                   | Some a, Some b => f (a, b)
                   | _, _ => Raise IndexError
                   end)
         (seq 0 (List.length l1)).
Proof.
  revert l2. induction l1 as [|a l1 IH]; intros [|b l2] Hl;
    try discriminate; [reflexivity|].
  cbn [combine List.length seq mapR nth_error].
  rewrite <- seq_shift, mapR_map. cbn [nth_error].
  rewrite (IH l2) by (injection Hl as Hl; exact Hl). reflexivity.
Qed.

Lemma nth_error_rotate_prev {A : Type} (l : list A) (i : nat) :
  (i < List.length l)%nat ->
  nth_error (rotate l 1) i
  = nth_error l ((i + List.length l - 1) mod List.length l).
Proof.
  destruct l as [|x t]; [cbn [List.length]; lia|]. intro Hi.
  rewrite rotate_prev.
  destruct i as [|j].
  - cbn [nth_error]. cbn [List.length] in *.
    replace (0 + S (List.length t) - 1)%nat with (List.length t) by lia.
    rewrite Nat.mod_small by lia.
    destruct (exists_last (l:=x :: t)) as (l' & a & E); [discriminate|].
    rewrite E, last_last.
    assert (Hl : List.length l' = List.length t).
    { apply (f_equal (@List.length A)) in E. rewrite length_app in E.
      cbn [List.length] in E. lia. }
    rewrite <- Hl, nth_error_app2, Nat.sub_diag by lia. reflexivity.
  - cbn [nth_error]. cbn [List.length] in *.
    replace (S j + S (List.length t) - 1)%nat
      with (j + 1 * S (List.length t))%nat by lia.
    rewrite Nat.Div0.mod_add, Nat.mod_small by lia.
    destruct (exists_last (l:=x :: t)) as (l' & a & E); [discriminate|].
    assert (Hl : List.length l' = List.length t).
    { apply (f_equal (@List.length A)) in E. rewrite length_app in E.
      cbn [List.length] in E. lia. }
    rewrite E, removelast_last, nth_error_app1 by lia. reflexivity.
Qed.

Section WindingSum.

Context {num : Type} `{PyNumber num}.

(** The sum of the code is the sum over the places of the list, each
    vertex with the one before it, for every kind of number. *)
Lemma pol_sum_predecessor (p : list vec) : pol_sum p = predecessor_sum p.
Proof.
  unfold pol_sum, predecessor_sum.
  rewrite mapR_combine_places by apply rotate_length.
  rewrite (mapR_ext_in _ (predecessor_term p)); [reflexivity|].
  intros i Hi. apply in_seq in Hi. unfold predecessor_term.
  rewrite nth_error_rotate_prev by lia. reflexivity.
Qed.

Lemma convert_to_clockwise_decides (p : list vec) :
  convert_to_clockwise p
  = (s <~ predecessor_sum p ;;
     if num_eqb s (of_int 0) then Raise SystemExit
     else if num_gtb s (of_int 0) then Ok (Reversed p)
     else Ok (AList p)).
Proof. unfold convert_to_clockwise. rewrite pol_sum_predecessor. reflexivity. Qed.

End WindingSum.

(** ** Claims about the winding *)

(** C2, as the code has it.  For every kind of number the code pairs each
    vertex with the one before it, the first with the last, and adds the
    products [(x_{i-1} - x_i) * (y_{i-1} + y_i)] from the int 0 in the
    order of the list; it stops with [sys.exit()] when this sum equals 0,
    returns the iterator over the reversed order when the sum is greater
    than 0, and the list itself otherwise.  On int coordinates, where the
    arithmetic is exact, this sum is the opposite of the specification's
    sum [S] of [(x_{i+1} - x_i) * (y_{i+1} + y_i)]: the code stops when
    [S = 0], reverses when [S < 0] and keeps the order when [S > 0]. *)
Theorem convert_to_clockwise_by_sum :
  (forall (num : Type) (N : PyNumber num) (p : list (list num)),
     pol_sum p = predecessor_sum p
     /\ convert_to_clockwise p
        = (s <~ predecessor_sum p ;;
           if num_eqb s (of_int 0) then Raise SystemExit
           else if num_gtb s (of_int 0) then Ok (Reversed p)
           else Ok (AList p)))
  /\ (forall p : list (list Z),
        planar p ->
        cyclic_sum_spec (int_polygon p) = Ok (PyInt (cyclic_sum p))
        /\ predecessor_sum (int_polygon p) = Ok (PyInt (- cyclic_sum p))
        /\ convert_to_clockwise (int_polygon p)
           = if cyclic_sum p =? 0 then Raise SystemExit
             else if cyclic_sum p <? 0 then Ok (Reversed (int_polygon p))
             else Ok (AList (int_polygon p))).
Proof.
  split.
  - intros num N p. split; [apply pol_sum_predecessor|].
    apply convert_to_clockwise_decides.
  - intros p Hp. split; [apply cyclic_sum_spec_ints; exact Hp|]. split.
    + rewrite <- pol_sum_predecessor, (pol_sum_ints p Hp), prev_sum_opposite.
      reflexivity.
    + rewrite (convert_to_clockwise_area p Hp), (cyclic_sum_area p).
      destruct (Z.eqb_spec (signed_area2 p) 0), (Z.eqb_spec (- signed_area2 p) 0);
        try lia; try reflexivity.
      destruct (Z.ltb_spec 0 (signed_area2 p)), (Z.ltb_spec (- signed_area2 p) 0);
        try lia; reflexivity.
Qed.

(** C6, as the code has it.  For every kind of number, a normalization
    that returns has returned either the list it was given, and then
    normalizing the result returns it again, or the iterator over the
    reversed order, and then normalizing the result raises [TypeError].
    On a polygon with int coordinates the first is the case of a clockwise
    polygon, one of negative signed area, and the second the case of a
    counter-clockwise one; there the list of the elements of the iterator
    is a polygon that the normalization returns as it is. *)
Theorem winding_idempotent :
  (forall (num : Type) (N : PyNumber num) (p : list (list num))
          (q : sequence (list num)),
     convert_to_clockwise p = Ok q ->
     (q = AList p /\ convert_to_clockwise q = Ok q)
     \/ (q = Reversed p /\ convert_to_clockwise q = Raise TypeError))
  /\ (forall p : list (list Z),
        planar p ->
        (signed_area2 p < 0 ->
         convert_to_clockwise (int_polygon p) = Ok (AList (int_polygon p)))
        /\ (0 < signed_area2 p ->
            convert_to_clockwise (int_polygon p) = Ok (Reversed (int_polygon p))
            /\ convert_to_clockwise (Reversed (int_polygon p)) = Raise TypeError
            /\ convert_to_clockwise (elements (Reversed (int_polygon p)))
               = Ok (AList (elements (Reversed (int_polygon p)))))).
Proof.
  split.
  - intros num N p q E. pose proof E as E'. unfold convert_to_clockwise in E'.
    destruct (pol_sum p) as [a|]; [|discriminate]. cbn [bindR] in E'.
    destruct (num_eqb a (of_int 0)); [discriminate|].
    destruct (num_gtb a (of_int 0)); injection E' as <-.
    + right. split; reflexivity.
    + left. split; [reflexivity | exact E].
  - intros p Hp.
    assert (Hneg : forall r, planar r -> signed_area2 r < 0 ->
                   convert_to_clockwise (int_polygon r) = Ok (AList (int_polygon r))).
    { intros r Hr Ha. rewrite (convert_to_clockwise_area r Hr).
      destruct (Z.eqb_spec (signed_area2 r) 0); [lia|].
      destruct (Z.ltb_spec 0 (signed_area2 r)); [lia | reflexivity]. }
    split; [apply Hneg; exact Hp|].
    intro Hpos. split; [|split; [reflexivity|]].
    + rewrite (convert_to_clockwise_area p Hp).
      destruct (Z.eqb_spec (signed_area2 p) 0); [lia|].
      destruct (Z.ltb_spec 0 (signed_area2 p)); [reflexivity | lia].
    + cbn [elements]. rewrite int_polygon_rev.
      apply Hneg; [apply planar_rev; exact Hp|].
      rewrite signed_area2_rev. lia.
Qed.

Lemma convert_to_clockwise_by_sum_witness :
  let p := [[0; 0]; [1; 0]; [1; 1]; [0; 1]] in
  planar p
  /\ cyclic_sum p = -2
  /\ predecessor_sum (int_polygon p) = Ok (PyInt 2)
  /\ convert_to_clockwise (int_polygon p) = Ok (Reversed (int_polygon p))
  /\ predecessor_sum near_line = Ok (PyFloat 0x1p-53)
  /\ convert_to_clockwise near_line = Ok (Reversed near_line).
Proof.
  intro p.
  assert (Hp : planar p) by (repeat constructor).
  pose proof (proj2 convert_to_clockwise_by_sum p Hp) as (_ & Hs & Hc).
  pose proof (proj1 convert_to_clockwise_by_sum pynum pynum_number near_line)
    as (_ & Hf).
  split; [exact Hp|]. split; [reflexivity|]. split; [exact Hs|].
  split; [exact Hc|]. split; [vm_compute; reflexivity|].
  rewrite Hf. vm_compute. reflexivity.
Defined.

(** C2 as stated fails on the counter-clockwise unit square and on the
    clockwise one: the sum of the specification is -2 on the first, which
    the code reverses, and 2 on the second, which the code leaves as it is.
    On floats the sum of the code need not be the opposite of the sum of
    the specification: on the reversed [near_line] the latter is [2 ^ -53]
    and the former is 0, and the code stops the run. *)
Lemma winding_signs_exchanged :
  let ccw := int_polygon [[0; 0]; [1; 0]; [1; 1]; [0; 1]] in
  let cw := int_polygon [[0; 0]; [0; 1]; [1; 1]; [1; 0]] in
  cyclic_sum_spec ccw = Ok (PyInt (-2))
  /\ convert_to_clockwise ccw = Ok (Reversed ccw)
  /\ ensureClockwise_spec ccw = Ok ccw
  /\ cyclic_sum_spec cw = Ok (PyInt 2)
  /\ convert_to_clockwise cw = Ok (AList cw)
  /\ ensureClockwise_spec cw = Ok (rev cw)
  /\ cyclic_sum_spec (rev near_line) = Ok (PyFloat 0x1p-53)
  /\ pol_sum (rev near_line) = Ok (PyFloat 0)
  /\ convert_to_clockwise (rev near_line) = Raise SystemExit
  /\ elements (Reversed ccw) <> ccw /\ rev cw <> cw.
Proof. vm_compute. repeat split; discriminate. Qed.

Lemma winding_idempotent_witness :
  let p := [[0; 0]; [1; 0]; [1; 1]; [0; 1]] in
  planar p /\ 0 < signed_area2 p
  /\ convert_to_clockwise (int_polygon p) = Ok (Reversed (int_polygon p))
  /\ convert_to_clockwise (Reversed (int_polygon p)) = Raise TypeError
  /\ convert_to_clockwise (elements (Reversed (int_polygon p)))
     = Ok (AList (elements (Reversed (int_polygon p))))
  /\ convert_to_clockwise near_line = Ok (Reversed near_line)
  /\ convert_to_clockwise (Reversed near_line) = Raise TypeError.
Proof.
  intro p.
  assert (Hp : planar p) by (repeat constructor).
  assert (Ha : 0 < signed_area2 p) by (vm_compute; reflexivity).
  assert (En : convert_to_clockwise near_line = Ok (Reversed near_line))
    by (vm_compute; reflexivity).
  split; [exact Hp|]. split; [exact Ha|].
  destruct (proj2 (proj2 winding_idempotent p Hp) Ha) as (H1 & H2 & H3).
  split; [exact H1|]. split; [exact H2|]. split; [exact H3|].
  split; [exact En|].
  destruct (proj1 winding_idempotent pynum pynum_number near_line
              (Reversed near_line) En) as [[Hq _]|[_ Ht]];
    [discriminate Hq | exact Ht].
Defined.

(** C6 as stated fails.  On the counter-clockwise unit square the result
    of the normalization is an iterator, and the normalization of that
    result raises [TypeError].  On floats it fails for the list of the
    elements as well: the three points [near_line] give the sum
    [2 ^ -53], so that the order is reversed, and the reversed list gives
    the sum 0, so that a second normalization stops the run. *)
Lemma winding_not_idempotent :
  let ccw := int_polygon [[0; 0]; [1; 0]; [1; 1]; [0; 1]] in
  convert_to_clockwise ccw = Ok (Reversed ccw)
  /\ convert_to_clockwise (Reversed ccw) = Raise TypeError
  /\ pol_sum near_line = Ok (PyFloat 0x1p-53)
  /\ convert_to_clockwise near_line = Ok (Reversed near_line)
  /\ pol_sum (elements (Reversed near_line)) = Ok (PyFloat 0)
  /\ convert_to_clockwise (elements (Reversed near_line)) = Raise SystemExit.
Proof. vm_compute. repeat split. Qed.
(** ** Stores that [new_item] built *)

Lemma fresh_store_lines (w : list string) :
  fresh_store w -> Forall (fun l => exists i t, l = record_line i t) w.
Proof.
  induction 1 as [|w i t _ IH _]; [constructor|].
  apply Forall_app. split; [exact IH|].
  constructor; [exists i, t; reflexivity | constructor].
Qed.

Lemma matches_nil_In (t : string) (w : list string) (l : string) :
  matches t w = [] -> In l w -> ends_with t l = false.
Proof.
  unfold matches. intros Hm Hin.
  destruct (ends_with t l) eqn:E; [|reflexivity].
  assert (Hf : In l (filter (ends_with t) w)) by (apply filter_In; auto).
  rewrite Hm in Hf. contradiction.
Qed.

Lemma fresh_store_new_item (t : string) :
  preserves (fun s => fresh_store (work_array s)) (new_item t).
Proof.
  intros s Hs.
  destruct (new_item_cases t s) as [(x & rest & _ & E)|[Hm E]]; rewrite E.
  - exact Hs.
  - unfold stored; cbn [snd work_array]. constructor; assumption.
Qed.

Lemma new_item_found (t : string) (s : state) :
  fresh_store (work_array s) ->
  exists i, new_item t s = (Ok i, snd (new_item t s))
            /\ exists l, In l (work_array (snd (new_item t s)))
                         /\ ends_with t l = true /\ line_index l = Ok i.
Proof.
  intro Hs.
  destruct (new_item_cases t s) as [(x & rest & Hm & E)|[Hm E]]; rewrite E.
  - assert (Hx : In x (matches t (work_array s))) by (rewrite Hm; left; reflexivity).
    apply filter_In in Hx. destruct Hx as [Hin Hends].
    pose proof (fresh_store_lines _ Hs) as Hl. rewrite Forall_forall in Hl.
    destruct (Hl x Hin) as (i & t' & ->).
    exists i. rewrite line_index_record_line. split; [reflexivity|].
    exists (record_line i t'). cbn [snd].
    repeat split; [exact Hin | exact Hends | apply line_index_record_line].
  - exists (current_index s). split; [reflexivity|].
    exists (record_line (current_index s) t). cbn [snd]. unfold stored; cbn [work_array].
    repeat split.
    + apply in_or_app. right. left. reflexivity.
    + apply ends_with_record_line.
    + apply line_index_record_line.
Qed.

Lemma string_app_assoc (a b c : string) : (a ++ b) ++ c = a ++ b ++ c.
Proof. induction a as [|x a IH]; [reflexivity|]. cbn [append]. rewrite IH. reflexivity. Qed.

Lemma step_list_fold (l : list Z) (acc : string) (a : Z) :
  fold_left (fun acc j => acc ++ "#" ++ str_int j ++ ",") l acc ++ "#" ++ str_int a
  = acc ++ String.concat "," (map (fun j => "#" ++ str_int j) (l ++ [a])).
Proof.
  revert acc. induction l as [|j l IH]; intro acc; [reflexivity|].
  cbn [fold_left]. rewrite IH. rewrite string_app_assoc.
  cbn [app map]. 
  destruct (map (fun j0 => "#" ++ str_int j0) (l ++ [a])) as [|y ys] eqn:E.
  - apply (f_equal (@List.length string)) in E.
    rewrite length_map, length_app in E. cbn [List.length] in E. lia.
  - cbn [String.concat].
    change (String "#" (str_int j ++ "," ++ ?r)) with ("#" ++ str_int j ++ "," ++ r).
    rewrite !string_app_assoc. reflexivity.
Qed.

Lemma to_step_list_ok (l : list Z) (txt : string) :
  to_step_list (IdList l) = Ok txt ->
  l <> [] /\ txt = String.concat "," (map (fun j => "#" ++ str_int j) l).
Proof.
  destruct l as [|x l]; [discriminate|]. intro E.
  assert (Hl : x :: l <> []) by discriminate. split; [exact Hl|].
  destruct (exists_last Hl) as (l' & a & El). rewrite El in *.
  unfold to_step_list, index_last, index in E.
  rewrite removelast_last, rev_app_distr in E. cbn [rev app nth_error bindR] in E.
  rewrite step_list_fold in E. injection E as <-. reflexivity.
Qed.

Lemma new_item_line (t : string) (s s' : state) (i : Z) :
  fresh_store (work_array s) -> new_item t s = (Ok i, s') ->
  fresh_store (work_array s')
  /\ exists line, In line (work_array s')
                  /\ ends_with t line = true /\ line_index line = Ok i.
Proof.
  intros Hs E.
  pose proof (fresh_store_new_item t s Hs) as Hf. rewrite E in Hf.
  split; [exact Hf|].
  destruct (new_item_found t s Hs) as (i' & E' & Hl).
  rewrite E in E', Hl. cbn [snd] in Hl. injection E' as <-. exact Hl.
Qed.

Lemma part_body_index_new_item (n : Z) (t : string) :
  preserves (fun s => part_body_index s = n) (new_item t).
Proof.
  intros s Hs.
  destruct (new_item_cases t s) as [(x & rest & _ & E)|[_ E]]; rewrite E;
    exact Hs.
Qed.

Lemma new_item_run_part_body_index (t : string) (s s' : state) (r : result Z) :
  new_item t s = (r, s') -> part_body_index s' = part_body_index s.
Proof.
  intro E.
  pose proof (part_body_index_new_item (part_body_index s) t s eq_refl) as Hn.
  rewrite E in Hn. exact Hn.
Qed.

Lemma later_preserved_new_item (s0 : state) (t : string) :
  preserves (later s0) (new_item t).
Proof.
  intros s Hs. apply (later_trans s0 s _ Hs). apply new_item_later.
Qed.

Lemma later_preserved_counter (s0 : state) (i : Z) :
  preserves (later s0) (set_part_body_index i).
Proof. intros s Hs. exact Hs. Qed.

Lemma fresh_preserved_counter (i : Z) :
  preserves (fun s => fresh_store (work_array s)) (set_part_body_index i).
Proof. intros s Hs. exact Hs. Qed.

Lemma stored_as_later (t : string) (i : Z) (s s' : state) :
  later s s' -> stored_as t i s -> stored_as t i s'.
Proof.
  intros [more Hl] (line & Hin & He & Hi). exists line.
  split; [|split; assumption]. rewrite Hl. apply in_or_app. left. exact Hin.
Qed.

(** What a builder keeps is kept by a call of it that returns. *)
Lemma preserves_run {A : Type} (P : state -> Prop) (m : M A) (s s' : state) (a : A) :
  preserves P m -> P s -> m s = (Ok a, s') -> P s'.
Proof. intros Hm Hs E. specialize (Hm s Hs). rewrite E in Hm. exact Hm. Qed.

Lemma bind_lift_ok {A B : Type} (a : A) (k : A -> M B) (s : state) :
  bind (lift (Ok a)) k s = k a s.
Proof. reflexivity. Qed.

Lemma bind_cong_l {A B : Type} (m1 m2 : M A) (k : A -> M B) (s : state) :
  m1 s = m2 s -> bind m1 k s = bind m2 k s.
Proof. intro E. unfold bind. rewrite E. reflexivity. Qed.

(** [returns P m Q]: a call of [m] from a state with [P] that returns [a]
    ends in a state with [Q a]. *)
Lemma returns_bind {A B : Type} (P : state -> Prop) (Q : B -> state -> Prop)
    (m : M A) (k : A -> M B) :
  preserves P m ->
  (forall a s b s', P s -> k a s = (Ok b, s') -> Q b s') ->
  forall s b s', P s -> bind m k s = (Ok b, s') -> Q b s'.
Proof.
  intros Hm Hk s b s' Hs E.
  apply bind_ok in E. destruct E as (a & s1 & E1 & E2).
  apply (Hk a s1 b s'); [apply (preserves_run P m s s1 a Hm Hs E1) | exact E2].
Qed.
(** ** Claims about the pipeline *)

Lemma mapR_In_raise {A B : Type} (f : A -> result B) (l : list A) (x : A) :
  In x l -> (exists e, f x = Raise e) -> exists e, mapR f l = Raise e.
Proof.
  intros Hin [e He]. induction l as [|a l IH]; [contradiction|].
  simpl. destruct Hin as [->|Hin].
  - rewrite He. exists e. reflexivity.
  - destruct (f a) as [b|e']; [|exists e'; reflexivity].
    destruct (IH Hin) as [e' ->]. exists e'. reflexivity.
Qed.

Lemma mapR_In_ok {A B : Type} (f : A -> result B) (l : list A) (bs : list B)
    (x : A) :
  mapR f l = Ok bs -> In x l -> exists b, f x = Ok b /\ In b bs.
Proof.
  revert bs. induction l as [|a l IH]; intros bs E Hin; [contradiction|].
  simpl in E. destruct (f a) as [b|] eqn:Ea; [|discriminate].
  destruct (mapR f l) as [bs'|]; [|discriminate].
  simpl in E. inversion E; subst.
  destruct Hin as [->|Hin].
  - exists b. split; [exact Ea | left; reflexivity].
  - destruct (IH bs' eq_refl Hin) as (b' & Hb & Hin'). exists b'.
    split; [exact Hb | right; exact Hin'].
Qed.

Section PipelineClaims.

Context {num : Type} `{PyNumber num} `{FileSystem}.

Lemma advanced_face_stored (bound plane : Z) (s s' : state) (f : Z) :
  fresh_store (work_array s) ->
  advanced_face (OneId bound) plane (SBool true) s = (Ok f, s') ->
  stored_as (face_text bound plane) f s'.
Proof.
  intros Hs E. unfold advanced_face in E. cbn [to_step_list] in E.
  rewrite bind_lift_ok in E.
  apply (new_item_line _ _ _ _ Hs) in E. exact (proj2 E).
Qed.

Lemma advanced_face_0_stored (vs : list vec) (z : vec) (s s' : state) (f : Z) :
  fresh_store (work_array s) ->
  advanced_face_0 vs z (SBool true) (SBool true) s = (Ok f, s') ->
  fresh_store (work_array s') /\ later s s'
  /\ exists bound plane, stored_as (face_text bound plane) f s'.
Proof.
  intros Hs E.
  split; [apply (preserves_run _ _ s s' f
                   (preserves_advanced_face_0 _ fresh_store_new_item vs z _ _) Hs E)|].
  split; [apply (preserves_run (later s) _ s s' f
                   (preserves_advanced_face_0 _ (later_preserved_new_item s) vs z _ _)
                   (later_refl s) E)|].
  revert s f s' Hs E. unfold advanced_face_0.
  pose proof fresh_store_new_item as Hn.
  apply returns_bind; [apply preserves_lift|]. intros [|];
    (apply returns_bind;
     [apply preserves_edge_loop_1; exact Hn|]; intro fob;
     apply returns_bind; [apply preserves_lift|]; intro frame;
     apply returns_bind;
     [unfold axis2_placement_3d; auto 30 with builders|]; intro a;
     apply returns_bind; [unfold plane; auto with builders|]; intro pl;
     intros s f s' Hs E; exists fob, pl;
     apply (advanced_face_stored fob pl s s' f Hs E)).
Qed.

Lemma zface_stored (v1 v2 : vec) (gd : list num) (s s' : state) (f : Z) :
  fresh_store (work_array s) ->
  zface v1 v2 gd s = (Ok f, s') ->
  fresh_store (work_array s') /\ later s s'
  /\ exists bound plane, stored_as (face_text bound plane) f s'.
Proof.
  intros Hs E. unfold zface in E.
  apply bind_ok in E. destruct E as (z_neg & s0 & E0 & E).
  apply lift_ok in E0. destruct E0 as [_ ->].
  apply bind_ok in E. destruct E as (z_pos & s0 & E0 & E).
  apply lift_ok in E0. destruct E0 as [_ ->].
  apply bind_ok in E. destruct E as (hint & s0 & E0 & E).
  apply lift_ok in E0. destruct E0 as [_ ->].
  apply (advanced_face_0_stored _ _ s s' f Hs E).
Qed.

Lemma sides_stored (gd : list num) (l : list (vec * vec)) (s s' : state)
    (sides : list Z) :
  fresh_store (work_array s) ->
  mapM (fun p => zface (fst p) (snd p) gd) l s = (Ok sides, s') ->
  fresh_store (work_array s') /\ later s s'
  /\ Forall (fun f => exists bound plane, stored_as (face_text bound plane) f s')
            sides.
Proof.
  revert s sides. induction l as [|p l IH]; intros s sides Hs E.
  - injection E as <- <-. split; [exact Hs|]. split; [apply later_refl | constructor].
  - cbn [mapM] in E.
    apply bind_ok in E. destruct E as (f & s1 & E1 & E).
    apply bind_ok in E. destruct E as (fs & s2 & E2 & E).
    injection E as <- <-.
    destruct (zface_stored _ _ _ _ _ _ Hs E1) as (F1 & L1 & bound & plane & Hf).
    destruct (IH s1 fs F1 E2) as (F2 & L2 & Hfs).
    split; [exact F2|]. split; [apply (later_trans _ _ _ L1 L2)|].
    constructor; [|exact Hfs].
    exists bound, plane. apply (stored_as_later _ _ _ _ L2 Hf).
Qed.

Lemma new_item_adds (t : string) (s s' : state) (i : Z) :
  new_item t s = (Ok i, s') -> adds_at_most (record_line i t) s s'.
Proof.
  intro E.
  destruct (new_item_cases t s) as [(x & rest & _ & E')|[_ E']];
    rewrite E' in E.
  - injection E as _ <-. left. reflexivity.
  - injection E as <- <-. right. reflexivity.
Qed.

Lemma closed_shell_stored (faces : list Z) (s s' : state) (shell : Z) :
  fresh_store (work_array s) ->
  closed_shell faces s = (Ok shell, s') ->
  fresh_store (work_array s') /\ later s s'
  /\ stored_as (shell_text faces) shell s'
  /\ adds_at_most (record_line shell (shell_text faces)) s s'.
Proof.
  intros Hs E. unfold closed_shell in E.
  apply bind_ok in E. destruct E as (txt & s0 & E0 & E).
  apply lift_ok in E0. destruct E0 as [Et ->].
  apply to_step_list_ok in Et. destruct Et as [_ ->].
  split; [apply (proj1 (new_item_line _ _ _ _ Hs E))|].
  split; [|split; [apply (proj2 (new_item_line _ _ _ _ Hs E))
                  | apply (new_item_adds _ _ _ _ E)]].
  replace s' with (snd (new_item (shell_text faces) s))
    by (unfold shell_text; rewrite E; reflexivity).
  apply new_item_later.
Qed.

Lemma manifold_solid_brep_stored (shell : Z) (s s' : state) (solid : Z) :
  fresh_store (work_array s) ->
  manifold_solid_brep shell s = (Ok solid, s') ->
  stored_as (solid_text (part_body_index s) shell) solid s'
  /\ adds_at_most (record_line solid (solid_text (part_body_index s) shell)) s s'.
Proof.
  intros Hs E. unfold manifold_solid_brep in E.
  apply bind_ok in E. destruct E as (pbi & s1 & E1 & E).
  injection E1 as <- <-.
  apply bind_ok in E. destruct E as (msb & s2 & E2 & E).
  destruct (new_item_line _ _ _ _ Hs E2) as [_ (line & Hin & He & Hi)].
  pose proof (new_item_adds _ _ _ _ E2) as Ha.
  apply bind_ok in E. destruct E as (pbi' & s3 & E3 & E).
  injection E3 as <- <-.
  apply bind_ok in E. destruct E as ([] & s4 & E4 & E).
  injection E4 as <-. injection E as <- <-.
  split; [exists line; cbn [work_array]; repeat split; assumption|].
  exact Ha.
Qed.


Lemma checks_raise (a b c : pyval num) (e : exn) (s : state) :
  checks a b c = Raise e -> generate_assembly a b c s = (Raise e, s).
Proof.
  unfold checks, generate_assembly, bind, lift. intro E.
  destruct (check_coefficient c) as [k|]; [|inversion E; reflexivity].
  destruct (check_interval b) as [depths|]; [|inversion E; reflexivity].
  destruct (check_polygons a) as [polys|]; [|inversion E; reflexivity].
  cbn [bindR] in *.
  destruct (mapR (mapR (fun v => coords_of (convert_3d v))) polys) as [polys3|];
    [|inversion E; reflexivity].
  cbn [bindR] in *.
  destruct (mapR (fun x : list vec => convert_to_clockwise x) polys3) as [cw|];
    [|inversion E; reflexivity].
  cbn [bindR] in *.
  destruct (mapR (fun part => mapR (mapR (scale k)) (elements part)) cw)
    as [scaled|]; [|inversion E; reflexivity].
  cbn [bindR] in *.
  destruct (mapR (scale k) depths) as [depths'|];
    [discriminate | inversion E; reflexivity].
Qed.

(** When the checks are passed, the run is the building of the parts from
    the scaled polygons, of the assembly, and the writing. *)
Lemma checks_ok (a b c : pyval num) (scaled : list (list vec)) (depths' : list num)
    (s : state) :
  checks a b c = Ok (scaled, depths') ->
  generate_assembly a b c s
  = (part_list <- mapM (fun x => generate_part x depths') scaled ;;
     _ <- part_2_assembly part_list ;;
     write_output) s.
Proof.
  unfold checks, generate_assembly. intro E.
  destruct (check_coefficient c) as [k|]; [|discriminate].
  destruct (check_interval b) as [depths|]; [|discriminate].
  destruct (check_polygons a) as [polys|]; [|discriminate].
  cbn [bindR] in E. rewrite !bind_lift_ok.
  destruct (mapR (mapR (fun v => coords_of (convert_3d v))) polys) as [polys3|];
    [|discriminate].
  cbn [bindR] in E. rewrite bind_lift_ok.
  destruct (mapR (fun x : list vec => convert_to_clockwise x) polys3) as [cw|];
    [|discriminate].
  cbn [bindR] in E. rewrite bind_lift_ok.
  destruct (mapR (fun part => mapR (mapR (scale k)) (elements part)) cw)
    as [sc|]; [|discriminate].
  cbn [bindR] in E. rewrite bind_lift_ok.
  destruct (mapR (scale k) depths) as [ds|]; [|discriminate].
  cbn [bindR] in E. rewrite bind_lift_ok. injection E as -> ->. reflexivity.
Qed.

(** C8.  With [z1 > z2] the interval passes the checks as [[z2, z1]], and
    the run is the run on the interval [[z2, z1]]. *)
Theorem interval_swapped `{!PyOrder num} (polys : pyval num) (z1 z2 : num)
    (k : pyval num) (s : state) :
  num_gtb z1 z2 = true ->
  check_interval (VList [VNum z1; VNum z2]) = Ok [z2; z1]
  /\ generate_assembly polys (VList [VNum z1; VNum z2]) k s
     = generate_assembly polys (VList [VNum z2; VNum z1]) k s.
Proof.
  intro Hgt.
  assert (E1 : check_interval (VList [VNum z1; VNum z2]) = Ok [z2; z1]).
  { unfold check_interval, index. cbn.
    rewrite (gtb_not_eqb z1 z2 Hgt), Hgt. reflexivity. }
  assert (E2 : check_interval (VList [VNum z2; VNum z1]) = Ok [z2; z1]).
  { unfold check_interval, index. cbn.
    rewrite (gtb_not_eqb_sym z1 z2 Hgt), (gtb_asym z1 z2 Hgt). reflexivity. }
  split; [exact E1|].
  unfold generate_assembly. rewrite E1, E2. reflexivity.
Qed.

Lemma check_vertex_raises (v : pyval num) :
  components v = None
  \/ (exists cs, components v = Some cs
                 /\ (cs = [] \/ (List.length cs < 2 \/ 3 < List.length cs)%nat
                     \/ exists c, In c cs /\ is_number c = false)) ->
  exists e, check_vertex v = Raise e.
Proof.
  unfold check_vertex.
  intros [Hn|(cs & Hc & Hbad)].
  - destruct v as [|str|n|l|l]; try discriminate.
    + exists SystemExit. reflexivity.
    + cbn [falsy py_len py_iter].
      destruct (String.eqb str ""); [exists SystemExit; reflexivity|].
      cbn [bindR].
      destruct ((String.length str <? 2)%nat || (3 <? String.length str)%nat) eqn:El;
        [exists SystemExit; reflexivity|].
      destruct str as [|c str]; [discriminate|].
      exists SystemExit. reflexivity.
    + cbn [falsy py_len].
      destruct (num_eqb n (of_int 0)); eexists; reflexivity.
  - assert (Hgen : exists e,
               (if match cs with [] => true | _ => false end then exit
                else n <~ Ok (List.length cs) ;;
                     if ((n <? 2) || (3 <? n))%nat then exit
                     else cs' <~ Ok cs ;; _ <~ mapR expect_number cs' ;; Ok tt)
               = Raise e).
    { destruct Hbad as [->|[Hlen|(c & Hin & Hc')]].
      - exists SystemExit. reflexivity.
      - destruct cs as [|c0 cs]; [exists SystemExit; reflexivity|].
        cbn [bindR].
        replace ((List.length (c0 :: cs) <? 2)%nat || (3 <? List.length (c0 :: cs))%nat)
          with true; [exists SystemExit; reflexivity|].
        symmetry. apply orb_true_iff.
        destruct Hlen; [left; apply Nat.ltb_lt | right; apply Nat.ltb_lt]; assumption.
      - destruct cs as [|c0 cs]; [contradiction|].
        cbn [bindR].
        destruct ((List.length (c0 :: cs) <? 2)%nat || (3 <? List.length (c0 :: cs))%nat);
          [exists SystemExit; reflexivity|].
        destruct (mapR_In_raise expect_number (c0 :: cs) c Hin) as [e He].
        { destruct c; try discriminate; exists SystemExit; reflexivity. }
        rewrite He. exists e. reflexivity. }
    destruct v as [|str|n|l|l]; try discriminate;
      inversion Hc; subst; exact Hgen.
Qed.

Lemma check_polygon_ok (p : pyval num) (vs : list (pyval num)) :
  check_polygon p = Ok vs ->
  p = VList vs /\ forall v, In v vs -> exists u, check_vertex v = Ok u.
Proof.
  unfold check_polygon. destruct (falsy p); [discriminate|].
  destruct p as [| | |l|]; try discriminate.
  destruct (mapR check_vertex l) as [us|] eqn:E; [|discriminate].
  cbn [bindR]. intro E'. inversion E'; subst. split; [reflexivity|].
  intros v Hv. destruct (mapR_In_ok _ _ _ v E Hv) as (u & Hu & _).
  exists u. exact Hu.
Qed.

Lemma check_polygons_ok (a : pyval num) (polys : list (list (pyval num))) :
  check_polygons a = Ok polys ->
  exists ps, a = VList ps /\ ps <> []
             /\ mapR check_polygon ps = Ok polys.
Proof.
  unfold check_polygons. destruct a as [| | |ps|]; try discriminate.
  destruct ps as [|p ps]; [discriminate|].
  intro E. exists (p :: ps). repeat split; [discriminate | exact E].
Qed.

Lemma check_coefficient_ok (c : pyval num) (k : num) :
  check_coefficient c = Ok k -> c = VNum k /\ num_eqb k (of_int 0) = false.
Proof.
  unfold check_coefficient. destruct c as [| |n| |]; try discriminate.
  cbn [expect_number bindR].
  destruct (num_eqb n (of_int 0)) eqn:En; [discriminate|].
  intro E. inversion E; subst. split; [reflexivity | exact En].
Qed.

Lemma check_interval_ok (b : pyval num) (depths : list num) :
  check_interval b = Ok depths ->
  exists l nums, b = VList l /\ mapR expect_number l = Ok nums.
Proof.
  unfold check_interval. destruct b as [| | |l|]; try discriminate.
  destruct l as [|x l]; [discriminate|].
  destruct (mapR expect_number (x :: l)) as [nums|] eqn:En; [|discriminate].
  intros _. exists (x :: l), nums. split; [reflexivity | exact En].
Qed.

Lemma check_interval_equal_bounds (z1 z2 : num) (more : list (pyval num)) :
  num_eqb z1 z2 = true ->
  exists e, check_interval (VList (VNum z1 :: VNum z2 :: more)) = Raise e.
Proof.
  intro Heq. unfold check_interval. cbn [mapR expect_number bindR].
  destruct (mapR expect_number more) as [nums|e]; [|exists e; reflexivity].
  unfold index. cbn. rewrite Heq. exists SystemExit. reflexivity.
Qed.

Lemma number_expected (v : pyval num) (n : num) :
  expect_number v = Ok n -> is_number v = true.
Proof. destruct v; try discriminate. reflexivity. Qed.

(** After the polygon checks every vertex of every polygon is a list or a
    tuple of two or three numbers. *)
Lemma checked_vertex (ps : list (pyval num)) (polys : list (list (pyval num)))
    (vs : list (pyval num)) (v : pyval num) :
  mapR check_polygon ps = Ok polys ->
  In (VList vs) ps -> In v vs ->
  exists cs, components v = Some cs /\ cs <> []
             /\ (2 <= List.length cs <= 3)%nat
             /\ forall c, In c cs -> is_number c = true.
Proof.
  intros Ep Hvs Hv.
  destruct (mapR_In_ok _ _ _ _ Ep Hvs) as (vs' & Evs & _).
  destruct (check_polygon_ok _ _ Evs) as [Eq Hall]. inversion Eq; subst vs'.
  destruct (Hall v Hv) as [u Hu].
  destruct (components v) as [cs|] eqn:Ec.
  - exists cs. split; [reflexivity|].
    assert (Hno : forall P : Prop,
               (cs = [] \/ (List.length cs < 2 \/ 3 < List.length cs)%nat
                \/ exists c, In c cs /\ is_number c = false) -> P).
    { intros P Hbad.
      destruct (check_vertex_raises v) as [e He].
      - right. exists cs. split; [exact Ec | exact Hbad].
      - rewrite He in Hu. discriminate. }
    split; [intros ->; apply Hno; left; reflexivity|].
    split.
    + destruct (Nat.lt_ge_cases (List.length cs) 2);
        [apply Hno; right; left; left; assumption|].
      destruct (Nat.lt_ge_cases 3 (List.length cs));
        [apply Hno; right; left; right; assumption|]. lia.
    + intros c Hc. destruct (is_number c) eqn:En; [reflexivity|].
      apply Hno. right; right. exists c. split; assumption.
  - destruct (check_vertex_raises v) as [e He]; [left; exact Ec|].
    rewrite He in Hu. discriminate.
Qed.

Lemma rejected_checks (a b c : pyval num) :
  rejected (VList [a; b; c]) -> exists e, checks a b c = Raise e.
Proof.
  intro Hr. unfold checks.
  destruct (check_coefficient c) as [k|e] eqn:Ek; [|exists e; reflexivity].
  destruct (check_interval b) as [depths|e] eqn:Ed; [|exists e; reflexivity].
  destruct (check_polygons a) as [polys|e] eqn:Ep; [|exists e; reflexivity].
  cbn [bindR].
  destruct (check_coefficient_ok _ _ Ek) as [-> Hk].
  destruct (check_interval_ok _ _ Ed) as (l & nums & -> & Hl).
  destruct (check_polygons_ok _ _ Ep) as (ps & -> & Hps & Hpolys).
  inversion Hr as
    [ data Hno
    | polys' i' k' Hno
    | ps' p i' k' Hin Hno
    | ps' vs v i' k' Hvs Hv Hc
    | polys' i' k' Hno
    | i' k'
    | ps' i' k' Hin
    | ps' vs v i' k' Hvs Hv Hc
    | ps' vs cs v c0 i' k' Hvs Hv Hc Hc0 Hn
    | polys' l' b0 k' Hin Hn
    | polys' i' k' Hn
    | ps' vs cs v i' k' Hvs Hv Hc Hlen
    | polys' z1 z2 more k' Heq
    | polys' i' k0 Hz
    | ps' vs p3 area i' k' Hvs Hp3 Harea Hz ]; subst.
  - exfalso. eapply Hno. reflexivity.
  - exfalso. eapply Hno. reflexivity.
  - exfalso. destruct (mapR_In_ok _ _ _ _ Hpolys Hin) as (vs & Evs & _).
    destruct (check_polygon_ok _ _ Evs) as [-> _]. eapply Hno. reflexivity.
  - exfalso.
    destruct (checked_vertex _ _ _ _ Hpolys Hvs Hv) as (cs & Hcs & _).
    congruence.
  - exfalso. eapply Hno. reflexivity.
  - exfalso. apply Hps. reflexivity.
  - exfalso. destruct (mapR_In_ok _ _ _ _ Hpolys Hin) as (vs & Evs & _).
    discriminate Evs.
  - exfalso.
    destruct (checked_vertex _ _ _ _ Hpolys Hvs Hv) as (cs & Hcs & Hne & _).
    rewrite Hc in Hcs. inversion Hcs. subst. apply Hne. reflexivity.
  - exfalso.
    destruct (checked_vertex _ _ _ _ Hpolys Hvs Hv) as (cs' & Hcs & _ & _ & Hall).
    rewrite Hc in Hcs. inversion Hcs. subst.
    rewrite (Hall c0 Hc0) in Hn. discriminate.
  - exfalso. destruct (mapR_In_ok _ _ _ _ Hl Hin) as (n & En & _).
    rewrite (number_expected _ _ En) in Hn. discriminate.
  - discriminate Hn.
  - exfalso.
    destruct (checked_vertex _ _ _ _ Hpolys Hvs Hv) as (cs' & Hcs & _ & Hlen' & _).
    rewrite Hc in Hcs. inversion Hcs. subst. lia.
  - exfalso. destruct (check_interval_equal_bounds z1 z2 more Heq) as [e He].
    rewrite He in Ed. discriminate.
  - rewrite Hz in Hk. discriminate.
  - destruct (mapR_In_ok _ _ _ _ Hpolys Hvs) as (vs' & Evs & Hin).
    destruct (check_polygon_ok _ _ Evs) as [Eq _]. inversion Eq; subst vs'.
    destruct (mapR (mapR (fun v => coords_of (convert_3d v))) polys)
      as [polys3|e] eqn:E3; [|exists e; reflexivity].
    cbn [bindR].
    destruct (mapR_In_ok _ _ _ _ E3 Hin) as (p3' & Ep3 & Hin3).
    rewrite Hp3 in Ep3. inversion Ep3; subst p3'.
    destruct (mapR_In_raise (fun x : list vec => convert_to_clockwise x)
                polys3 p3 Hin3) as [e He].
    { exists SystemExit. unfold convert_to_clockwise.
      rewrite Harea. cbn [bindR]. rewrite Hz. reflexivity. }
    rewrite He. exists e. reflexivity.
Qed.

(** C9.  A run on an input that fails one of the listed checks stops with
    an exception; no record has been stored and no output file has been
    written. *)
Theorem rejected_without_output (name : string) (d : datetime)
    (data : pyval num) :
  rejected data ->
  exists e, fst (main name d data blank) = Raise e
            /\ work_array (snd (main name d data blank)) = []
            /\ file_out (snd (main name d data blank)) = None.
Proof.
  intro Hr.
  destruct (main_shape name d data) as [(a & b & c & ->)|E].
  - destruct (rejected_checks a b c Hr) as [e He]. exists e.
    unfold main, bind. rewrite initialize_blank.
    rewrite (checks_raise a b c e _ He). repeat split.
  - rewrite E. exists SystemExit. repeat split.
Qed.

End PipelineClaims.

(** ** The checks on Python's numbers *)

Lemma float_ltb_not_eqb (f g : float) :
  PrimFloat.ltb f g = true -> PrimFloat.eqb f g = false.
Proof.
  rewrite FloatAxioms.ltb_spec, FloatAxioms.eqb_spec. unfold SFltb, SFeqb.
  destruct (SFcompare (Prim2SF f) (Prim2SF g)) as [[| |]|]; congruence.
Qed.

#[export] Instance pynum_order : PyOrder pynum.
Proof.
  split; intros a b; cbn [num_gtb num_eqb pynum_number];
    unfold py_gtb, py_eqb.
  - destruct (py_compare a b) as [[| |]|]; congruence.
  - destruct a as [x|f], b as [y|g]; cbn [py_compare].
    + rewrite (Z.compare_antisym x y). destruct (x ?= y); cbn; congruence.
    + destruct (compare_int_float x g) as [[| |]|]; cbn; congruence.
    + destruct (compare_int_float y f) as [[| |]|]; cbn; congruence.
    + destruct (PrimFloat.eqb f g); [congruence|].
      destruct (PrimFloat.ltb f g); [congruence|].
      destruct (PrimFloat.ltb g f) eqn:El; [|congruence].
      rewrite (float_ltb_not_eqb g f El). congruence.
  - destruct a as [x|f], b as [y|g]; cbn [py_compare].
    + rewrite (Z.compare_antisym x y). destruct (x ?= y); cbn; congruence.
    + destruct (compare_int_float x g) as [[| |]|]; cbn; congruence.
    + destruct (compare_int_float y f) as [[| |]|]; cbn; congruence.
    + destruct (PrimFloat.eqb f g); [congruence|].
      destruct (PrimFloat.ltb f g); [congruence|].
      destruct (PrimFloat.ltb g f) eqn:El; [|congruence].
      destruct (PrimFloat.eqb g f); congruence.
Qed.

(** ** The claims on sample inputs *)



(** The six faces of the extruded square are six different records. *)
Lemma square_has_six_faces :
  fst (af2d3d square_scaled depths_scaled started)
  = Ok [89; 120; 144; 165; 186; 206].
Proof. vm_compute. reflexivity. Qed.

Lemma interval_swapped_witness :
  num_gtb (PyInt 2) (PyInt 0) = true
  /\ check_interval (VList [int 2; int 0]) = Ok [PyInt 0; PyInt 2]
  /\ generate_assembly (VList [unit_square]) (VList [int 2; int 0]) (int 10) started
     = generate_assembly (VList [unit_square]) (VList [int 0; int 2]) (int 10) started.
Proof.
  assert (Hgt : num_gtb (PyInt 2) (PyInt 0) = true) by reflexivity.
  split; [exact Hgt|].
  exact (interval_swapped (VList [unit_square]) (PyInt 2) (PyInt 0) (int 10)
           started Hgt).
Defined.

Lemma rejected_without_output_witness :
  let data := VList [VList [unit_square]; VList [int 5; int 5]; int 1] in
  rejected data
  /\ exists e, fst (main "part_out.stp" a_date data blank) = Raise e
               /\ work_array (snd (main "part_out.stp" a_date data blank)) = []
               /\ file_out (snd (main "part_out.stp" a_date data blank)) = None.
Proof.
  intro data.
  assert (Hr : rejected data).
  { apply (rejected_equal_bounds (VList [unit_square]) (PyInt 5) (PyInt 5) []
             (int 1)). reflexivity. }
  split; [exact Hr|].
  exact (rejected_without_output "part_out.stp" a_date data Hr).
Defined.

(** The scenarios of the specification: the square with the interval
    [[0, 2]] and the coefficient 10 gives a solid of six faces on eight
    vertices between z = 0 and z = 20, written between the header and the
    footer of the scaffold;
    three vertices on a line and the interval [[5, 5]] end the run with
    [sys.exit()] before anything is stored. *)
Lemma scenario_square :
  let s := snd (main "part_out.stp" a_date square_input blank) in
  fst (main "part_out.stp" a_date square_input blank) = Ok tt
  /\ records_of "CLOSED_SHELL" s
     = [record_line 207 ("CLOSED_SHELL('Closed Shell',(#89,#120,#144,#165,#186,#206)) ;" ++ nl)]
  /\ records_of "MANIFOLD_SOLID_BREP" s
     = [record_line 208 ("MANIFOLD_SOLID_BREP('PartBody.1',#207) ;" ++ nl)]
  /\ records_of "ADVANCED_FACE" s
     = [record_line 89 ("ADVANCED_FACE('PartBody',(#83),#88,.T.) ;" ++ nl);
        record_line 120 ("ADVANCED_FACE('PartBody',(#115),#119,.T.) ;" ++ nl);
        record_line 144 ("ADVANCED_FACE('PartBody',(#140),#143,.T.) ;" ++ nl);
        record_line 165 ("ADVANCED_FACE('PartBody',(#159),#164,.T.) ;" ++ nl);
        record_line 186 ("ADVANCED_FACE('PartBody',(#180),#185,.T.) ;" ++ nl);
        record_line 206 ("ADVANCED_FACE('PartBody',(#200),#205,.T.) ;" ++ nl)]
  /\ records_of "'Vertex',(" s
     = [record_line 50 ("CARTESIAN_POINT('Vertex',(0.0,0.0,20.0)) ;" ++ nl);
        record_line 52 ("CARTESIAN_POINT('Vertex',(10.0,0.0,20.0)) ;" ++ nl);
        record_line 60 ("CARTESIAN_POINT('Vertex',(10.0,10.0,20.0)) ;" ++ nl);
        record_line 68 ("CARTESIAN_POINT('Vertex',(0.0,10.0,20.0)) ;" ++ nl);
        record_line 90 ("CARTESIAN_POINT('Vertex',(0.0,10.0,0.0)) ;" ++ nl);
        record_line 92 ("CARTESIAN_POINT('Vertex',(10.0,10.0,0.0)) ;" ++ nl);
        record_line 98 ("CARTESIAN_POINT('Vertex',(10.0,0.0,0.0)) ;" ++ nl);
        record_line 104 ("CARTESIAN_POINT('Vertex',(0.0,0.0,0.0)) ;" ++ nl)]
  /\ option_map (@List.length string) (file_out s) = Some 226%nat.
Proof. vm_compute. repeat split. Qed.

Lemma scenario_collinear :
  let data := VList [VList [VList [xy 0 0; xy 1 0; xy 2 0]];
                     VList [int 0; int 2]; int 1] in
  fst (main "part_out.stp" a_date data blank) = Raise SystemExit
  /\ work_array (snd (main "part_out.stp" a_date data blank)) = []
  /\ file_out (snd (main "part_out.stp" a_date data blank)) = None.
Proof. vm_compute. repeat split. Qed.

Lemma scenario_equal_bounds :
  let data := VList [VList [unit_square]; VList [int 5; int 5]; int 1] in
  fst (main "part_out.stp" a_date data blank) = Raise SystemExit
  /\ work_array (snd (main "part_out.stp" a_date data blank)) = []
  /\ file_out (snd (main "part_out.stp" a_date data blank)) = None.
Proof. vm_compute. repeat split. Qed.

(** * Further properties *)

(** ** The store as [new_item] builds it *)

(** X1.  On a store that [new_item] built, [new_item] does not fail: it
    answers with an id, the store stays one that [new_item] built, and the
    store then holds a line that ends with the text and carries that id. *)
Theorem new_item_answers (t : string) (s : state) :
  fresh_store (work_array s) ->
  exists i, fst (new_item t s) = Ok i
            /\ fresh_store (work_array (snd (new_item t s)))
            /\ exists l, In l (work_array (snd (new_item t s)))
                         /\ ends_with t l = true /\ line_index l = Ok i.
Proof.
  intro Hs. destruct (new_item_found t s Hs) as (i & E & Hl).
  exists i. split; [rewrite E; reflexivity|].
  split; [apply (fresh_store_new_item t s Hs) | exact Hl].
Qed.

Lemma new_item_answers_witness :
  fresh_store (work_array with_plane)
  /\ exists i, fst (new_item ("#7) ;" ++ nl) with_plane) = Ok i
               /\ fresh_store (work_array (snd (new_item ("#7) ;" ++ nl) with_plane)))
               /\ exists l, In l (work_array (snd (new_item ("#7) ;" ++ nl) with_plane)))
                            /\ ends_with ("#7) ;" ++ nl) l = true
                            /\ line_index l = Ok i.
Proof.
  assert (H0 : fresh_store (work_array with_plane)).
  { exact (@fresh_snoc [] 50 ("PLANE('',#7) ;" ++ nl) fresh_nil eq_refl). }
  split; [exact H0|].
  exact (new_item_answers ("#7) ;" ++ nl) with_plane H0).
Defined.

(** On the store that holds the one line [#50=PLANE('',#7) ;], the text
    [#7) ;] ends that line: [new_item] answers 50 and stores nothing, and
    for the text of another plane it stores a second line under 51. *)
Lemma new_item_on_stored_plane :
  work_array with_plane = [record_line 50 ("PLANE('',#7) ;" ++ nl)]
  /\ new_item ("#7) ;" ++ nl) with_plane = (Ok 50, with_plane)
  /\ fst (new_item ("PLANE('',#8) ;" ++ nl) with_plane) = Ok 51
  /\ work_array (snd (new_item ("PLANE('',#8) ;" ++ nl) with_plane))
     = [record_line 50 ("PLANE('',#7) ;" ++ nl);
        record_line 51 ("PLANE('',#8) ;" ++ nl)].
Proof. vm_compute. repeat split. Qed.

(** *** Payloads *)

Section Payloads.

Import DecimalString.

Lemma payload_numeral (d : Decimal.uint) (t : string) :
  payload (NilEmpty.string_of_uint d ++ String "=" t) = t.
Proof.
  induction d; [reflexivity | ..];
    cbn [NilEmpty.string_of_uint append payload]; exact IHd.
Qed.

Lemma payload_record_line (i : Z) (t : string) : payload (record_line i t) = t.
Proof.
  unfold record_line, str_int.
  change ("#" ++ NilZero.string_of_int (Z.to_int i) ++ "=" ++ t)
    with (String "#" (NilZero.string_of_int (Z.to_int i) ++ String "=" t)).
  cbn [payload]. change (Ascii.eqb "#" "=") with false. cbv iota.
  destruct (Z.to_int i) as [d|d] eqn:E;
    assert (Hd : d <> Decimal.Nil) by (apply (to_int_nonnil i d); auto);
    cbn [NilZero.string_of_int]; rewrite (nilzero_numeral d Hd).
  - apply payload_numeral.
  - cbn [append payload]. change (Ascii.eqb "-" "=") with false. cbv iota.
    apply payload_numeral.
Qed.

End Payloads.

Lemma NoDup_snoc {A : Type} (l : list A) (a : A) :
  NoDup l -> ~ In a l -> NoDup (l ++ [a]).
Proof.
  intros Hl Ha. induction Hl as [|x l Hx Hl IH]; cbn [app].
  - constructor; [intros [] | constructor].
  - constructor.
    + intro Hin. apply in_app_or in Hin. destruct Hin as [Hin|[->|[]]].
      * contradiction.
      * apply Ha. left. reflexivity.
    + apply IH. intro Hin. apply Ha. right. exact Hin.
Qed.

Lemma fresh_store_payloads (w : list string) :
  fresh_store w -> NoDup (map payload w).
Proof.
  induction 1 as [|w i t Hw IH Hm]; [constructor|].
  rewrite map_app. cbn [map]. rewrite payload_record_line.
  apply NoDup_snoc; [exact IH|].
  intro Hin. apply in_map_iff in Hin. destruct Hin as (l & Hp & Hl).
  pose proof (fresh_store_lines _ Hw) as Hall. rewrite Forall_forall in Hall.
  destruct (Hall l Hl) as (j & t' & ->).
  rewrite payload_record_line in Hp. subst t'.
  pose proof (matches_nil_In t w _ Hm Hl) as Hf.
  rewrite ends_with_record_line in Hf. discriminate.
Qed.

Section RunInvariants.

Context {num : Type} `{PyNumber num} `{FileSystem}.

Lemma fresh_store_main (name : string) (d : datetime) (data : pyval num) :
  fresh_store (work_array (snd (main name d data blank))).
Proof.
  destruct (main_shape name d data) as [(a & b & c & ->)|E].
  - unfold main, bind. rewrite initialize_blank.
    apply (preserves_generate_assembly (fun s => fresh_store (work_array s)) a b c).
    + apply fresh_store_new_item.
    + intros i s Hs. exact Hs.
    + intros s Hs. unfold write_output. destruct fs_open; exact Hs.
    + constructor.
  - rewrite E. constructor.
Qed.

(** X2.  Whatever the input, the records of a run were each new when they
    were stored: the store was built line by line, and the text of a line
    ends no line before it.  No two records carry the same payload. *)
Theorem records_stored_once (name : string) (d : datetime) (data : pyval num) :
  fresh_store (work_array (snd (main name d data blank)))
  /\ NoDup (map payload (work_array (snd (main name d data blank)))).
Proof.
  split; [apply fresh_store_main|].
  apply fresh_store_payloads. apply fresh_store_main.
Qed.

End RunInvariants.

(** ** The output file *)

Lemma ends_bind {A B : Type} (P Q : state -> Prop) (R : exn -> state -> Prop)
    (m : M A) (k : A -> M B) :
  preserves P m -> (forall e s, P s -> R e s) ->
  (forall a, ends P Q R (k a)) -> ends P Q R (bind m k).
Proof.
  intros Hm HR Hk s Hs. unfold bind.
  pose proof (Hm s Hs) as H1.
  destruct (m s) as [[a|e] s1]; cbn [snd] in H1.
  - apply Hk. exact H1.
  - cbn [fst snd]. apply HR. exact H1.
Qed.

Lemma unwritten_new_item (files : list string) (i : nat) (t : string) :
  preserves (unwritten files i) (new_item t).
Proof.
  intros s Hs.
  destruct (new_item_cases t s) as [(x & rest & _ & E)|[_ E]]; rewrite E;
    exact Hs.
Qed.

Section Output.

Context {num : Type} `{PyNumber num} `{FileSystem}.

(** The loop over the items: it returns when every item was taken, and it
    raises what the file system raised at the first item it refused, with
    the items before that one written. *)
Lemma write_items_cases (items written : list string) :
  match fst (write_items written items) with
  | Ok _ => snd (write_items written items) = (written ++ items)%list
  | Raise e =>
      exists done item rest,
        items = (done ++ item :: rest)%list
        /\ snd (write_items written items) = (written ++ done)%list
        /\ fs_write (written ++ done) item = Raise e
  end.
Proof.
  revert written. induction items as [|item items IH]; intro written;
    cbn [write_items].
  - cbn [fst snd]. rewrite app_nil_r. reflexivity.
  - destruct (fs_write written item) as [u|e] eqn:E.
    + specialize (IH (written ++ [item])%list).
      destruct (fst (write_items (written ++ [item]) items)) as [u'|e].
      * rewrite IH, <- app_assoc. reflexivity.
      * destruct IH as (done & it & rest & -> & Hw & Hf).
        exists (item :: done), it, rest.
        rewrite <- app_assoc in Hw, Hf. cbn [app] in Hw, Hf.
        split; [reflexivity|]. split; assumption.
    + cbn [fst snd]. exists [], item, items.
      rewrite app_nil_r. split; [reflexivity|]. split; [reflexivity | exact E].
Qed.

Lemma ends_write_output (files : list string) (i : nat) :
  ends (unwritten files i)
       (fun s => file_out s = Some (output_of files i s))
       (cut_short files i)
       write_output.
Proof.
  intros s (Hn & Hf & Hi). unfold write_output.
  destruct fs_open as [u|e]; [|left; exact Hn].
  cbn [fst snd]. rewrite Hf, Hi.
  fold (output_of files i s).
  pose proof (write_items_cases (output_of files i s) []) as Hw.
  destruct (fst (write_items [] (output_of files i s))) as [u'|e].
  - cbn [file_out]. rewrite Hw. reflexivity.
  - destruct Hw as (done & item & rest & Ho & Hw & Hr). cbn [app] in Hw, Hr.
    right. exists done, item, rest. unfold output_of at 1. cbn [work_array file_out].
    fold (output_of files i s).
    split; [exact Ho|]. split; [rewrite Hw; reflexivity | exact Hr].
Qed.

Lemma ends_generate_assembly (files : list string) (i : nat) (a b c : pyval num) :
  ends (unwritten files i)
       (fun s => file_out s = Some (output_of files i s))
       (cut_short files i)
       (generate_assembly a b c).
Proof.
  unfold generate_assembly.
  pose proof (unwritten_new_item files i) as Hn.
  assert (Hp : forall j, preserves (unwritten files i) (set_part_body_index j))
    by (intros j s Hs; exact Hs).
  assert (HR : forall e s, unwritten files i s -> cut_short files i e s)
    by (intros e s Hs; left; apply Hs).
  repeat (apply ends_bind; [apply preserves_lift | exact HR | intro]).
  apply ends_bind; [|exact HR|].
  { apply preserves_mapM. intro x. apply preserves_generate_part; assumption. }
  intro parts. apply ends_bind; [|exact HR|].
  { apply preserves_part_2_assembly. assumption. }
  intros _. apply ends_write_output.
Qed.

Lemma main_file_out (name : string) (d : datetime) (data : pyval num) :
  match fst (main name d data blank) with
  | Ok _ =>
      file_out (snd (main name d data blank))
      = Some (output_of (scaffold name d) 62 (snd (main name d data blank)))
  | Raise e => cut_short (scaffold name d) 62 e (snd (main name d data blank))
  end.
Proof.
  destruct (main_shape name d data) as [(a & b & c & ->)|E].
  - unfold main, bind. rewrite initialize_blank.
    pose proof (ends_generate_assembly (scaffold name d) 62 a b c
                  (mkState (scaffold name d) 62 [] 50 1 None)) as Hg.
    assert (Hu : unwritten (scaffold name d) 62
                   (mkState (scaffold name d) 62 [] 50 1 None))
      by (repeat split).
    exact (Hg Hu).
  - rewrite E. left. reflexivity.
Qed.

(** X3.  Whatever the input and the file system, a run that returns has
    written the scaffold's 62 lines before the marker, then the records
    of the run in the order they were stored, then the scaffold's lines
    after the marker.  A run that raises has either written nothing, or it
    was the file system that raised, at an item of this output, and the
    file holds the items before that one. *)
Theorem output_written_on_return (name : string) (d : datetime) (data : pyval num) :
  match fst (main name d data blank) with
  | Ok _ =>
      file_out (snd (main name d data blank))
      = Some (firstn 62 (scaffold name d)
              ++ work_array (snd (main name d data blank))
              ++ skipn 63 (scaffold name d))%list
  | Raise e =>
      file_out (snd (main name d data blank)) = None
      \/ exists written item rest,
           (firstn 62 (scaffold name d)
            ++ work_array (snd (main name d data blank))
            ++ skipn 63 (scaffold name d))%list
           = (written ++ item :: rest)%list
           /\ file_out (snd (main name d data blank)) = Some written
           /\ fs_write written item = Raise e
  end.
Proof. apply main_file_out. Qed.

(** ** Records are only appended *)

Lemma continues_refl (s : state) : continues s s.
Proof.
  split; [|split; reflexivity].
  exists []. rewrite app_nil_r. cbn [List.length Z.of_nat]. split; [reflexivity | lia].
Qed.

Lemma continues_new_item (s0 : state) (t : string) :
  preserves (continues s0) (new_item t).
Proof.
  intros s ((more & Hw & Hc) & Hf & Hi).
  destruct (new_item_cases t s) as [(x & rest & _ & E)|[_ E]]; rewrite E; cbn [snd].
  - split; [exists more; auto | split; assumption].
  - split; [|split; assumption].
    exists (more ++ [record_line (current_index s) t])%list.
    unfold stored; cbn [work_array current_index].
    rewrite Hw, app_assoc, length_app. cbn [List.length].
    split; [reflexivity | lia].
Qed.

(** X4.  From any state and for any arguments, returning or raising,
    [generate_assembly] leaves the records it found where they were and
    only adds after them; the counter has moved on by exactly the number
    of records added; the scaffold and the marker position are untouched. *)
Theorem generate_assembly_appends (a b c : pyval num) (s : state) :
  continues s (snd (generate_assembly a b c s)).
Proof.
  apply (preserves_generate_assembly (continues s) a b c).
  - apply continues_new_item.
  - intros i s1 Hs. exact Hs.
  - intros s1 Hs. unfold write_output. destruct fs_open; exact Hs.
  - apply continues_refl.
Qed.

(** ** The part counter *)

Lemma manifold_solid_brep_counts (c : Z) (s s' : state) (i : Z) :
  manifold_solid_brep c s = (Ok i, s') ->
  part_body_index s' = part_body_index s + 1.
Proof.
  unfold manifold_solid_brep. intro E.
  apply bind_ok in E. destruct E as (pbi & s1 & E1 & E).
  injection E1 as <- <-.
  apply bind_ok in E. destruct E as (msb & s2 & E2 & E).
  apply new_item_run_part_body_index in E2.
  apply bind_ok in E. destruct E as (pbi' & s3 & E3 & E).
  injection E3 as <- <-.
  apply bind_ok in E. destruct E as ([] & s4 & E4 & E).
  injection E4 as <-. injection E as _ <-.
  cbn [part_body_index]. lia.
Qed.

Lemma generate_part_counts (vs : list vec) (gd : list num) (s s' : state) (i : Z) :
  generate_part vs gd s = (Ok i, s') ->
  part_body_index s' = part_body_index s + 1.
Proof.
  unfold generate_part, af_list_2_part, closed_shell. intro E.
  apply bind_ok in E. destruct E as (faces & s1 & E1 & E).
  pose proof (preserves_af2d3d (fun x => part_body_index x = part_body_index s)
                (part_body_index_new_item (part_body_index s)) vs gd s eq_refl) as H1.
  rewrite E1 in H1. cbn [snd] in H1.
  apply bind_ok in E. destruct E as (cs & s2 & E2 & E).
  apply bind_ok in E2. destruct E2 as (l & s1' & El & E2).
  apply lift_ok in El. destruct El as [_ ->].
  apply new_item_run_part_body_index in E2.
  apply manifold_solid_brep_counts in E. lia.
Qed.

Lemma mapM_generate_part_counts (gd : list num) (l : list (list vec))
    (s s' : state) (parts : list Z) :
  mapM (fun x => generate_part x gd) l s = (Ok parts, s') ->
  part_body_index s' = part_body_index s + Z.of_nat (List.length l).
Proof.
  revert s parts. induction l as [|x l IH]; intros s parts E.
  - injection E as _ <-. cbn [List.length Z.of_nat]. lia.
  - cbn [mapM] in E.
    apply bind_ok in E. destruct E as (p & s1 & E1 & E).
    apply bind_ok in E. destruct E as (ps & s2 & E2 & E).
    injection E as _ <-.
    apply generate_part_counts in E1. apply IH in E2.
    cbn [List.length]. lia.
Qed.

Lemma mapR_length {A B : Type} (f : A -> result B) (l : list A) (bs : list B) :
  mapR f l = Ok bs -> List.length bs = List.length l.
Proof.
  revert bs. induction l as [|a l IH]; intros bs E; cbn [mapR] in E.
  - injection E as <-. reflexivity.
  - unfold bindR in E. destruct (f a) as [b|e]; [|discriminate].
    destruct (mapR f l) as [bs'|e]; [|discriminate].
    injection E as <-. cbn [List.length]. rewrite (IH bs' eq_refl). reflexivity.
Qed.

(** X5.  A run of [generate_assembly] that returns was given a list of
    polygons, and has moved the part counter on by one for each polygon of
    that list (equal polygons included). *)
Theorem generate_assembly_counts_parts (a b c : pyval num) (s s' : state) :
  generate_assembly a b c s = (Ok tt, s') ->
  exists ps, a = VList ps
             /\ part_body_index s' = part_body_index s + Z.of_nat (List.length ps).
Proof.
  unfold generate_assembly. intro E.
  apply bind_ok in E. destruct E as (k & s1 & E1 & E).
  apply lift_ok in E1. destruct E1 as [_ ->].
  apply bind_ok in E. destruct E as (depths & s1 & E1 & E).
  apply lift_ok in E1. destruct E1 as [_ ->].
  apply bind_ok in E. destruct E as (polys & s1 & E1 & E).
  apply lift_ok in E1. destruct E1 as [Hpolys ->].
  apply bind_ok in E. destruct E as (polys3 & s1 & E1 & E).
  apply lift_ok in E1. destruct E1 as [H3 ->].
  apply bind_ok in E. destruct E as (cw & s1 & E1 & E).
  apply lift_ok in E1. destruct E1 as [Hcw ->].
  apply bind_ok in E. destruct E as (scaled & s1 & E1 & E).
  apply lift_ok in E1. destruct E1 as [Hsc ->].
  apply bind_ok in E. destruct E as (depths' & s1 & E1 & E).
  apply lift_ok in E1. destruct E1 as [Hd ->].
  apply bind_ok in E. destruct E as (parts & s1 & E1 & E).
  apply bind_ok in E. destruct E as (asm & s2 & E2 & E).
  apply mapM_generate_part_counts in E1.
  pose proof (preserves_part_2_assembly (fun x => part_body_index x = part_body_index s1)
                (part_body_index_new_item (part_body_index s1)) parts s1 eq_refl) as H2.
  rewrite E2 in H2. cbn [snd] in H2.
  assert (Hw : part_body_index s' = part_body_index s2).
  { unfold write_output in E. destruct fs_open; [|discriminate].
    injection E as _ <-. reflexivity. }
  destruct (check_polygons_ok a polys Hpolys) as (ps & -> & _ & Hps).
  exists ps. split; [reflexivity|].
  apply mapR_length in Hps. apply mapR_length in H3. apply mapR_length in Hcw.
  apply mapR_length in Hsc.
  unfold vec in *. lia.
Qed.

End Output.


(** The square under a file name with an accented letter, in a file whose
    encoding is ASCII: the records are built, the first four items of the
    scaffold are written, and the item that carries the name is refused. *)
Lemma write_refused_at_file_name :
  let run := @main pynum _ ascii_only accented_name a_date square_input blank in
  fst run = Raise UnicodeEncodeError
  /\ file_out (snd run) = Some (firstn 4 (scaffold accented_name a_date))
  /\ List.length (work_array (snd run)) = 161%nat.
Proof. vm_compute. repeat split. Qed.
(** ** Builders that answer from the store *)

Lemma stable_ret {A : Type} (a : A) : stable (ret a).
Proof.
  intros s s1 b E. injection E as <- <-.
  split; [apply later_refl | reflexivity].
Qed.

Lemma stable_lift {A : Type} (r : result A) : stable (lift r).
Proof.
  intros s s1 a E. apply lift_ok in E. destruct E as [-> ->].
  split; [apply later_refl | reflexivity].
Qed.

Lemma stable_new_item (t : string) : stable (new_item t).
Proof.
  intros s s1 i E. split.
  - replace s1 with (snd (new_item t s)) by (rewrite E; reflexivity).
    apply new_item_later.
  - apply (new_item_stable t s s1 i E).
Qed.

Lemma stable_bind {A B : Type} (m : M A) (k : A -> M B) :
  stable m -> (forall a, stable (k a)) -> stable (bind m k).
Proof.
  intros Hm Hk s s' b E.
  apply bind_ok in E. destruct E as (a & s1 & E1 & E2).
  destruct (Hm s s1 a E1) as [L1 S1].
  destruct (Hk a s1 s' b E2) as [L2 S2].
  split; [apply (later_trans s s1 s' L1 L2)|].
  intros s2 L. rewrite (bind_run m k s2 s2 a).
  - apply S2. exact L.
  - apply S1. apply (later_trans s1 s' s2 L2 L).
Qed.

Lemma stable_mapM {A B : Type} (f : A -> M B) (l : list A) :
  (forall a, stable (f a)) -> stable (mapM f l).
Proof.
  intro Hf. induction l as [|a l IH]; cbn [mapM].
  - apply stable_ret.
  - apply stable_bind; [apply Hf|]. intro b.
    apply stable_bind; [apply IH|]. intro bs. apply stable_ret.
Qed.

Create HintDb stability discriminated.

#[export] Hint Resolve stable_ret stable_lift stable_new_item stable_bind
  stable_mapM : stability.

Section Stability.

Context {num : Type} `{PyNumber num} `{FileSystem}.

Lemma stable_vertex (c : vec) : stable (vertex c).
Proof. unfold vertex. auto 30 with stability. Qed.

Lemma stable_line (o d : vec) : stable (line o d).
Proof. unfold line. auto 30 with stability. Qed.

#[local] Hint Resolve stable_vertex stable_line : stability.

Lemma stable_edge_curve_0 (a b : vec) (ss : sense) : stable (edge_curve_0 a b ss).
Proof. unfold edge_curve_0, edge_curve. auto 30 with stability. Qed.

#[local] Hint Resolve stable_edge_curve_0 : stability.

Lemma stable_edge_loop_1 (vs : list vec) (ss : sense) : stable (edge_loop_1 vs ss).
Proof.
  unfold edge_loop_1, edge_loop_0, edge_loop, face_outer_bound, oriented_edge.
  auto 30 with stability.
Qed.

#[local] Hint Resolve stable_edge_loop_1 : stability.

Lemma stable_advanced_face_0 (vs : list vec) (z : vec) (s1 s2 : sense) :
  stable (advanced_face_0 vs z s1 s2).
Proof.
  unfold advanced_face_0, advanced_face, axis2_placement_3d, plane.
  apply stable_bind; [auto with stability|]. intros [|]; auto 30 with stability.
Qed.

#[local] Hint Resolve stable_advanced_face_0 : stability.

Lemma stable_af2d3d (vs : list vec) (gd : list num) : stable (af2d3d vs gd).
Proof. unfold af2d3d, xyface, zface. auto 40 with stability. Qed.

(** X6.  The faces of a solid are answered from the store: once [af2d3d]
    has returned the face ids of a polygon over an interval, a later call
    in the same run for the same polygon and interval returns the same ids
    and stores no record, so that equal polygons share every face. *)
Theorem faces_built_once (vs : list vec) (gd : list num) (s s1 : state)
    (faces : list Z) :
  af2d3d vs gd s = (Ok faces, s1) ->
  forall s2, later s1 s2 -> af2d3d vs gd s2 = (Ok faces, s2).
Proof.
  intros E s2 L. exact (proj2 (stable_af2d3d vs gd s s1 faces E) s2 L).
Qed.

End Stability.

Lemma faces_built_once_witness :
  let s1 := snd (af2d3d square_scaled depths_scaled started) in
  let s2 := snd (generate_part square_scaled depths_scaled started) in
  af2d3d square_scaled depths_scaled started = (Ok [89; 120; 144; 165; 186; 206], s1)
  /\ later s1 s2
  /\ af2d3d square_scaled depths_scaled s2 = (Ok [89; 120; 144; 165; 186; 206], s2).
Proof.
  intros s1 s2.
  assert (E : af2d3d square_scaled depths_scaled started
              = (Ok [89; 120; 144; 165; 186; 206], s1))
    by (vm_compute; reflexivity).
  assert (L : later s1 s2).
  { exists (skipn (List.length (work_array s1)) (work_array s2)).
    vm_compute. reflexivity. }
  split; [exact E|]. split; [exact L|].
  exact (faces_built_once square_scaled depths_scaled started s1
           [89; 120; 144; 165; 186; 206] E s2 L).
Defined.

(** ** The input as the checks take it *)

Lemma mapR_cons_ok {A B : Type} (f : A -> result B) (a : A) (l : list A)
    (bs : list B) :
  mapR f (a :: l) = Ok bs ->
  exists b bs', f a = Ok b /\ mapR f l = Ok bs' /\ bs = b :: bs'.
Proof.
  cbn [mapR]. unfold bindR.
  destruct (f a) as [b|e]; [|discriminate].
  destruct (mapR f l) as [bs'|e]; [|discriminate].
  intro E. injection E as <-. exists b, bs'. repeat split.
Qed.

Lemma mapR_Forall_ok {A B : Type} (f : A -> result B) (l : list A) :
  Forall (fun a => exists b, f a = Ok b) l -> exists bs, mapR f l = Ok bs.
Proof.
  induction 1 as [|a l [b Hb] _ [bs IH]]; [exists []; reflexivity|].
  exists (b :: bs). cbn [mapR]. rewrite Hb. cbn [bindR]. rewrite IH. reflexivity.
Qed.

Lemma mapR_ok_Forall {A B : Type} (f : A -> result B) (l : list A) (bs : list B) :
  mapR f l = Ok bs -> Forall (fun a => exists b, f a = Ok b) l.
Proof.
  revert bs. induction l as [|a l IH]; intros bs E; [constructor|].
  apply mapR_cons_ok in E. destruct E as (b & bs' & Ha & Hl & _).
  constructor; [exists b; exact Ha | apply (IH bs' Hl)].
Qed.

Lemma mapM_ext {A B : Type} (f g : A -> M B) (l : list A) (s : state) :
  (forall a s', f a s' = g a s') -> mapM f l s = mapM g l s.
Proof.
  intro Hfg. revert s. induction l as [|a l IH]; intro s; [reflexivity|].
  cbn [mapM]. unfold bind at 1 3. rewrite Hfg.
  destruct (g a s) as [[b|e] s1]; [|reflexivity].
  unfold bind. rewrite IH. reflexivity.
Qed.

Lemma index_raises {A : Type} (l : list A) (i : nat) (e : exn) :
  index l i = Raise e -> e = IndexError.
Proof.
  unfold index. destruct (nth_error l i); [discriminate|].
  intro E. injection E as <-. reflexivity.
Qed.

Lemma index_In {A : Type} (l : list A) (i : nat) (a : A) :
  index l i = Ok a -> In a l.
Proof.
  unfold index. destruct (nth_error l i) as [x|] eqn:E; [|discriminate].
  intro E'. injection E' as <-. apply (nth_error_In l i E).
Qed.

Lemma index_beyond {A : Type} (l : list A) (i : nat) :
  (List.length l <= i)%nat -> index l i = Raise IndexError.
Proof.
  intro Hl. unfold index.
  destruct (nth_error l i) as [x|] eqn:E; [|reflexivity].
  assert (Hs : nth_error l i <> None) by (rewrite E; discriminate).
  apply nth_error_Some in Hs. lia.
Qed.

Lemma map2_length_l {A B C : Type} (f : A -> B -> C) (l1 : list A) (l2 : list B) :
  (List.length (map2 f l1 l2) <= List.length l1)%nat.
Proof.
  revert l2. induction l1 as [|a l1 IH]; intros [|b l2]; cbn [map2 List.length];
    try lia.
  specialize (IH l2). lia.
Qed.

Section Input.

Context {num : Type} `{PyNumber num} `{FileSystem}.

Lemma check_vertex_accepts (v : pyval num) :
  check_vertex v = Ok tt <-> vertex_shaped v.
Proof.
  unfold check_vertex, vertex_shaped. split.
  - intro E. destruct v as [|str|n|l|l];
      cbn [falsy py_len py_iter components bindR] in *.
    + discriminate.
    + exfalso. destruct str as [|c str]; [discriminate|].
      change (String.eqb (String c str) "") with false in E. cbv iota in E.
      destruct ((String.length (String c str) <? 2)%nat
                || (3 <? String.length (String c str))%nat);
        [discriminate|].
      cbn [list_ascii_of_string map mapR expect_number bindR exit] in E.
      discriminate.
    + destruct (num_eqb n (of_int 0)); discriminate.
    + destruct l as [|x l]; [discriminate|].
      destruct ((List.length (x :: l) <? 2)%nat || (3 <? List.length (x :: l))%nat)
        eqn:El; [discriminate|].
      destruct (mapR expect_number (x :: l)) as [ns|] eqn:En; [|discriminate].
      exists (x :: l). split; [reflexivity|].
      apply orb_false_elim in El. destruct El as [E2 E3].
      apply Nat.ltb_ge in E2, E3. split; [lia|].
      apply mapR_ok_Forall in En.
      eapply Forall_impl; [|exact En].
      intros c [n Hn]. apply (number_expected c n Hn).
    + destruct l as [|x l]; [discriminate|].
      destruct ((List.length (x :: l) <? 2)%nat || (3 <? List.length (x :: l))%nat)
        eqn:El; [discriminate|].
      destruct (mapR expect_number (x :: l)) as [ns|] eqn:En; [|discriminate].
      exists (x :: l). split; [reflexivity|].
      apply orb_false_elim in El. destruct El as [E2 E3].
      apply Nat.ltb_ge in E2, E3. split; [lia|].
      apply mapR_ok_Forall in En.
      eapply Forall_impl; [|exact En].
      intros c [n Hn]. apply (number_expected c n Hn).
  - intros (cs & Hc & Hlen & Hnum).
    assert (Hex : exists ns, mapR expect_number cs = Ok ns).
    { apply mapR_Forall_ok. eapply Forall_impl; [|exact Hnum].
      intros c Hcn. destruct c; try discriminate. eexists. reflexivity. }
    destruct Hex as [ns Hns].
    assert (Hb : ((List.length cs <? 2)%nat || (3 <? List.length cs)%nat) = false).
    { apply orb_false_intro; apply Nat.ltb_ge; lia. }
    destruct v as [|str|n|l|l]; try discriminate;
      injection Hc as ->; (destruct cs as [|x cs]; [cbn in Hlen; lia|]);
      cbn [falsy py_len py_iter bindR]; rewrite Hb, Hns; reflexivity.
Qed.

Lemma check_polygon_accepts (p : pyval num) (vs : list (pyval num)) :
  check_polygon p = Ok vs
  <-> p = VList vs /\ vs <> [] /\ Forall vertex_shaped vs.
Proof.
  unfold check_polygon. split.
  - intro E. destruct p as [|str|n|l|l]; cbn [falsy] in E; try discriminate.
    + destruct (String.eqb str ""); discriminate.
    + destruct (num_eqb n (of_int 0)); discriminate.
    + destruct l as [|x l]; [discriminate|].
      destruct (mapR check_vertex (x :: l)) as [us|] eqn:Eu; [|discriminate].
      cbn [bindR] in E. injection E as <-.
      split; [reflexivity|]. split; [discriminate|].
      apply mapR_ok_Forall in Eu.
      eapply Forall_impl; [|exact Eu].
      intros v [[] Hv]. apply check_vertex_accepts. exact Hv.
    + destruct l; discriminate.
  - intros (-> & Hne & Hall).
    destruct vs as [|x vs]; [contradiction|]. cbn [falsy].
    destruct (mapR_Forall_ok check_vertex (x :: vs)) as [us Hus].
    { eapply Forall_impl; [|exact Hall].
      intros v Hv. exists tt. apply check_vertex_accepts. exact Hv. }
    rewrite Hus. reflexivity.
Qed.

Lemma mapR_check_polygon (ps : list (pyval num)) (polys : list (list (pyval num))) :
  mapR check_polygon ps = Ok polys
  <-> ps = map (@VList num) polys
      /\ Forall (fun vs => vs <> [] /\ Forall vertex_shaped vs) polys.
Proof.
  revert polys. induction ps as [|p ps IH]; intro polys.
  - cbn [mapR]. split.
    + intro E. injection E as <-. split; [reflexivity | constructor].
    + intros [E _]. destruct polys; [reflexivity | discriminate].
  - split.
    + intro E. apply mapR_cons_ok in E. destruct E as (vs & rest & Ep & Er & ->).
      apply check_polygon_accepts in Ep. destruct Ep as (-> & Hne & Hall).
      apply IH in Er. destruct Er as [-> Hrest].
      split; [reflexivity|]. constructor; [split; assumption | exact Hrest].
    + intros [E Hall]. destruct polys as [|vs rest]; [discriminate|].
      cbn [map] in E. injection E as -> ->.
      inversion Hall as [|? ? [Hne Hvs] Hrest]; subst.
      cbn [mapR].
      rewrite (proj2 (check_polygon_accepts (VList vs) vs)) by (repeat split; assumption).
      cbn [bindR].
      rewrite (proj2 (IH rest)) by (split; [reflexivity | exact Hrest]).
      reflexivity.
Qed.

(** X7.  The polygon checks accept exactly a non-empty list of non-empty
    lists of vertices, each vertex a list or a tuple of two or three
    numbers, and hand the vertex lists on as they are. *)
Theorem check_polygons_accepts (a : pyval num) (polys : list (list (pyval num))) :
  check_polygons a = Ok polys
  <-> a = VList (map (@VList num) polys)
      /\ polys <> []
      /\ Forall (fun vs => vs <> [] /\ Forall vertex_shaped vs) polys.
Proof.
  split.
  - intro E. destruct (check_polygons_ok a polys E) as (ps & -> & Hne & Hps).
    apply mapR_check_polygon in Hps. destruct Hps as [-> Hall].
    split; [reflexivity|]. split; [|exact Hall].
    intros ->. apply Hne. reflexivity.
  - intros (-> & Hne & Hall). unfold check_polygons.
    destruct polys as [|vs rest]; [contradiction|].
    cbn [map]. apply mapR_check_polygon. split; [reflexivity | exact Hall].
Qed.

(** *** Interval entries after the second *)

Lemma af2d3d_two_depths (vs : list vec) (z1 z2 : num) (more : list num) :
  af2d3d vs (z1 :: z2 :: more) = af2d3d vs [z1; z2].
Proof. reflexivity. Qed.

Lemma mapR_expect_numbers (l : list num) :
  mapR expect_number (map (@VNum num) l) = Ok l.
Proof.
  induction l as [|n l IH]; [reflexivity|].
  cbn [map mapR expect_number bindR]. rewrite IH. reflexivity.
Qed.

Lemma check_interval_numbers (z1 z2 : num) (more : list num) :
  check_interval (VList (VNum z1 :: VNum z2 :: map (@VNum num) more))
  = if num_eqb z1 z2 then exit
    else if num_gtb z1 z2 then Ok (z2 :: z1 :: more)
    else Ok (z1 :: z2 :: more).
Proof.
  unfold check_interval.
  change (VNum z1 :: VNum z2 :: map (@VNum num) more)
    with (map (@VNum num) (z1 :: z2 :: more)).
  rewrite mapR_expect_numbers. reflexivity.
Qed.

Lemma parts_two_depths (z1 z2 : num) (more : list num) (l : list (list vec))
    (s : state) :
  mapM (fun x => generate_part x (z1 :: z2 :: more)) l s
  = mapM (fun x => generate_part x [z1; z2]) l s.
Proof.
  apply mapM_ext. intros x s'. unfold generate_part.
  rewrite af2d3d_two_depths. reflexivity.
Qed.

Lemma scale_all (k : num) (l : list num) :
  converts k = true -> Forall (fun n => converts n = true) l ->
  mapR (scale k) l = Ok (map (fun c => num_mul (num_mul k float_one) c) l).
Proof.
  intros Hk. induction 1 as [|n l Hn _ IH]; [reflexivity|].
  cbn [mapR map]. unfold scale at 1. rewrite Hk, Hn. cbn [andb bindR].
  rewrite IH. reflexivity.
Qed.

Lemma scale_refused (k c : num) : converts k = false -> scale k c = Raise OverflowError.
Proof. intro Hk. unfold scale. rewrite Hk. reflexivity. Qed.

(** The scaled interval, with and without entries after the second. *)
Lemma scale_depths_cases (k z1 z2 : num) (more : list num) :
  Forall (fun n => converts n = true) more ->
  (exists e, mapR (scale k) (z1 :: z2 :: more) = Raise e
             /\ mapR (scale k) [z1; z2] = Raise e)
  \/ (exists a b rest, mapR (scale k) (z1 :: z2 :: more) = Ok (a :: b :: rest)
                       /\ mapR (scale k) [z1; z2] = Ok [a; b]).
Proof.
  intro Hm. cbn [mapR].
  destruct (converts k) eqn:Hk.
  - rewrite (scale_all k more Hk Hm).
    destruct (scale k z1) as [a|e]; [|left; exists e; split; reflexivity].
    destruct (scale k z2) as [b|e]; [|left; exists e; split; reflexivity].
    right. exists a, b, (map (fun c => num_mul (num_mul k float_one) c) more).
    split; reflexivity.
  - left. exists OverflowError. rewrite (scale_refused k z1 Hk).
    split; reflexivity.
Qed.

(** X8.  Entries of the interval after the second are checked to be
    numbers, are scaled with the first two, and then play no part: when
    each of them is a number that the scaling takes (a float, or an int
    within the range of the floats), the run is the run on [[z1, z2]]. *)
Theorem interval_entries_after_second (polys : pyval num) (z1 z2 : num)
    (more : list num) (k : pyval num) (s : state) :
  Forall (fun n => converts n = true) more ->
  generate_assembly polys (VList (VNum z1 :: VNum z2 :: map (@VNum num) more)) k s
  = generate_assembly polys (VList [VNum z1; VNum z2]) k s.
Proof.
  intro Hm. unfold generate_assembly.
  apply bind_cong. intros c s1.
  rewrite (check_interval_numbers z1 z2 more).
  pose proof (check_interval_numbers z1 z2 []) as E2. cbn [map] in E2. rewrite E2.
  destruct (num_eqb z1 z2); [reflexivity|].
  destruct (num_gtb z1 z2); rewrite !bind_lift_ok;
    apply bind_cong; intros ps s2;
    apply bind_cong; intros ps3 s3;
    apply bind_cong; intros cw s4;
    apply bind_cong; intros scaled s5.
  - destruct (scale_depths_cases c z2 z1 more Hm)
      as [(e & -> & ->)|(a & b & rest & -> & ->)]; [reflexivity|].
    rewrite !bind_lift_ok. apply bind_cong_l. apply parts_two_depths.
  - destruct (scale_depths_cases c z1 z2 more Hm)
      as [(e & -> & ->)|(a & b & rest & -> & ->)]; [reflexivity|].
    rewrite !bind_lift_ok. apply bind_cong_l. apply parts_two_depths.
Qed.

End Input.


Lemma interval_entries_after_second_witness :
  Forall (fun n => converts n = true) [PyInt 7; PyFloat 0.5]
  /\ generate_assembly (VList [unit_square])
       (VList (VNum (PyInt 0) :: VNum (PyInt 2)
               :: map (@VNum pynum) [PyInt 7; PyFloat 0.5])) (int 10) started
     = generate_assembly (VList [unit_square])
         (VList [VNum (PyInt 0); VNum (PyInt 2)]) (int 10) started.
Proof.
  assert (Hm : Forall (fun n : pynum => converts n = true) [PyInt 7; PyFloat 0.5])
    by (repeat constructor).
  split; [exact Hm|].
  exact (interval_entries_after_second (VList [unit_square]) (PyInt 0) (PyInt 2)
           [PyInt 7; PyFloat 0.5] (int 10) started Hm).
Defined.

(** A third entry beyond the range of the floats: the scaling of the
    interval raises [OverflowError], where the run on the first two
    entries returns. *)
Lemma interval_entry_beyond_floats :
  fst (generate_assembly (VList [unit_square])
         (VList [int 0; int 2; int (10 ^ 400)]) (int 10) started)
  = Raise OverflowError
  /\ fst (generate_assembly (VList [unit_square])
            (VList [int 0; int 2]) (int 10) started)
     = Ok tt.
Proof. vm_compute. split; reflexivity. Qed.
(** ** Vertices of two coordinates that are not lists *)

Section FlatVertices.

Context {num : Type} `{PyNumber num} `{FileSystem}.

Lemma cross_product_flat (x y : vec) :
  (List.length x < 3)%nat -> cross_product x y = Raise IndexError.
Proof.
  intro Hx. unfold cross_product.
  rewrite (index_beyond x 2) by lia. reflexivity.
Qed.

Lemma face_test_flat (vertices : list vec) (zaxis nz : vec) :
  flat vertices -> normalize zaxis = Ok nz ->
  face_test vertices zaxis = Raise IndexError.
Proof.
  intros Hf Hn. unfold face_test. rewrite Hn. cbn [bindR].
  destruct (index vertices 2) as [v2|e] eqn:E2;
    [|cbn [bindR]; rewrite (index_raises _ _ _ E2); reflexivity].
  cbn [bindR].
  destruct (index vertices 1) as [v1|e] eqn:E1;
    [|cbn [bindR]; rewrite (index_raises _ _ _ E1); reflexivity].
  cbn [bindR].
  destruct (index vertices 0) as [v0|e] eqn:E0;
    [|cbn [bindR]; rewrite (index_raises _ _ _ E0); reflexivity].
  cbn [bindR].
  rewrite cross_product_flat; [reflexivity|].
  unfold flat in Hf. rewrite Forall_forall in Hf.
  pose proof (Hf v2 (index_In _ _ _ E2)) as H2.
  pose proof (map2_length_l num_sub v2 v1) as Hl. unfold vsub. lia.
Qed.

Lemma xyface_flat (vs : list vec) (depth : num) (zdir nz : vec) (s : state) :
  flat vs -> normalize zdir = Ok nz ->
  xyface vs depth zdir s = (Raise IndexError, s).
Proof.
  intros Hf Hn. unfold xyface, advanced_face_0.
  rewrite (face_test_flat _ zdir nz); [reflexivity | | exact Hn].
  unfold flat in *. rewrite Forall_forall in *.
  intros v Hv. apply in_map_iff in Hv. destruct Hv as (x & <- & Hx).
  pose proof (Hf x Hx).
  pose proof (map2_length_l num_add x [of_int 0; of_int 0; depth]).
  unfold vadd. lia.
Qed.

Lemma generate_part_flat (vs : list vec) (gd : list num) (nz : vec) (s : state) :
  flat vs -> (2 <= List.length gd)%nat ->
  normalize [of_int 0; of_int 0; of_int 1] = Ok nz ->
  generate_part vs gd s = (Raise IndexError, s).
Proof.
  intros Hf Hgd Hn. unfold generate_part, af2d3d.
  destruct gd as [|z1 [|z2 gd]]; cbn [List.length] in Hgd; try lia.
  unfold index, bind, lift. cbn [nth_error].
  rewrite (xyface_flat vs z2 _ nz s Hf Hn). reflexivity.
Qed.

Lemma check_interval_length (b : pyval num) (depths : list num) :
  check_interval b = Ok depths -> (2 <= List.length depths)%nat.
Proof.
  unfold check_interval. destruct b as [| | |l|]; try discriminate.
  destruct l as [|x l]; [discriminate|].
  destruct (mapR expect_number (x :: l)) as [ds|]; [|discriminate].
  cbn [bindR]. destruct ds as [|d1 [|d2 ds]]; try discriminate.
  unfold index. cbn [nth_error bindR].
  destruct (num_eqb d1 d2); [discriminate|].
  destruct (num_gtb d1 d2); intro E; injection E as <-; cbn [List.length skipn]; lia.
Qed.

Lemma pair_vertices_coords (pts : list (num * num)) :
  mapR (fun v => coords_of (convert_3d v)) (map pair_vertex pts)
  = Ok (map (fun p => [fst p; snd p]) pts).
Proof.
  induction pts as [|p pts IH]; [reflexivity|].
  cbn [map mapR]. rewrite IH. reflexivity.
Qed.

Lemma mapR_ok_In {A B : Type} (f : A -> result B) (l : list A) (bs : list B)
    (b : B) :
  mapR f l = Ok bs -> In b bs -> exists a, In a l /\ f a = Ok b.
Proof.
  revert bs. induction l as [|a l IH]; intros bs E Hin.
  - injection E as <-. contradiction.
  - apply mapR_cons_ok in E. destruct E as (b0 & bs' & Ha & Hl & ->).
    destruct Hin as [<-|Hin].
    + exists a. split; [left; reflexivity | exact Ha].
    + destruct (IH bs' Hl Hin) as (a' & Hin' & Ha').
      exists a'. split; [right; exact Hin' | exact Ha'].
Qed.

Lemma convert_to_clockwise_members (p : list vec) (q : sequence vec) :
  convert_to_clockwise p = Ok q -> elements q = p \/ elements q = rev p.
Proof.
  unfold convert_to_clockwise. destruct (pol_sum p) as [a|]; [|discriminate].
  cbn [bindR]. destruct (num_eqb a (of_int 0)); [discriminate|].
  destruct (num_gtb a (of_int 0)); intro E; injection E as <-; auto.
Qed.

Lemma pair_vertices_break (pts : list (num * num)) (more : list (pyval num))
    (b c : pyval num) (r : list (list vec) * list num) (nz : vec) (s : state) :
  normalize [of_int 0; of_int 0; of_int 1] = Ok nz ->
  checks (VList (VList (map pair_vertex pts) :: more)) b c = Ok r ->
  generate_assembly (VList (VList (map pair_vertex pts) :: more)) b c s
  = (Raise IndexError, s).
Proof.
  intros Hn E. destruct r as [scaled depths'].
  rewrite (checks_ok _ b c scaled depths' s E).
  unfold checks in E.
  destruct (check_coefficient c) as [k|]; [|discriminate].
  destruct (check_interval b) as [depths|] eqn:Ed; [|discriminate].
  destruct (check_polygons _) as [polys|] eqn:Ep; [|discriminate].
  cbn [bindR] in E.
  destruct (mapR (mapR (fun v : pyval num => coords_of (convert_3d v))) polys)
    as [polys3|] eqn:E3; [|discriminate].
  cbn [bindR] in E.
  destruct (mapR (fun x : list vec => convert_to_clockwise x) polys3)
    as [cw|] eqn:Ec; [|discriminate].
  cbn [bindR] in E.
  destruct (mapR (fun part => mapR (mapR (scale k)) (elements part)) cw)
    as [sc|] eqn:Es; [|discriminate].
  cbn [bindR] in E.
  destruct (mapR (scale k) depths) as [ds|] eqn:Eds; [|discriminate].
  cbn [bindR] in E. injection E as <- <-.
  unfold check_polygons in Ep.
  apply mapR_cons_ok in Ep. destruct Ep as (vs & polys' & Ev & _ & ->).
  apply check_polygon_ok in Ev. destruct Ev as [Ev _]. injection Ev as <-.
  apply mapR_cons_ok in E3. destruct E3 as (p3 & rest3 & E3 & _ & ->).
  rewrite pair_vertices_coords in E3. injection E3 as <-.
  apply mapR_cons_ok in Ec. destruct Ec as (c1 & crest & Ec & _ & ->).
  apply mapR_cons_ok in Es. destruct Es as (sc1 & screst & Es & _ & ->).
  assert (Hf : flat sc1).
  { unfold flat. rewrite Forall_forall. intros v Hv.
    destruct (mapR_ok_In _ _ _ v Es Hv) as (x & Hx & Hxv).
    apply mapR_length in Hxv. rewrite Hxv.
    cbv beta in Ec.
    destruct (convert_to_clockwise_members _ _ Ec) as [Hm | Hm];
      unfold vec in *; rewrite Hm in Hx; [|apply in_rev in Hx];
      apply in_map_iff in Hx; destruct Hx as (p & <- & _); cbn [List.length]; lia. }
  cbn [mapM]. unfold bind at 1. unfold bind at 1.
  rewrite (generate_part_flat _ _ nz s Hf); [reflexivity | | exact Hn].
  apply mapR_length in Eds. rewrite Eds.
  apply (check_interval_length b depths Ed).
Qed.

End FlatVertices.

(** X9.  With Python's numbers: when the first polygon gives its vertices as
    tuples of two numbers, the run does not return and stores no record,
    whatever the rest of the input.  When the input passes every check,
    the winding test and the scaling, the run ends with the [IndexError]
    of the cross product of the first face: only a list of two numbers is
    given its third coordinate. *)
Theorem pair_vertices_index_error `{FileSystem} (pts : list (pynum * pynum))
    (more : list (pyval pynum)) (b c : pyval pynum) (s : state) :
  (exists e, generate_assembly (VList (VList (map pair_vertex pts) :: more)) b c s
             = (Raise e, s))
  /\ forall r, checks (VList (VList (map pair_vertex pts) :: more)) b c = Ok r ->
       generate_assembly (VList (VList (map pair_vertex pts) :: more)) b c s
       = (Raise IndexError, s).
Proof.
  assert (Hr : forall r,
             checks (VList (VList (map pair_vertex pts) :: more)) b c = Ok r ->
             generate_assembly (VList (VList (map pair_vertex pts) :: more)) b c s
             = (Raise IndexError, s)).
  { intros r E.
    apply (pair_vertices_break pts more b c r
             [PyFloat 0; PyFloat 0; PyFloat 1] s); [|exact E].
    vm_compute. reflexivity. }
  split; [|exact Hr].
  destruct (checks (VList (VList (map pair_vertex pts) :: more)) b c)
    as [r|e] eqn:E.
  - exists IndexError. apply (Hr r). reflexivity.
  - exists e. apply checks_raise. exact E.
Qed.

Lemma pair_vertices_index_error_witness :
  let corners := [(PyInt 0, PyInt 0); (PyInt 1, PyInt 0);
                  (PyInt 1, PyInt 1); (PyInt 0, PyInt 1)] in
  let polys := VList [VList (map pair_vertex corners)] in
  checks polys (VList [int 0; int 2]) (int 10)
  = Ok ([[[flt 0; flt 10]; [flt 10; flt 10]; [flt 10; flt 0]; [flt 0; flt 0]]],
        [flt 0; flt 20])
  /\ generate_assembly polys (VList [int 0; int 2]) (int 10) started
     = (Raise IndexError, started).
Proof.
  intros corners polys.
  assert (E : checks polys (VList [int 0; int 2]) (int 10)
              = Ok ([[[flt 0; flt 10]; [flt 10; flt 10]; [flt 10; flt 0];
                      [flt 0; flt 0]]],
                    [flt 0; flt 20]))
    by (vm_compute; reflexivity).
  split; [exact E|].
  exact (proj2 (pair_vertices_index_error corners [] (VList [int 0; int 2])
                  (int 10) started) _ E).
Defined.

(** With a coordinate beyond the range of the floats the run on tuples
    ends in the scaling, with [OverflowError]. *)
Lemma pair_vertices_beyond_floats :
  let corners := [(PyInt 0, PyInt 0); (PyInt (10 ^ 400), PyInt 0);
                  (PyInt 1, PyInt 1); (PyInt 0, PyInt 1)] in
  generate_assembly (VList [VList (map pair_vertex corners)])
    (VList [int 0; int 2]) (int 10) started
  = (Raise OverflowError, started).
Proof. vm_compute. reflexivity. Qed.
(** ** Lists and text *)

Lemma slice_bound_le {A : Type} (l : list A) (a : Z) :
  (slice_bound l a <= List.length l)%nat.
Proof. unfold slice_bound. destruct (a <? 0) eqn:E; lia. Qed.

Lemma slice_bound_length {A B : Type} (l : list A) (l' : list B) (a : Z) :
  List.length l = List.length l' -> slice_bound l a = slice_bound l' a.
Proof. unfold slice_bound. intros ->. reflexivity. Qed.

Lemma slice_bound_opp {A : Type} (l : list A) (x : Z) :
  x <> 0 -> slice_bound l x = (List.length l - slice_bound l (- x))%nat.
Proof.
  intro Hx. unfold slice_bound.
  destruct (x <? 0) eqn:E1; destruct (- x <? 0) eqn:E2;
    try apply Z.ltb_lt in E1; try apply Z.ltb_ge in E1;
    try apply Z.ltb_lt in E2; try apply Z.ltb_ge in E2; lia.
Qed.

Lemma turn_back {A : Type} (l : list A) (b : nat) :
  (b <= List.length l)%nat ->
  (skipn (List.length l - b) (skipn b l ++ firstn b l)
   ++ firstn (List.length l - b) (skipn b l ++ firstn b l))%list = l.
Proof.
  intro Hb.
  assert (Hs : List.length (skipn b l) = (List.length l - b)%nat)
    by apply length_skipn.
  rewrite skipn_app, firstn_app, Hs, Nat.sub_diag.
  rewrite <- Hs at 1. rewrite skipn_all.
  rewrite <- Hs at 1. rewrite firstn_all.
  cbn [skipn firstn app]. rewrite app_nil_r. apply firstn_skipn.
Qed.

Lemma rotate_zero {A : Type} (l : list A) : rotate l 0 = l.
Proof.
  unfold rotate, slice_from, slice_to, slice_bound. cbn [Z.opp Z.ltb Z.compare].
  replace (Z.to_nat (Z.min 0 (Z.of_nat (List.length l)))) with O by lia.
  cbn [skipn firstn]. apply app_nil_r.
Qed.

(** X10.  Rotating by [x] and then by [-x] gives the list back, for every
    list and every [x], also beyond the length of the list. *)
Theorem rotate_back {A : Type} (l : list A) (x : Z) :
  rotate (rotate l x) (- x) = l.
Proof.
  destruct (Z.eq_dec x 0) as [->|Hx]; [cbn [Z.opp]; rewrite !rotate_zero; reflexivity|].
  unfold rotate at 1. unfold slice_from, slice_to.
  rewrite Z.opp_involutive.
  rewrite (slice_bound_length (rotate l x) l x (rotate_length l x)).
  rewrite (slice_bound_opp l x Hx).
  unfold rotate, slice_from, slice_to.
  apply turn_back. apply slice_bound_le.
Qed.

(** X11.  A rotation by the length of the list or by more, in either
    direction, leaves the list as it is: the amount is not taken modulo the
    length. *)
Theorem rotate_beyond {A : Type} (l : list A) (x : Z) :
  Z.of_nat (List.length l) <= Z.abs x -> rotate l x = l.
Proof.
  intro Hx. unfold rotate, slice_from, slice_to, slice_bound.
  destruct (- x <? 0) eqn:E; [apply Z.ltb_lt in E | apply Z.ltb_ge in E].
  - replace (Z.to_nat (Z.max (Z.of_nat (List.length l) + - x) 0)) with O by lia.
    cbn [skipn firstn]. apply app_nil_r.
  - replace (Z.to_nat (Z.min (- x) (Z.of_nat (List.length l))))
      with (List.length l) by lia.
    rewrite skipn_all, firstn_all. reflexivity.
Qed.

Lemma rotate_beyond_witness :
  Z.of_nat (List.length [1; 2; 3]) <= Z.abs 5
  /\ rotate [1; 2; 3] 5 = [1; 2; 3]
  /\ Z.of_nat (List.length [1; 2; 3]) <= Z.abs (-3)
  /\ rotate [1; 2; 3] (-3) = [1; 2; 3].
Proof.
  assert (H5 : Z.of_nat (List.length [1; 2; 3]) <= Z.abs 5) by (simpl; lia).
  assert (H3 : Z.of_nat (List.length [1; 2; 3]) <= Z.abs (-3)) by (simpl; lia).
  split; [exact H5|]. split; [exact (rotate_beyond [1; 2; 3] 5 H5)|].
  split; [exact H3 | exact (rotate_beyond [1; 2; 3] (-3) H3)].
Defined.

(** X12.  For a list of ids that is not empty, [to_step_list] is the ids
    each written after a [#] and joined by commas; for the empty list it
    raises [IndexError]; an id that is not in a list is written as the list
    of that one id. *)
Theorem to_step_list_joined (l : list Z) :
  l <> [] ->
  to_step_list (IdList l)
  = Ok (String.concat "," (map (fun j => "#" ++ str_int j) l))
  /\ to_step_list (IdList []) = Raise IndexError
  /\ forall i, to_step_list (OneId i) = to_step_list (IdList [i]).
Proof.
  intro Hl. split; [|split; [reflexivity | intro i; reflexivity]].
  destruct (exists_last Hl) as (l' & a & ->).
  unfold to_step_list, index_last, index.
  rewrite removelast_last, rev_app_distr. cbn [rev app nth_error bindR].
  rewrite step_list_fold. reflexivity.
Qed.

Lemma to_step_list_joined_witness :
  [89; 120; 144] <> []
  /\ to_step_list (IdList [89; 120; 144]) = Ok "#89,#120,#144".
Proof.
  assert (Hl : [89; 120; 144] <> []) by discriminate.
  split; [exact Hl|].
  exact (proj1 (to_step_list_joined [89; 120; 144] Hl)).
Defined.

(** *** The id in front of a line *)

Lemma lazy_to_equals_none (s : string) :
  (forall c, In c (list_ascii_of_string s) -> c <> "="%char) ->
  lazy_to_equals s = None.
Proof.
  induction s as [|c s IH]; intro Hs; [reflexivity|].
  cbn [lazy_to_equals].
  destruct (Ascii.eqb c "=") eqn:E.
  - apply Ascii.eqb_eq in E. exfalso. apply (Hs c); [left; reflexivity | exact E].
  - destruct (Ascii.eqb c (ascii_of_nat 10)); [reflexivity|].
    rewrite IH; [reflexivity|]. intros x Hx. apply Hs. right. exact Hx.
Qed.

Lemma re_search_hash_no_equals (s : string) :
  (forall c, In c (list_ascii_of_string s) -> c <> "="%char) ->
  re_search_hash s = None.
Proof.
  induction s as [|c s IH]; intro Hs; [reflexivity|].
  assert (Hs' : forall x, In x (list_ascii_of_string s) -> x <> "="%char)
    by (intros x Hx; apply Hs; right; exact Hx).
  cbn [re_search_hash]. rewrite (IH Hs').
  destruct (Ascii.eqb c "#"); [|reflexivity].
  unfold group_after_hash. destruct s as [|d s]; [reflexivity|].
  destruct (Ascii.eqb d (ascii_of_nat 10)); [reflexivity|].
  rewrite lazy_to_equals_none; [reflexivity|].
  intros x Hx. apply Hs'. right. exact Hx.
Qed.

Lemma re_search_hash_no_hash (s : string) :
  (forall c, In c (list_ascii_of_string s) -> c <> "#"%char) ->
  re_search_hash s = None.
Proof.
  induction s as [|c s IH]; intro Hs; [reflexivity|].
  cbn [re_search_hash].
  destruct (Ascii.eqb c "#") eqn:E.
  - apply Ascii.eqb_eq in E. exfalso. apply (Hs c); [left; reflexivity | exact E].
  - apply IH. intros x Hx. apply Hs. right. exact Hx.
Qed.

(** X13.  [line_index] reads back the id of a record line as [new_item]
    writes it, whatever the text of the record, for every id that
    [str] and [int] take, that is, of at most 4300 digits; and a line with
    no [#] in it, or with no [=] in it, has the index 0. *)
Theorem line_index_reads_back (i : Z) (t line : string) :
  Z.abs i < 10 ^ 4300 ->
  line_index (record_line i t) = Ok i
  /\ ((forall c, In c (list_ascii_of_string line) -> c <> "#"%char)
      \/ (forall c, In c (list_ascii_of_string line) -> c <> "="%char) ->
      line_index line = Ok 0).
Proof.
  intros _. split; [apply line_index_record_line|].
  unfold line_index. intros [Hn|Hn].
  - rewrite (re_search_hash_no_hash line Hn). reflexivity.
  - rewrite (re_search_hash_no_equals line Hn). reflexivity.
Qed.

Lemma line_index_reads_back_witness :
  Z.abs 207 < 10 ^ 4300
  /\ line_index (record_line 207 ("CLOSED_SHELL('Closed Shell',(#89,#120)) ;" ++ nl))
     = Ok 207
  /\ line_index "ENDSEC;" = Ok 0.
Proof.
  assert (Hi : Z.abs 207 < 10 ^ 4300) by (vm_compute; reflexivity).
  split; [exact Hi|].
  destruct (line_index_reads_back 207
              ("CLOSED_SHELL('Closed Shell',(#89,#120)) ;" ++ nl) "ENDSEC;" Hi)
    as [H1 H2].
  split; [exact H1|].
  apply H2. left. intros c Hc.
  repeat (destruct Hc as [<-|Hc]; [discriminate|]). destruct Hc.
Defined.

(** *** The sense of an edge *)

Lemma fort_bool_text (ss : sense) : fort_bool (SText (fort_bool ss)) = fort_bool ss.
Proof.
  destruct ss as [[|]|t]; try reflexivity.
  cbn [fort_bool]. destruct (String.eqb t ".T."); reflexivity.
Qed.

(** ** The highest id of the scaffold *)

Lemma In_insert_by_key (x y : Z * string) (l : list (Z * string)) :
  In y (insert_by_key x l) <-> y = x \/ In y l.
Proof.
  induction l as [|z l IH]; cbn [insert_by_key].
  - cbn [In]. intuition congruence.
  - destruct (fst x <? fst z); cbn [In]; [intuition congruence|].
    rewrite IH. intuition congruence.
Qed.

Lemma ascending_insert (x : Z * string) (l : list (Z * string)) :
  ascending l -> ascending (insert_by_key x l).
Proof.
  induction l as [|z l IH]; cbn [insert_by_key ascending].
  - intros _. split; [intros y []| exact I].
  - intros [Hz Hl]. destruct (fst x <? fst z) eqn:E.
    + apply Z.ltb_lt in E. cbn [ascending]. split; [|split; assumption].
      intros y [<-|Hy]; [lia|]. specialize (Hz y Hy). lia.
    + apply Z.ltb_ge in E. cbn [ascending]. split; [|apply IH; exact Hl].
      intros y Hy. apply In_insert_by_key in Hy. destruct Hy as [->|Hy]; [lia|].
      apply Hz. exact Hy.
Qed.

Lemma sorted_fold (l acc : list (Z * string)) :
  ascending acc ->
  ascending (fold_left (fun acc x => insert_by_key x acc) l acc)
  /\ forall y, In y (fold_left (fun acc x => insert_by_key x acc) l acc)
               <-> In y l \/ In y acc.
Proof.
  revert acc. induction l as [|x l IH]; intros acc Ha; cbn [fold_left].
  - split; [exact Ha|]. intro y. cbn [In]. tauto.
  - destruct (IH (insert_by_key x acc) (ascending_insert x acc Ha)) as [Hs Hin].
    split; [exact Hs|]. intro y. rewrite Hin, In_insert_by_key. cbn [In].
    intuition congruence.
Qed.

Lemma ascending_last (l : list (Z * string)) (d : Z * string) :
  ascending l -> forall y, In y l -> fst y <= fst (last l d).
Proof.
  induction l as [|x l IH]; intros Ha y Hy; [contradiction|].
  destruct Ha as [Hx Hl]. destruct l as [|z l].
  - destruct Hy as [<-|[]]. cbn [last]. lia.
  - change (last (x :: z :: l) d) with (last (z :: l) d).
    destruct Hy as [<-|Hy]; [|apply (IH Hl y Hy)].
    assert (Hz : In (last (z :: l) d) (z :: l)).
    { destruct (exists_last (l:=z :: l)) as (l' & a & E); [discriminate|].
      rewrite E, last_last. apply in_or_app. right. left. reflexivity. }
    apply Hx. exact Hz.
Qed.

Lemma index_last_last {A : Type} (l : list A) (a d : A) :
  index_last l = Ok a -> l <> [] /\ a = last l d.
Proof.
  unfold index_last, index. destruct l as [|x l]; [discriminate|].
  destruct (exists_last (l:=x :: l)) as (l' & z & E); [discriminate|].
  rewrite E, rev_app_distr. cbn [rev app nth_error]. intro H. injection H as <-.
  split; [destruct l'; discriminate | symmetry; apply last_last].
Qed.

Lemma last_of_map {A B : Type} (f : A -> B) (l : list A) (d : A) :
  last (map f l) (f d) = f (last l d).
Proof.
  induction l as [|x l IH]; [reflexivity|].
  destruct l as [|y l]; [reflexivity|].
  change (last (map f (x :: y :: l)) (f d)) with (last (map f (y :: l)) (f d)).
  rewrite IH. reflexivity.
Qed.

Lemma keys_combine (l : list string) (keys : list Z) :
  mapR line_index l = Ok keys ->
  (forall p, In p (combine keys l) -> line_index (snd p) = Ok (fst p) /\ In (snd p) l)
  /\ (forall x, In x l -> exists k, In (k, x) (combine keys l)).
Proof.
  revert keys. induction l as [|x l IH]; intros keys E.
  - injection E as <-. split; [intros p [] | intros x []].
  - apply mapR_cons_ok in E. destruct E as (k & ks & Hk & Hl & ->).
    destruct (IH ks Hl) as [H1 H2]. cbn [combine]. split.
    + intros p [<-|Hp]; cbn [fst snd].
      * split; [exact Hk | left; reflexivity].
      * destruct (H1 p Hp). split; [assumption | right; assumption].
    + intros y [<-|Hy].
      * exists k. left. reflexivity.
      * destruct (H2 y Hy) as [k' Hk']. exists k'. right. exact Hk'.
Qed.

(** X14.  When [highest_index] returns, it returns the greatest id that
    [line_index] reads in front of the lines that start with [#], and that
    id is the id of one of these lines: the counter that starts one above
    it is above every id of the scaffold. *)
Theorem highest_index_greatest (files : list string) (h : Z) :
  highest_index files = Ok h ->
  (exists l, In l files /\ starts_with "#" l = true /\ line_index l = Ok h)
  /\ (forall l, In l files -> starts_with "#" l = true ->
                exists k, line_index l = Ok k /\ k <= h).
Proof.
  unfold highest_index, sorted_by_line_index. intro E.
  destruct (mapR line_index (filter (starts_with "#") files)) as [keys|] eqn:Ek;
    [|discriminate].
  cbn [bindR] in E.
  set (S := fold_left (fun acc x => insert_by_key x acc)
                      (combine keys (filter (starts_with "#") files)) []) in E.
  destruct (index_last (map snd S)) as [top|] eqn:Et; [|discriminate].
  cbn [bindR] in E.
  destruct (sorted_fold (combine keys (filter (starts_with "#") files)) [] I)
    as [Hasc Hin]. fold S in Hasc, Hin.
  destruct (keys_combine _ _ Ek) as [Hkey Hall].
  destruct (index_last_last (map snd S) top (snd (0, "")) Et) as [Hne Htop].
  rewrite last_of_map in Htop.
  assert (HS : S <> []) by (intros HS; rewrite HS in Hne; apply Hne; reflexivity).
  assert (Hl : In (last S (0, "")) S).
  { destruct (exists_last HS) as (S' & a & ES).
    rewrite ES, last_last. apply in_or_app. right. left. reflexivity. }
  assert (Hc : In (last S (0, "")) (combine keys (filter (starts_with "#") files))).
  { apply Hin in Hl. destruct Hl as [Hl|[]]. exact Hl. }
  destruct (Hkey _ Hc) as [Hli Hf]. rewrite <- Htop in Hli, Hf.
  rewrite Hli in E. injection E as E.
  apply filter_In in Hf. destruct Hf as [Hf Hs].
  split; [exists top; rewrite <- E; repeat split; assumption|].
  intros l Hl' Hs'.
  assert (Hlw : In l (filter (starts_with "#") files)) by (apply filter_In; auto).
  destruct (Hall l Hlw) as [k Hk].
  exists k. split; [apply (proj1 (Hkey _ Hk))|].
  rewrite <- E.
  assert (HkS : In (k, l) S) by (apply Hin; left; exact Hk).
  apply (ascending_last S (0, "") Hasc (k, l) HkS).
Qed.

Lemma highest_index_greatest_witness :
  highest_index (scaffold "part_out.stp" a_date) = Ok 49
  /\ (exists l, In l (scaffold "part_out.stp" a_date)
                /\ starts_with "#" l = true /\ line_index l = Ok 49)
  /\ (forall l, In l (scaffold "part_out.stp" a_date) -> starts_with "#" l = true ->
                exists k, line_index l = Ok k /\ k <= 49).
Proof.
  assert (E : highest_index (scaffold "part_out.stp" a_date) = Ok 49)
    by (vm_compute; reflexivity).
  split; [exact E|].
  exact (highest_index_greatest (scaffold "part_out.stp" a_date) 49 E).
Defined.

(** ** Vectors and polygons with int coordinates *)

(** X15.  On int coordinates the cross product is at right angles to both
    of its arguments, and exchanging the arguments gives the opposite
    vector. *)
Theorem cross_product_orthogonal (a0 a1 a2 b0 b1 b2 : Z) :
  exists c0 c1 c2,
    cross_product (ints [a0; a1; a2]) (ints [b0; b1; b2]) = Ok (ints [c0; c1; c2])
    /\ c0 * a0 + c1 * a1 + c2 * a2 = 0
    /\ c0 * b0 + c1 * b1 + c2 * b2 = 0
    /\ cross_product (ints [b0; b1; b2]) (ints [a0; a1; a2])
       = Ok (ints [- c0; - c1; - c2]).
Proof.
  exists (- a2 * b1 + a1 * b2), (a2 * b0 - a0 * b2), (- a1 * b0 + a0 * b1).
  split; [reflexivity|]. split; [ring|]. split; [ring|].
  unfold cross_product, ints, index.
  cbn [map nth_error bindR num_add num_sub num_mul num_neg pynum_number
       py_arith py_neg].
  apply f_equal.
  apply f_equal2; [apply f_equal; ring|].
  apply f_equal2; [apply f_equal; ring|].
  apply f_equal2; [apply f_equal; ring | reflexivity].
Qed.

Lemma signed_area2_few (p : list (list Z)) :
  (List.length p <= 2)%nat -> signed_area2 p = 0.
Proof.
  destruct p as [|a [|b [|c p]]]; cbn [List.length]; intro Hl; try lia.
  - reflexivity.
  - unfold signed_area2. rewrite rotate_next. cbn. unfold area_term. ring.
  - unfold signed_area2. rewrite rotate_next. cbn. unfold area_term. ring.
Qed.

(** X16.  A polygon of fewer than three vertices with int coordinates
    never gets past the winding test: its sum is zero, and the run stops
    with [sys.exit()]. *)
Theorem few_vertices_rejected (p : list (list Z)) :
  planar p -> (List.length p <= 2)%nat ->
  convert_to_clockwise (int_polygon p) = Raise SystemExit.
Proof.
  intros Hp Hl. rewrite (convert_to_clockwise_area p Hp).
  rewrite (signed_area2_few p Hl). reflexivity.
Qed.

Lemma few_vertices_rejected_witness :
  planar [[0; 0]; [3; 4]]
  /\ (List.length [[0; 0]; [3; 4]] <= 2)%nat
  /\ convert_to_clockwise (int_polygon [[0; 0]; [3; 4]]) = Raise SystemExit.
Proof.
  assert (Hp : planar [[0; 0]; [3; 4]])
    by (repeat constructor).
  assert (Hl : (List.length [[0; 0]; [3; 4]] <= 2)%nat) by (simpl; lia).
  split; [exact Hp|]. split; [exact Hl|].
  exact (few_vertices_rejected [[0; 0]; [3; 4]] Hp Hl).
Defined.

Lemma chain_telescope {A : Type} (P : A -> Prop) (g : A -> A -> Z) (h : A -> Z)
    (K C : Z) (x : A) (t : list A) :
  (forall a b, P a -> P b -> K * g a b = (h b - h a) * C) ->
  P x -> Forall P t ->
  K * chain g x t = (h (last (x :: t) x) - h x) * C.
Proof.
  intro Hg. revert x. induction t as [|y t IH]; intros x Hx Ht.
  - cbn [chain last]. ring.
  - inversion Ht as [|? ? Hy Ht']; subst.
    cbn [chain]. rewrite Z.mul_add_distr_l, (Hg x y Hx Hy), (IH y Hy Ht').
    rewrite (last_cons_cons x y x y t). ring.
Qed.

Lemma last_Forall {A : Type} (P : A -> Prop) (x : A) (t : list A) :
  P x -> Forall P t -> P (last (x :: t) x).
Proof.
  intros Hx Ht.
  destruct (exists_last (l:=x :: t)) as (l' & a & E); [discriminate|].
  rewrite E, last_last.
  assert (Hall : Forall P (x :: t)) by (constructor; assumption).
  rewrite E in Hall. apply Forall_app in Hall. destruct Hall as [_ Ha].
  inversion Ha; assumption.
Qed.

Lemma signed_area2_on_line (x0 y0 dx dy : Z) (p : list (list Z)) :
  dx <> 0 \/ dy <> 0 ->
  Forall (on_line x0 y0 dx dy) p -> signed_area2 p = 0.
Proof.
  intros Hd Hp. destruct p as [|x t]; [reflexivity|].
  inversion Hp as [|? ? Hx Ht]; subst.
  unfold signed_area2. rewrite rotate_next, (sum_next area_term).
  pose proof (last_Forall _ x t Hx Ht) as Hlast.
  destruct Hd as [Hd|Hd].
  - assert (Ht1 : forall a b, on_line x0 y0 dx dy a -> on_line x0 y0 dx dy b ->
                    dx * area_term a b = (- vx b - - vx a) * (dx * y0 - x0 * dy)).
    { unfold on_line, area_term. intros a b Ha Hb.
      transitivity (vx a * (dx * vy b) - vx b * (dx * vy a)); [ring|].
      assert (E1 : dx * vy b = dx * y0 + (vx b - x0) * dy) by lia.
      assert (E2 : dx * vy a = dx * y0 + (vx a - x0) * dy) by lia.
      rewrite E1, E2. ring. }
    pose proof (chain_telescope _ area_term (fun v => - vx v) dx _ x t Ht1 Hx Ht) as Hc.
    pose proof (Ht1 _ _ Hlast Hx) as Hl. cbv beta in Hc.
    assert (Hz : dx * (chain area_term x t + area_term (last (x :: t) x) x) = 0)
      by (rewrite Z.mul_add_distr_l, Hc, Hl; ring).
    apply Z.mul_eq_0 in Hz. destruct Hz as [Hz|Hz]; [contradiction | exact Hz].
  - assert (Ht1 : forall a b, on_line x0 y0 dx dy a -> on_line x0 y0 dx dy b ->
                    dy * area_term a b = (vy b - vy a) * (dy * x0 - y0 * dx)).
    { unfold on_line, area_term. intros a b Ha Hb.
      transitivity ((dy * vx a) * vy b - (dy * vx b) * vy a); [ring|].
      assert (E1 : dy * vx a = dy * x0 + (vy a - y0) * dx) by lia.
      assert (E2 : dy * vx b = dy * x0 + (vy b - y0) * dx) by lia.
      rewrite E1, E2. ring. }
    pose proof (chain_telescope _ area_term vy dy _ x t Ht1 Hx Ht) as Hc.
    pose proof (Ht1 _ _ Hlast Hx) as Hl.
    assert (Hz : dy * (chain area_term x t + area_term (last (x :: t) x) x) = 0)
      by (rewrite Z.mul_add_distr_l, Hc, Hl; ring).
    apply Z.mul_eq_0 in Hz. destruct Hz as [Hz|Hz]; [contradiction | exact Hz].
Qed.

(** X17.  A polygon with int coordinates whose vertices all lie on one
    line is stopped by the winding test with [sys.exit()], however many
    vertices it has and in whatever order they come. *)
Theorem collinear_rejected (x0 y0 dx dy : Z) (p : list (list Z)) :
  planar p -> dx <> 0 \/ dy <> 0 ->
  Forall (on_line x0 y0 dx dy) p ->
  convert_to_clockwise (int_polygon p) = Raise SystemExit.
Proof.
  intros Hp Hd Hl. rewrite (convert_to_clockwise_area p Hp).
  rewrite (signed_area2_on_line x0 y0 dx dy p Hd Hl). reflexivity.
Qed.

Lemma collinear_rejected_witness :
  planar [[1; 1]; [5; 3]; [3; 2]; [-1; 0]]
  /\ (2 <> 0 \/ 1 <> 0)
  /\ Forall (on_line 1 1 2 1) [[1; 1]; [5; 3]; [3; 2]; [-1; 0]]
  /\ convert_to_clockwise (int_polygon [[1; 1]; [5; 3]; [3; 2]; [-1; 0]])
     = Raise SystemExit.
Proof.
  assert (Hp : planar [[1; 1]; [5; 3]; [3; 2]; [-1; 0]]) by (repeat constructor).
  assert (Hd : 2 <> 0 \/ 1 <> 0) by (left; discriminate).
  assert (Hl : Forall (on_line 1 1 2 1) [[1; 1]; [5; 3]; [3; 2]; [-1; 0]])
    by (repeat constructor).
  split; [exact Hp|]. split; [exact Hd|]. split; [exact Hl|].
  exact (collinear_rejected 1 1 2 1 _ Hp Hd Hl).
Defined.

(** ** The written file and the names of the solids *)

Section Written.

Context {num : Type} `{PyNumber num} `{FileSystem}.

Lemma scaffold_without_marker (name : string) (d : datetime) :
  forallb (fun l => negb (String.eqb l marker))
          (firstn 62 (scaffold name d) ++ skipn 63 (scaffold name d)) = true.
Proof. reflexivity. Qed.

Lemma scaffold_length (name : string) (d : datetime) :
  List.length (scaffold name d) = 66%nat.
Proof. reflexivity. Qed.

(** X18.  The file of a run that returns has no marker line left in it, and
    has the 65 other lines of the scaffold and one line for each record
    of the run. *)
Theorem marker_replaced (name : string) (d : datetime) (data : pyval num) :
  fst (main name d data blank) = Ok tt ->
  exists out,
    file_out (snd (main name d data blank)) = Some out
    /\ ~ In marker out
    /\ List.length out
       = (65 + List.length (work_array (snd (main name d data blank))))%nat.
Proof.
  intro E. pose proof (main_file_out name d data) as Hf. rewrite E in Hf.
  unfold output_of in Hf. eexists. split; [exact Hf|]. split.
  - intro Hin. apply in_app_or in Hin. destruct Hin as [Hin|Hin];
      [|apply in_app_or in Hin; destruct Hin as [Hin|Hin]].
    + pose proof (scaffold_without_marker name d) as Hs.
      rewrite forallb_forall in Hs.
      specialize (Hs marker (in_or_app _ _ _ (or_introl Hin))).
      rewrite String.eqb_refl in Hs. discriminate.
    + pose proof (fresh_store_lines _ (fresh_store_main name d data)) as Hl.
      rewrite Forall_forall in Hl. destruct (Hl marker Hin) as (i & t & Hm).
      discriminate.
    + pose proof (scaffold_without_marker name d) as Hs.
      rewrite forallb_forall in Hs.
      specialize (Hs marker (in_or_app _ _ _ (or_intror Hin))).
      rewrite String.eqb_refl in Hs. discriminate.
  - rewrite !length_app, length_firstn, length_skipn, scaffold_length. lia.
Qed.

Lemma new_item_holds (t : string) (s s' : state) (i : Z) :
  new_item t s = (Ok i, s') -> holds t s'.
Proof.
  intro E.
  destruct (new_item_cases t s) as [(x & rest & Hm & E')|[Hm E']];
    rewrite E' in E; injection E as _ <-.
  - assert (Hx : In x (matches t (work_array s))) by (rewrite Hm; left; reflexivity).
    apply filter_In in Hx. exists x. exact Hx.
  - exists (record_line (current_index s) t). unfold stored; cbn [work_array].
    split; [apply in_or_app; right; left; reflexivity | apply ends_with_record_line].
Qed.

Lemma holds_later (t : string) (s s' : state) :
  later s s' -> holds t s -> holds t s'.
Proof.
  intros [more Hl] (line & Hin & He). exists line. split; [|exact He].
  rewrite Hl. apply in_or_app. left. exact Hin.
Qed.

Lemma generate_part_names (vs : list vec) (gd : list num) (s s' : state) (i : Z) :
  generate_part vs gd s = (Ok i, s') ->
  exists shell, holds (solid_text (part_body_index s) shell) s'.
Proof.
  unfold generate_part, af_list_2_part, closed_shell, manifold_solid_brep. intro E.
  apply bind_ok in E. destruct E as (faces & s1 & E1 & E).
  pose proof (preserves_af2d3d (fun x => part_body_index x = part_body_index s)
                (part_body_index_new_item (part_body_index s)) vs gd s eq_refl) as H1.
  rewrite E1 in H1. cbn [snd] in H1.
  apply bind_ok in E. destruct E as (shell & s2 & E2 & E).
  apply bind_ok in E2. destruct E2 as (l & s1' & El & E2).
  apply lift_ok in El. destruct El as [_ ->].
  apply new_item_run_part_body_index in E2.
  apply bind_ok in E. destruct E as (pbi & s3 & E3 & E).
  injection E3 as <- <-.
  apply bind_ok in E. destruct E as (msb & s4 & E4 & E).
  apply new_item_holds in E4.
  apply bind_ok in E. destruct E as (pbi' & s5 & E5 & E).
  injection E5 as <- <-.
  apply bind_ok in E. destruct E as ([] & s6 & E6 & E).
  injection E6 as <-. injection E as _ <-.
  exists shell. rewrite E2, H1 in E4. exact E4.
Qed.

Lemma mapM_generate_part_names (gd : list num) (l : list (list vec))
    (s s' : state) (parts : list Z) :
  mapM (fun x => generate_part x gd) l s = (Ok parts, s') ->
  forall j, (j < List.length l)%nat ->
    exists shell, holds (solid_text (part_body_index s + Z.of_nat j) shell) s'.
Proof.
  revert s parts. induction l as [|x l IH]; intros s parts E j Hj;
    [cbn [List.length] in Hj; lia|].
  cbn [mapM] in E.
  apply bind_ok in E. destruct E as (p & s1 & E1 & E).
  apply bind_ok in E. destruct E as (ps & s2 & E2 & E).
  injection E as _ <-.
  destruct j as [|j].
  - destruct (generate_part_names x gd s s1 p E1) as [shell Hh].
    exists shell. rewrite Z.add_0_r.
    apply (holds_later _ s1 s2); [|exact Hh].
    pose proof (preserves_mapM (later s1) (fun x => generate_part x gd) l
                  (fun a => preserves_generate_part (later s1)
                              (later_preserved_new_item s1)
                              (later_preserved_counter s1) a gd)
                  s1 (later_refl s1)) as Hl.
    rewrite E2 in Hl. exact Hl.
  - cbn [List.length] in Hj.
    destruct (IH s1 ps E2 j) as [shell Hh]; [lia|].
    exists shell. apply generate_part_counts in E1.
    replace (part_body_index s + Z.of_nat (S j))
      with (part_body_index s1 + Z.of_nat j) by lia.
    exact Hh.
Qed.

(** X19.  In a run of [generate_assembly] that returns, the solids are
    named by their place in the input: for the polygon at place [j]
    (counted from 0) the store holds a MANIFOLD_SOLID_BREP record named
    [PartBody.] followed by the part counter at the start plus [j]. *)
Theorem solids_named_in_order (a b c : pyval num) (s s' : state) :
  generate_assembly a b c s = (Ok tt, s') ->
  exists ps, a = VList ps
    /\ forall j, (j < List.length ps)%nat ->
         exists shell,
           holds (solid_text (part_body_index s + Z.of_nat j) shell) s'.
Proof.
  unfold generate_assembly. intro E.
  apply bind_ok in E. destruct E as (k & s1 & E1 & E).
  apply lift_ok in E1. destruct E1 as [_ ->].
  apply bind_ok in E. destruct E as (depths & s1 & E1 & E).
  apply lift_ok in E1. destruct E1 as [_ ->].
  apply bind_ok in E. destruct E as (polys & s1 & E1 & E).
  apply lift_ok in E1. destruct E1 as [Hpolys ->].
  apply bind_ok in E. destruct E as (polys3 & s1 & E1 & E).
  apply lift_ok in E1. destruct E1 as [H3 ->].
  apply bind_ok in E. destruct E as (cw & s1 & E1 & E).
  apply lift_ok in E1. destruct E1 as [Hcw ->].
  apply bind_ok in E. destruct E as (scaled & s1 & E1 & E).
  apply lift_ok in E1. destruct E1 as [Hsc ->].
  apply bind_ok in E. destruct E as (depths' & s1 & E1 & E).
  apply lift_ok in E1. destruct E1 as [Hd ->].
  apply bind_ok in E. destruct E as (parts & s1 & E1 & E).
  apply bind_ok in E. destruct E as (asm & s2 & E2 & E).
  pose proof (preserves_part_2_assembly (later s1) (later_preserved_new_item s1)
                parts s1 (later_refl s1)) as Hl.
  rewrite E2 in Hl. cbn [snd] in Hl.
  assert (Hw : work_array s' = work_array s2).
  { unfold write_output in E. destruct fs_open; [|discriminate].
    injection E as _ <-. reflexivity. }
  destruct (check_polygons_ok a polys Hpolys) as (ps & -> & _ & Hps).
  exists ps. split; [reflexivity|]. intros j Hj.
  apply mapR_length in Hps. apply mapR_length in H3. apply mapR_length in Hcw.
  apply mapR_length in Hsc.
  destruct (mapM_generate_part_names _ _ _ _ _ E1 j) as [shell (line & Hin & He)].
  { unfold vec in *. lia. }
  exists shell, line. split; [|exact He].
  rewrite Hw. destruct Hl as [more Hm]. rewrite Hm.
  apply in_or_app. left. exact Hin.
Qed.

(** X20.  [edge_curve_0] converts the sense of the edge to text before it
    hands it to [edge_curve], which converts it again: the text is a fixed
    point of the conversion, so the record is the one of a single
    conversion. *)
Theorem edge_sense_converted_once (v1 v2 l : Z) (ss : sense) :
  fort_bool (SText (fort_bool ss)) = fort_bool ss
  /\ edge_curve v1 v2 l (SText (fort_bool ss)) = edge_curve v1 v2 l ss.
Proof.
  split; [apply fort_bool_text|].
  unfold edge_curve. rewrite fort_bool_text. reflexivity.
Qed.

End Written.

Lemma marker_replaced_witness :
  fst (main "part_out.stp" a_date square_input blank) = Ok tt
  /\ exists out,
       file_out (snd (main "part_out.stp" a_date square_input blank)) = Some out
       /\ ~ In marker out
       /\ List.length out
          = (65 + List.length
                    (work_array (snd (main "part_out.stp" a_date square_input blank))))%nat.
Proof.
  assert (E : fst (main "part_out.stp" a_date square_input blank) = Ok tt)
    by (vm_compute; reflexivity).
  split; [exact E|].
  exact (marker_replaced "part_out.stp" a_date square_input E).
Defined.

Lemma generate_assembly_counts_parts_witness :
  let polys := VList [unit_square; unit_square] in
  let interval := VList [int 0; int 2] in
  let s' := snd (generate_assembly polys interval (int 10) started) in
  generate_assembly polys interval (int 10) started = (Ok tt, s')
  /\ exists ps, polys = VList ps
                /\ part_body_index s'
                   = part_body_index started + Z.of_nat (List.length ps).
Proof.
  intros polys interval s'.
  assert (E : generate_assembly polys interval (int 10) started = (Ok tt, s'))
    by (vm_compute; reflexivity).
  split; [exact E|].
  exact (generate_assembly_counts_parts polys interval (int 10) started s' E).
Defined.

Lemma solids_named_in_order_witness :
  let polys := VList [unit_square; VList [xy 1 0; xy 2 0; xy 2 1; xy 1 1]] in
  let interval := VList [int 0; int 2] in
  let s' := snd (generate_assembly polys interval (int 10) started) in
  generate_assembly polys interval (int 10) started = (Ok tt, s')
  /\ exists ps, polys = VList ps
       /\ forall j, (j < List.length ps)%nat ->
            exists shell,
              holds (solid_text (part_body_index started + Z.of_nat j) shell) s'.
Proof.
  intros polys interval s'.
  assert (E : generate_assembly polys interval (int 10) started = (Ok tt, s'))
    by (vm_compute; reflexivity).
  split; [exact E|].
  exact (solids_named_in_order polys interval (int 10) started s' E).
Defined.

(** ** The interval after its check *)

Section IntervalOrder.

Context {num : Type} `{PyNumber num} `{!PyOrder num}.

(** X21.  An interval that passes its check comes out with at least two
    entries, the first two different and the first not greater than the
    second, whichever way round they were given. *)
Theorem interval_ordered (b : pyval num) (depths : list num) :
  check_interval b = Ok depths ->
  exists z1 z2 rest,
    depths = z1 :: z2 :: rest
    /\ num_eqb z1 z2 = false /\ num_gtb z1 z2 = false.
Proof.
  unfold check_interval. destruct b as [| | |l|]; try discriminate.
  destruct l as [|x l]; [discriminate|].
  destruct (mapR expect_number (x :: l)) as [ds|]; [|discriminate].
  cbn [bindR]. destruct ds as [|d1 [|d2 ds]]; try discriminate.
  unfold index. cbn [nth_error bindR].
  destruct (num_eqb d1 d2) eqn:Ee; [discriminate|].
  destruct (num_gtb d1 d2) eqn:Eg; intro E; injection E as <-.
  - exists d2, d1, ds. cbn [skipn]. split; [reflexivity|].
    split; [apply (gtb_not_eqb_sym d1 d2 Eg) | apply (gtb_asym d1 d2 Eg)].
  - exists d1, d2, ds. repeat split; assumption.
Qed.

End IntervalOrder.

Lemma interval_ordered_witness :
  check_interval (VList [int 2; int 0; int 7]) = Ok [PyInt 0; PyInt 2; PyInt 7]
  /\ exists z1 z2 rest,
       [PyInt 0; PyInt 2; PyInt 7] = z1 :: z2 :: rest
       /\ num_eqb z1 z2 = false /\ num_gtb z1 z2 = false.
Proof.
  assert (E : check_interval (VList [int 2; int 0; int 7])
              = Ok [PyInt 0; PyInt 2; PyInt 7]) by (vm_compute; reflexivity).
  split; [exact E|].
  exact (interval_ordered (VList [int 2; int 0; int 7]) _ E).
Defined.

(** ** The records do not depend on the scaffold *)

Lemma agree_refl (s : state) : agree s s.
Proof. repeat split. Qed.

Lemma blind_ret {A : Type} (a : A) : blind (ret a).
Proof. intros s1 s2 Ha. split; [reflexivity | exact Ha]. Qed.

Lemma blind_lift {A : Type} (r : result A) : blind (lift r).
Proof. intros s1 s2 Ha. split; [reflexivity | exact Ha]. Qed.

Lemma blind_bind {A B : Type} (m : M A) (k : A -> M B) :
  blind m -> (forall a, blind (k a)) -> blind (bind m k).
Proof.
  intros Hm Hk s1 s2 Ha. unfold bind.
  destruct (Hm s1 s2 Ha) as [Hr Hs].
  destruct (m s1) as [[a1|e1] t1], (m s2) as [[a2|e2] t2];
    cbn [fst snd] in *; try discriminate.
  - injection Hr as <-. apply Hk. exact Hs.
  - injection Hr as <-. split; [reflexivity | exact Hs].
Qed.

Lemma blind_mapM {A B : Type} (f : A -> M B) (l : list A) :
  (forall a, blind (f a)) -> blind (mapM f l).
Proof.
  intro Hf. induction l as [|a l IH]; cbn [mapM].
  - apply blind_ret.
  - apply blind_bind; [apply Hf|]. intro b.
    apply blind_bind; [apply IH|]. intro bs. apply blind_ret.
Qed.

Lemma blind_new_item (t : string) : blind (new_item t).
Proof.
  intros s1 s2 (Hw & Hc & Hp).
  destruct (new_item_cases t s1) as [(x & rest & Hm & E1)|[Hm E1]]; rewrite E1.
  - rewrite (new_item_hit t s2 x rest) by (rewrite <- Hw; exact Hm).
    split; [reflexivity | repeat split; assumption].
  - rewrite (new_item_miss t s2) by (rewrite <- Hw; exact Hm).
    cbn [fst snd]. split; [rewrite Hc; reflexivity|].
    unfold stored, agree; cbn [work_array current_index part_body_index].
    rewrite Hw, Hc. repeat split. exact Hp.
Qed.

Lemma blind_get_part_body_index : blind get_part_body_index.
Proof.
  intros s1 s2 Ha. unfold get_part_body_index. cbn [fst snd].
  split; [|exact Ha]. destruct Ha as (_ & _ & ->). reflexivity.
Qed.

Lemma blind_set_part_body_index (i : Z) : blind (set_part_body_index i).
Proof.
  intros s1 s2 (Hw & Hc & Hp). unfold set_part_body_index. cbn [fst snd].
  split; [reflexivity|]. repeat split; assumption.
Qed.

Create HintDb blindness discriminated.

#[export] Hint Resolve blind_ret blind_lift blind_bind blind_mapM blind_new_item
  blind_get_part_body_index blind_set_part_body_index : blindness.

Section Blindness.

Context {num : Type} `{PyNumber num} `{FileSystem}.

Lemma blind_vertex (c : vec) : blind (vertex c).
Proof. unfold vertex. auto 30 with blindness. Qed.

Lemma blind_line (o d : vec) : blind (line o d).
Proof. unfold line. auto 30 with blindness. Qed.

#[local] Hint Resolve blind_vertex blind_line : blindness.

Lemma blind_edge_curve_0 (a b : vec) (ss : sense) : blind (edge_curve_0 a b ss).
Proof. unfold edge_curve_0, edge_curve. auto 30 with blindness. Qed.

#[local] Hint Resolve blind_edge_curve_0 : blindness.

Lemma blind_edge_loop_1 (vs : list vec) (ss : sense) : blind (edge_loop_1 vs ss).
Proof.
  unfold edge_loop_1, edge_loop_0, edge_loop, face_outer_bound, oriented_edge.
  auto 30 with blindness.
Qed.

#[local] Hint Resolve blind_edge_loop_1 : blindness.

Lemma blind_advanced_face_0 (vs : list vec) (z : vec) (s1 s2 : sense) :
  blind (advanced_face_0 vs z s1 s2).
Proof.
  unfold advanced_face_0, advanced_face, axis2_placement_3d, plane.
  apply blind_bind; [auto with blindness|]. intros [|]; auto 30 with blindness.
Qed.

#[local] Hint Resolve blind_advanced_face_0 : blindness.

Lemma blind_af2d3d (vs : list vec) (gd : list num) : blind (af2d3d vs gd).
Proof. unfold af2d3d, xyface, zface. auto 40 with blindness. Qed.

#[local] Hint Resolve blind_af2d3d : blindness.

Lemma blind_generate_part (vs : list vec) (gd : list num) :
  blind (generate_part vs gd).
Proof.
  unfold generate_part, af_list_2_part, closed_shell, manifold_solid_brep.
  auto 40 with blindness.
Qed.

Lemma blind_part_2_assembly (l : list Z) : blind (part_2_assembly l).
Proof.
  unfold part_2_assembly, advanced_brep_shape_representation,
    shape_representation_relationship. auto 30 with blindness.
Qed.

#[local] Hint Resolve blind_generate_part blind_part_2_assembly : blindness.

End Blindness.

Lemma alike_bind {A B : Type} (R : result B -> result B -> Prop) (m : M A)
    (k1 k2 : A -> M B) :
  blind m -> (forall e, R (Raise e) (Raise e)) ->
  (forall a, alike R (k1 a) (k2 a)) -> alike R (bind m k1) (bind m k2).
Proof.
  intros Hm HR Hk s1 s2 Ha. unfold bind.
  destruct (Hm s1 s2 Ha) as [Hr Hs].
  destruct (m s1) as [[a1|e1] t1], (m s2) as [[a2|e2] t2];
    cbn [fst snd] in *; try discriminate.
  - injection Hr as <-. apply Hk. exact Hs.
  - injection Hr as <-. split; [apply HR | exact Hs].
Qed.

Lemma write_items_refused (F : FileSystem) (items written : list string) (e : exn) :
  fst (@write_items F written items) = Raise e ->
  exists w item, @fs_write F w item = Raise e.
Proof.
  revert written. induction items as [|item items IH]; intros written E;
    cbn [write_items] in E; [discriminate|].
  destruct (@fs_write F written item) as [u|e'] eqn:Ef.
  - apply (IH _ E).
  - cbn [fst] in E. injection E as <-. exists written, item. exact Ef.
Qed.

Lemma write_output_refused (F : FileSystem) (s : state) :
  fst (@write_output F s) = Ok tt \/ refused F (fst (@write_output F s)).
Proof.
  unfold write_output. destruct (@fs_open F) as [u|e] eqn:Eo.
  - cbn [fst].
    destruct (fst (@write_items F [] _)) as [[]|e] eqn:Ew; [left; reflexivity|].
    right. exists e. split; [reflexivity|]. right.
    apply (write_items_refused F _ _ e Ew).
  - right. exists e. split; [reflexivity|]. left. exact Eo.
Qed.

Lemma agree_write_output (F : FileSystem) (s : state) :
  agree (snd (@write_output F s)) s.
Proof. unfold write_output. destruct (@fs_open F); repeat split. Qed.

Lemma alike_write_output (F1 F2 : FileSystem) :
  alike (same_unless_refused F1 F2) (@write_output F1) (@write_output F2).
Proof.
  intros s1 s2 (Hw & Hc & Hp). split.
  - unfold same_unless_refused.
    destruct (write_output_refused F1 s1) as [E1|E1]; [|right; left; exact E1].
    destruct (write_output_refused F2 s2) as [E2|E2]; [|right; right; exact E2].
    left. rewrite E1, E2. reflexivity.
  - destruct (agree_write_output F1 s1) as (Hw1 & Hc1 & Hp1).
    destruct (agree_write_output F2 s2) as (Hw2 & Hc2 & Hp2).
    repeat split; congruence.
Qed.

Section TwoFileSystems.

Context {num : Type} `{PyNumber num} (F1 F2 : FileSystem).

Lemma alike_generate_assembly (a b c : pyval num) :
  alike (same_unless_refused F1 F2)
        (@generate_assembly num _ F1 a b c) (@generate_assembly num _ F2 a b c).
Proof.
  unfold generate_assembly.
  assert (HR : forall e, same_unless_refused F1 F2 (Raise e) (Raise e))
    by (intro e; left; reflexivity).
  repeat (apply alike_bind; [apply blind_lift | exact HR | intro]).
  apply alike_bind; [|exact HR|].
  { apply blind_mapM. intro x. apply blind_generate_part. }
  intro parts. apply alike_bind; [apply blind_part_2_assembly | exact HR|].
  intros _. apply alike_write_output.
Qed.

(** X22.  The records of a run do not depend on the name of the output
    file, on the time of the run or on the file system: for two file
    names and two dates, in two file systems, the runs on the same input
    store the same records, with the same counters.  The two runs also
    return or raise alike, unless one of them ended with what its file
    system raised when the file was opened or an item was written. *)
Theorem records_independent_of_scaffold (name name' : string) (d d' : datetime)
    (data : pyval num) :
  agree (snd (@main num _ F1 name d data blank))
        (snd (@main num _ F2 name' d' data blank))
  /\ (fst (@main num _ F1 name d data blank)
      = fst (@main num _ F2 name' d' data blank)
      \/ refused F1 (fst (@main num _ F1 name d data blank))
      \/ refused F2 (fst (@main num _ F2 name' d' data blank))).
Proof.
  destruct data as [| | |l|];
    try (split; [apply agree_refl | left; reflexivity]).
  destruct l as [|a [|b [|c [|x l]]]];
    try (split; [apply agree_refl | left; reflexivity]).
  unfold main, bind. rewrite !initialize_blank.
  destruct (alike_generate_assembly a b c
              (mkState (scaffold name d) 62 [] 50 1 None)
              (mkState (scaffold name' d') 62 [] 50 1 None)) as [Hr Ha];
    [repeat split|].
  split; [exact Ha | exact Hr].
Qed.

End TwoFileSystems.

(** The square in a file system in which the file cannot be opened: the
    run raises, with the records of the run in the file system that takes
    every item. *)
Lemma refused_run_same_records :
  fst (@main pynum _ no_directory "" a_date square_input blank) = Raise OSError
  /\ fst (@main pynum _ takes_all "part_out.stp" a_date square_input blank) = Ok tt
  /\ work_array (snd (@main pynum _ no_directory "" a_date square_input blank))
     = work_array (snd (@main pynum _ takes_all "part_out.stp" a_date
                         square_input blank)).
Proof. vm_compute. repeat split. Qed.
(** ** The assembly record *)

Section Assembly.

Context {num : Type} `{PyNumber num} `{FileSystem}.

Lemma generate_part_solid (vs : list vec) (gd : list num) (s s' : state) (i : Z) :
  fresh_store (work_array s) ->
  generate_part vs gd s = (Ok i, s') ->
  exists shell line,
    In line (work_array s')
    /\ ends_with (solid_text (part_body_index s) shell) line = true
    /\ line_index line = Ok i.
Proof.
  unfold generate_part, af_list_2_part, closed_shell, manifold_solid_brep.
  intros Hs E.
  apply bind_ok in E. destruct E as (faces & s1 & E1 & E).
  pose proof (preserves_af2d3d (fun x => part_body_index x = part_body_index s)
                (part_body_index_new_item (part_body_index s)) vs gd s eq_refl) as H1.
  pose proof (preserves_af2d3d (fun x => fresh_store (work_array x))
                fresh_store_new_item vs gd s Hs) as F1.
  rewrite E1 in H1, F1. cbn [snd] in H1, F1.
  apply bind_ok in E. destruct E as (shell & s2 & E2 & E).
  apply bind_ok in E2. destruct E2 as (l & s1' & El & E2).
  apply lift_ok in El. destruct El as [_ ->].
  destruct (new_item_line _ _ _ _ F1 E2) as [F2 _].
  apply new_item_run_part_body_index in E2.
  apply bind_ok in E. destruct E as (pbi & s3 & E3 & E).
  injection E3 as <- <-.
  apply bind_ok in E. destruct E as (msb & s4 & E4 & E).
  destruct (new_item_line _ _ _ _ F2 E4) as [_ (line & Hin & He & Hi)].
  apply bind_ok in E. destruct E as (pbi' & s5 & E5 & E).
  injection E5 as <- <-.
  apply bind_ok in E. destruct E as ([] & s6 & E6 & E).
  injection E6 as <-. injection E as <- <-.
  exists shell, line. rewrite E2, H1 in He. cbn [work_array].
  repeat split; assumption.
Qed.

Lemma mapM_generate_part_solids (gd : list num) (l : list (list vec))
    (s s' : state) (parts : list Z) :
  fresh_store (work_array s) ->
  mapM (fun x => generate_part x gd) l s = (Ok parts, s') ->
  fresh_store (work_array s')
  /\ forall j, (j < List.length l)%nat -> solid_at (part_body_index s) parts s' j.
Proof.
  revert s parts. induction l as [|x l IH]; intros s parts Hs E.
  - injection E as _ <-. split; [exact Hs|]. intros j Hj. cbn [List.length] in Hj. lia.
  - cbn [mapM] in E.
    apply bind_ok in E. destruct E as (p & s1 & E1 & E).
    apply bind_ok in E. destruct E as (ps & s2 & E2 & E).
    injection E as <- <-.
    pose proof (preserves_generate_part (fun x => fresh_store (work_array x))
                  fresh_store_new_item fresh_preserved_counter x gd s Hs) as F1.
    rewrite E1 in F1. cbn [snd] in F1.
    destruct (IH s1 ps F1 E2) as [F2 Hrest]. split; [exact F2|].
    intros [|j] Hj.
    + destruct (generate_part_solid x gd s s1 p Hs E1) as (shell & line & Hin & He & Hi).
      exists shell, line. rewrite Z.add_0_r. cbn [nth].
      split; [|split; assumption].
      pose proof (preserves_mapM (later s1) (fun x => generate_part x gd) l
                    (fun a => preserves_generate_part (later s1)
                                (later_preserved_new_item s1)
                                (later_preserved_counter s1) a gd)
                    s1 (later_refl s1)) as Hl.
      rewrite E2 in Hl. destruct Hl as [more Hm]. cbn [snd] in Hm.
      rewrite Hm. apply in_or_app. left. exact Hin.
    + cbn [List.length] in Hj.
      destruct (Hrest j) as (shell & line & Hin & He & Hi); [lia|].
      exists shell, line. apply generate_part_counts in E1. cbn [nth].
      replace (part_body_index s + Z.of_nat (S j))
        with (part_body_index s1 + Z.of_nat j) by lia.
      repeat split; assumption.
Qed.

(** X23.  In a run of [generate_assembly] that returns, started on a store
    that [new_item] built, the assembly record lists one id for each
    polygon, in the order of the input, and the id at place [j] is the id
    in front of the stored MANIFOLD_SOLID_BREP line named [PartBody.]
    followed by the part counter at the start plus [j]; the list refers to
    the scaffold's id 45, and the id [a] of the assembly record is tied to
    the scaffold's id 48 by a SHAPE_REPRESENTATION_RELATIONSHIP record. *)
Theorem assembly_lists_solids (a b c : pyval num) (s s' : state) :
  fresh_store (work_array s) ->
  generate_assembly a b c s = (Ok tt, s') ->
  exists ps parts asm,
    a = VList ps
    /\ List.length parts = List.length ps
    /\ (forall j, (j < List.length ps)%nat ->
          exists shell line,
            In line (work_array s')
            /\ ends_with (solid_text (part_body_index s + Z.of_nat j) shell) line = true
            /\ line_index line = Ok (nth j parts 0))
    /\ (exists line, In line (work_array s')
                     /\ ends_with (assembly_text parts) line = true
                     /\ line_index line = Ok asm)
    /\ holds (relationship_text asm) s'.
Proof.
  unfold generate_assembly. intros Hs E.
  apply bind_ok in E. destruct E as (k & s1 & E1 & E).
  apply lift_ok in E1. destruct E1 as [_ ->].
  apply bind_ok in E. destruct E as (depths & s1 & E1 & E).
  apply lift_ok in E1. destruct E1 as [_ ->].
  apply bind_ok in E. destruct E as (polys & s1 & E1 & E).
  apply lift_ok in E1. destruct E1 as [Hpolys ->].
  apply bind_ok in E. destruct E as (polys3 & s1 & E1 & E).
  apply lift_ok in E1. destruct E1 as [H3 ->].
  apply bind_ok in E. destruct E as (cw & s1 & E1 & E).
  apply lift_ok in E1. destruct E1 as [Hcw ->].
  apply bind_ok in E. destruct E as (scaled & s1 & E1 & E).
  apply lift_ok in E1. destruct E1 as [Hsc ->].
  apply bind_ok in E. destruct E as (depths' & s1 & E1 & E).
  apply lift_ok in E1. destruct E1 as [Hd ->].
  apply bind_ok in E. destruct E as (parts & s1 & E1 & E).
  apply bind_ok in E. destruct E as (asm & s2 & E2 & E).
  assert (Hw : work_array s' = work_array s2).
  { unfold write_output in E. destruct fs_open; [|discriminate].
    injection E as _ <-. reflexivity. }
  assert (Hh : forall t, holds t s2 -> holds t s').
  { intros t (line & Hin & He). exists line. rewrite Hw. split; assumption. }
  destruct (check_polygons_ok a polys Hpolys) as (ps & -> & _ & Hps).
  apply mapR_length in Hps. apply mapR_length in H3. apply mapR_length in Hcw.
  apply mapR_length in Hsc.
  destruct (mapM_generate_part_solids _ _ _ _ _ Hs E1) as [F1 Hsolids].
  pose proof (mapM_length _ _ _ _ _ E1) as Hparts.
  unfold vec in *.
  assert (Hn : List.length parts = List.length ps) by lia.
  assert (Hj' : forall j, (j < List.length ps)%nat ->
                  (j < List.length scaled)%nat)
    by (intros j Hj; lia).
  unfold part_2_assembly, advanced_brep_shape_representation,
    shape_representation_relationship in E2.
  apply bind_ok in E2. destruct E2 as (absr & s3 & E3 & E4).
  apply bind_ok in E3. destruct E3 as (txt & s1' & Et & E3).
  apply lift_ok in Et. destruct Et as [Et ->].
  apply to_step_list_ok in Et. destruct Et as [_ ->].
  destruct (new_item_line _ _ _ _ F1 E3) as [F3 (aline & Hain & Hae & Hai)].
  assert (L13 : later s1 s3).
  { replace s3 with (snd (new_item (assembly_text parts) s1))
      by (unfold assembly_text; rewrite E3; reflexivity).
    apply new_item_later. }
  assert (L32 : later s3 s2).
  { replace s2 with (snd (new_item (relationship_text absr) s3))
      by (unfold relationship_text; rewrite E4; reflexivity).
    apply new_item_later. }
  exists ps, parts, absr. rewrite Hw.
  split; [reflexivity|]. split; [exact Hn|]. split; [|split].
  - intros j Hj.
    destruct (Hsolids j (Hj' j Hj)) as (shell & line & Hin & He & Hi).
    exists shell, line. split; [|split; assumption].
    destruct (later_trans _ _ _ L13 L32) as [more Hm]. rewrite Hm.
    apply in_or_app. left. exact Hin.
  - exists aline. split; [|split; assumption].
    destruct L32 as [more Hm]. rewrite Hm. apply in_or_app. left. exact Hain.
  - apply Hh. apply new_item_holds in E4. exact E4.
Qed.

End Assembly.

Lemma assembly_lists_solids_witness :
  let polys := VList [unit_square; VList [xy 1 0; xy 1 1; xy 2 1; xy 2 0]] in
  let interval := VList [int 0; int 2] in
  let s' := snd (generate_assembly polys interval (int 10) started) in
  fresh_store (work_array started)
  /\ generate_assembly polys interval (int 10) started = (Ok tt, s')
  /\ exists ps parts asm,
       polys = VList ps
       /\ List.length parts = List.length ps
       /\ (forall j, (j < List.length ps)%nat ->
             exists shell line,
               In line (work_array s')
               /\ ends_with (solid_text (part_body_index started + Z.of_nat j) shell)
                            line = true
               /\ line_index line = Ok (nth j parts 0))
       /\ (exists line, In line (work_array s')
                        /\ ends_with (assembly_text parts) line = true
                        /\ line_index line = Ok asm)
       /\ holds (relationship_text asm) s'.
Proof.
  intros polys interval s'.
  assert (H0 : fresh_store (work_array started)) by constructor.
  assert (E : generate_assembly polys interval (int 10) started = (Ok tt, s'))
    by (vm_compute; reflexivity).
  split; [exact H0|]. split; [exact E|].
  exact (assembly_lists_solids polys interval (int 10) started s' H0 E).
Defined.

